(** * mbsync socket layer (src/socket.c): a shallow embedding

    The connection abstraction of mbsync: hostname matching and certificate
    checks of the TLS layer, the fixed-size read buffer with line
    extraction, the write queue with partial-write tracking, the optional
    deflate layer on the outbound path, and the connect loop over the
    resolved candidate addresses.

    The code is modelled with HAVE_LIBSSL, HAVE_LIBZ and HAVE_IPV6 defined.
    C [int]s are [Z]; every quantity handled here is a buffer offset or a
    length, so no arithmetic leaves the range of [int].  A [const char *]
    is a [string] read up to its first NUL character; a byte buffer is a
    [list ascii]. *)

From Stdlib Require Import ZArith List Ascii String Bool Lia.
Import ListNotations.

Local Open Scope Z_scope.

(** ** C strings *)

Module CStr.

Definition NUL : ascii := Ascii.zero.

(** [*p] for a pointer into a NUL-terminated array. *)
Definition deref (p : string) : ascii :=
  match p with
  | EmptyString => NUL
  | String c _ => c
  end.

(** [p + n], staying on the terminator once it is reached. *)
Fixpoint ptr_add (p : string) (n : nat) {struct n} : string :=
  match n with
  | O => p
  | S n' =>
      match p with
      | String _ p' => ptr_add p' n'
      | EmptyString => EmptyString
      end
  end.

Definition char_code (c : ascii) : Z := Z.of_nat (nat_of_ascii c).

(** [tolower] in the C locale. *)
Definition tolower (c : ascii) : ascii :=
  let n := nat_of_ascii c in
  if (65 <=? n)%nat && (n <=? 90)%nat then ascii_of_nat (n + 32) else c.

Fixpoint strlen (s : string) : nat :=
  match s with
  | EmptyString => O
  | String c s' => if Ascii.eqb c NUL then O else S (strlen s')
  end.

(** [strchr( s, c )]: the suffix starting at the first [c], if any. *)
Fixpoint strchr (s : string) (c : ascii) : option string :=
  match s with
  | EmptyString => if Ascii.eqb c NUL then Some EmptyString else None
  | String x s' =>
      if Ascii.eqb x c then Some s
      else if Ascii.eqb x NUL then None
      else strchr s' c
  end.

(** [strcasecmp( a, b )]: difference of the first pair of characters that
    differ after [tolower], 0 when both strings end together. *)
Fixpoint strcasecmp (a b : string) : Z :=
  let c1 := tolower (deref a) in
  let c2 := tolower (deref b) in
  if Ascii.eqb c1 c2 then
    if Ascii.eqb c1 NUL then 0
    else match a, b with
         | String _ a', String _ b' => strcasecmp a' b'
         | _, _ => 0
         end
  else char_code c1 - char_code c2.

(** A [string] that is the content of a C string: no NUL inside. *)
Fixpoint is_cstring (s : string) : bool :=
  match s with
  | EmptyString => true
  | String c s' => negb (Ascii.eqb c NUL) && is_cstring s'
  end.

(** Case folding of a whole string, used to state results. *)
Fixpoint lower (s : string) : string :=
  match s with
  | EmptyString => EmptyString
  | String c s' => String (tolower c) (lower s')
  end.

Fixpoint has_char (c : ascii) (s : string) : bool :=
  match s with
  | EmptyString => false
  | String x s' => Ascii.eqb x c || has_char c s'
  end.

End CStr.

Import CStr.

(** ** Hostname matching (socket.c, host_matches) *)

Definition truth (b : bool) : Z := if b then 1 else 0.

Definition host_matches (host pattern : string) : Z :=
  let tail (host pattern : string) :=
    truth (negb (Ascii.eqb (deref host) NUL)
           && negb (Ascii.eqb (deref pattern) NUL)
           && (strcasecmp host pattern =? 0)) in
  if Ascii.eqb (deref pattern) "*" && Ascii.eqb (deref (ptr_add pattern 1)) "." then
    let pattern := ptr_add pattern 2 in
    match strchr host "." with
    | None => 0
    | Some host => tail (ptr_add host 1) pattern
    end
  else tail host pattern.

(** ** Certificates (the parts of OpenSSL's X509 that socket.c reads) *)

Inductive gen_type := GEN_OTHERNAME | GEN_EMAIL | GEN_DNS | GEN_URI | GEN_IPADD.

Definition gen_type_eqb (a b : gen_type) : bool :=
  match a, b with
  | GEN_OTHERNAME, GEN_OTHERNAME | GEN_EMAIL, GEN_EMAIL | GEN_DNS, GEN_DNS
  | GEN_URI, GEN_URI | GEN_IPADD, GEN_IPADD => true
  | _, _ => false
  end.

(** An ASN1 string is [data] with an explicit [length]; OpenSSL keeps a NUL
    after the last byte, so [data] can be handed to the C string functions,
    which then stop at the first NUL inside it. *)
Record GENERAL_NAME := {
  gn_type : gen_type;
  ia5_data : string                      (* d.ia5->data, d.ia5->length bytes *)
}.

Definition ia5_length (n : GENERAL_NAME) : nat := String.length (ia5_data n).

Record X509 := {
  x509_digest : Z;                       (* what X509_cmp compares *)
  subject_alt_names : option (list GENERAL_NAME);
  subject_name : option (option string)  (* subject, and its commonName entry *)
}.

Definition X509_cmp (a b : X509) : Z := x509_digest a - x509_digest b.

Definition X509_V_OK : Z := 0.

(** [X509_NAME_get_text_by_NID( subj, NID_commonName, cname, size )]: -1
    without such an entry, else the entry cut to [size - 1] bytes is copied
    and its length returned. *)
Definition X509_NAME_get_text_by_NID (subj : option string) (size : nat)
  : Z * string :=
  match subj with
  | None => (-1, EmptyString)
  | Some cn =>
      let text := String.substring 0 (size - 1) cn in
      (Z.of_nat (String.length text), text)
  end.

(** The DNS subjectAltNames loop of verify_hostname. *)
Fixpoint san_found (names : list GENERAL_NAME) (hostname : string) : bool :=
  match names with
  | [] => false
  | subj_alt_name :: rest =>
      if gen_type_eqb (gn_type subj_alt_name) GEN_DNS
         && (strlen (ia5_data subj_alt_name) =? ia5_length subj_alt_name)%nat
         && negb (host_matches hostname (ia5_data subj_alt_name) =? 0)
      then true
      else san_found rest hostname
  end.

Definition verify_hostname (cert : X509) (hostname : string) : Z :=
  let found :=
    match subject_alt_names cert with
    | Some subj_alt_names => san_found subj_alt_names hostname
    | None => false
    end in
  if found then 0
  else
    match subject_name cert with
    | None => -1                         (* cannot get certificate subject *)
    | Some subj =>
        let '(len, cname) := X509_NAME_get_text_by_NID subj 1000 in
        if len <? 0 then -1              (* cannot get certificate common name *)
        else if (Z.of_nat (strlen cname) =? len)
                && negb (host_matches hostname cname =? 0)
        then 0
        else -1                          (* owner does not match hostname *)
    end.

(** The per-connection TLS handle, as far as the handshake result goes.
    The chain verification of the handshake looks certificates up in the
    store of the context, which sorts store->objs and adds what the lookup
    paths provide: [chain_lookup] gives the objects of the store afterwards
    from those before. *)
Record SSL := {
  peer_certificate : option X509;        (* SSL_get_peer_certificate *)
  verify_result : Z;                     (* SSL_get_verify_result *)
  chain_lookup : list X509 -> list X509
}.

Record server_conf_t := {
  host : option string;
  port : Z;
  tunnel : option string;
  cert_store : list X509;                (* SSL_CTX_get_cert_store( SSLContext )->objs *)
  num_trusted : nat
}.

Definition set_store (conf : server_conf_t) (store : list X509) (n : nat)
  : server_conf_t :=
  {| host := host conf; port := port conf; tunnel := tunnel conf;
     cert_store := store; num_trusted := n |}.

(** The loop over the first [num_trusted] objects of the store;
    [num_trusted] was read off the same store and does not exceed its size. *)
Fixpoint trusted_match (cert : X509) (trusted : list X509) (n : nat) : bool :=
  match n, trusted with
  | S n', t :: rest =>
      if X509_cmp cert t =? 0 then true else trusted_match cert rest n'
  | _, _ => false
  end.

Definition verify_cert_host (conf : server_conf_t) (ssl : SSL) : Z :=
  match peer_certificate ssl with
  | None => -1                           (* no server certificate *)
  | Some cert =>
      if trusted_match cert (cert_store conf) (num_trusted conf) then 0
      else if negb (verify_result ssl =? X509_V_OK) then -1
      else match host conf with
           | None => -1                  (* neither host nor matching certificate *)
           | Some h => verify_hostname cert h
           end
  end.

(** ** The environment: event loop, kernel, OpenSSL and the callbacks *)

Definition POLLIN : Z := 1.
Definition POLLOUT : Z := 4.
Definition POLLERR : Z := 8.

Inductive errno_t := EAGAIN | EWOULDBLOCK | EINPROGRESS | EOTHER (code : Z).

Definition would_block (e : errno_t) : bool :=
  match e with EAGAIN | EWOULDBLOCK => true | _ => false end.

(** What the module does to its surroundings, in the order it does it.
    The callbacks are opaque: a call is recorded, not run. *)
Inductive event :=
| Ev_add_fd (fd : Z)
| Ev_conf_fd (fd and_events or_events : Z)
| Ev_fake_fd (fd events : Z)
| Ev_del_fd (fd : Z)
| Ev_close (fd : Z)
| Ev_sent (data : list ascii)        (* bytes the transport took in one write *)
| Ev_error (msg : string)            (* error() and sys_error() *)
| Cb_bad
| Cb_read
| Cb_write
| Cb_connect (ok : Z)
| Cb_starttls (ok : Z).

Inductive read_result :=
| ReadBytes (data : list ascii)      (* read() >= 0; no byte is end of file *)
| ReadFail (e : errno_t).            (* read() < 0 *)

Inductive write_result :=
| WriteCount (k : Z)                 (* write() took min( k, len ) bytes *)
| WriteFail (e : errno_t).           (* write() < 0 *)

Inductive ssl_error :=
| SSL_ERROR_NONE | SSL_ERROR_SSL | SSL_ERROR_WANT_READ | SSL_ERROR_WANT_WRITE
| SSL_ERROR_SYSCALL | SSL_ERROR_ZERO_RETURN.

Inductive ssl_failure :=
| Want_read | Want_write | Syscall_failure | Protocol_failure | Zero_return.

Definition SSL_get_error (f : ssl_failure) : ssl_error :=
  match f with
  | Want_read => SSL_ERROR_WANT_READ
  | Want_write => SSL_ERROR_WANT_WRITE
  | Syscall_failure => SSL_ERROR_SYSCALL
  | Protocol_failure => SSL_ERROR_SSL
  | Zero_return => SSL_ERROR_ZERO_RETURN
  end.

Inductive ssl_read_result :=
| SslRead (data : list ascii) (pending : Z)   (* data delivered, SSL_pending afterwards *)
| SslReadFail (ret : Z) (f : ssl_failure).

Inductive ssl_write_result :=
| SslWrote (k : Z)                   (* SSL_write() took min( k, len ) bytes *)
| SslWriteFail (ret : Z) (f : ssl_failure).

Inductive ssl_connect_result :=
| SslConnected
| SslConnectFail (ret : Z) (f : ssl_failure).

(** The answers the surroundings will give to the calls still to come, and
    the trace of what was done so far.  A list that runs out answers
    "would block" from then on. *)
Record world := {
  sys_reads : list read_result;
  sys_writes : list write_result;
  ssl_reads : list ssl_read_result;
  ssl_writes : list ssl_write_result;
  ssl_connects : list ssl_connect_result;
  ssl_pending : Z;                     (* SSL_pending( conn->ssl ) *)
  write_callback_ret : Z;
  trace : list event
}.

Definition emit (e : event) (w : world) : world :=
  {| sys_reads := sys_reads w; sys_writes := sys_writes w;
     ssl_reads := ssl_reads w; ssl_writes := ssl_writes w;
     ssl_connects := ssl_connects w; ssl_pending := ssl_pending w;
     write_callback_ret := write_callback_ret w;
     trace := trace w ++ [e] |}.

Definition sys_read (w : world) : read_result * world :=
  match sys_reads w with
  | [] => (ReadFail EAGAIN, w)
  | r :: rs =>
      (r, {| sys_reads := rs; sys_writes := sys_writes w;
             ssl_reads := ssl_reads w; ssl_writes := ssl_writes w;
             ssl_connects := ssl_connects w; ssl_pending := ssl_pending w;
             write_callback_ret := write_callback_ret w; trace := trace w |})
  end.

Definition sys_write (w : world) : write_result * world :=
  match sys_writes w with
  | [] => (WriteFail EAGAIN, w)
  | r :: rs =>
      (r, {| sys_reads := sys_reads w; sys_writes := rs;
             ssl_reads := ssl_reads w; ssl_writes := ssl_writes w;
             ssl_connects := ssl_connects w; ssl_pending := ssl_pending w;
             write_callback_ret := write_callback_ret w; trace := trace w |})
  end.

Definition SSL_read (w : world) : ssl_read_result * world :=
  match ssl_reads w with
  | [] => (SslReadFail (-1) Want_read, w)
  | r :: rs =>
      (r, {| sys_reads := sys_reads w; sys_writes := sys_writes w;
             ssl_reads := rs; ssl_writes := ssl_writes w;
             ssl_connects := ssl_connects w;
             ssl_pending := match r with
                            | SslRead _ p => p
                            | SslReadFail _ _ => ssl_pending w
                            end;
             write_callback_ret := write_callback_ret w; trace := trace w |})
  end.

Definition SSL_write (w : world) : ssl_write_result * world :=
  match ssl_writes w with
  | [] => (SslWriteFail (-1) Want_write, w)
  | r :: rs =>
      (r, {| sys_reads := sys_reads w; sys_writes := sys_writes w;
             ssl_reads := ssl_reads w; ssl_writes := rs;
             ssl_connects := ssl_connects w; ssl_pending := ssl_pending w;
             write_callback_ret := write_callback_ret w; trace := trace w |})
  end.

Definition SSL_connect (w : world) : ssl_connect_result * world :=
  match ssl_connects w with
  | [] => (SslConnectFail (-1) Want_read, w)
  | r :: rs =>
      (r, {| sys_reads := sys_reads w; sys_writes := sys_writes w;
             ssl_reads := ssl_reads w; ssl_writes := ssl_writes w;
             ssl_connects := rs; ssl_pending := ssl_pending w;
             write_callback_ret := write_callback_ret w; trace := trace w |})
  end.

(** The bytes the transport has taken so far, in order. *)
Fixpoint sent_bytes (t : list event) : list ascii :=
  match t with
  | [] => []
  | Ev_sent d :: t' => d ++ sent_bytes t'
  | _ :: t' => sent_bytes t'
  end.

(** The connect-completed callbacks of a trace, in order. *)
Fixpoint connect_callbacks (t : list event) : list Z :=
  match t with
  | [] => []
  | Cb_connect ok :: t' => ok :: connect_callbacks t'
  | _ :: t' => connect_callbacks t'
  end.

(** The descriptors closed in a trace, in order. *)
Fixpoint closed_fds (t : list event) : list Z :=
  match t with
  | [] => []
  | Ev_close fd :: t' => fd :: closed_fds t'
  | _ :: t' => closed_fds t'
  end.

(** One resolved address, with what the kernel will answer when it is
    tried: the result of socket(), of connect() on that descriptor, and of
    the later getsockopt() when the connect was left in progress. *)
Inductive connect_result :=
| ConnectDone                          (* connect() = 0 *)
| ConnectFail (e : errno_t)            (* connect() < 0; EINPROGRESS is the pending one *)
.

Record addrinfo := {
  ai_family : Z;
  ai_socket : Z;                       (* what socket() returns for it *)
  ai_connect : connect_result;
  ai_so_error : option Z               (* getsockopt( SO_ERROR ) once the attempt
                                          has finished; None when the call fails *)
}.

(** ** Buffers *)

Definition sub_buf (b : list ascii) (off len : Z) : list ascii :=
  firstn (Z.to_nat len) (skipn (Z.to_nat off) b).

(** [memcpy( b + off, d, length d )]. *)
Definition poke (b : list ascii) (off : Z) (d : list ascii) : list ascii :=
  firstn (Z.to_nat off) b ++ d ++ skipn (Z.to_nat off + List.length d) b.

(** [memchr( s, c, n )] as an index into [s]. *)
Fixpoint memchr (s : list ascii) (c : ascii) (n : nat) : option Z :=
  match n, s with
  | S n', x :: s' =>
      if Ascii.eqb x c then Some 0
      else match memchr s' c n' with
           | Some i => Some (i + 1)
           | None => None
           end
  | _, _ => None
  end.

(** The C string that starts at [b + off]. *)
Fixpoint c_string (b : list ascii) : string :=
  match b with
  | [] => EmptyString
  | c :: b' => if Ascii.eqb c NUL then EmptyString else String c (c_string b')
  end.

Definition string_at (b : list ascii) (off : Z) : string :=
  c_string (skipn (Z.to_nat off) b).

Definition len_of (b : list ascii) : Z := Z.of_nat (List.length b).

(** ** The connection *)

Inductive sck_state := SCK_CONNECTING | SCK_STARTTLS | SCK_READY.

Definition sck_state_eqb (a b : sck_state) : bool :=
  match a, b with
  | SCK_CONNECTING, SCK_CONNECTING | SCK_STARTTLS, SCK_STARTTLS
  | SCK_READY, SCK_READY => true
  | _, _ => false
  end.

Inductive ownership_t := KeepOwn | GiveOwn.

Record buff_chunk_t := {
  bc_data : list ascii;                (* data, len bytes *)
  bc_own : ownership_t                 (* whether data is the caller's buffer *)
}.

Definition bc_len (bc : buff_chunk_t) : Z := len_of (bc_data bc).

Definition Z_OK : Z := 0.

Section Connection.

(** zlib is not part of the module: its stream state and [deflate] are taken
    as given.  [deflate z avail_out] stands for
    [deflate( z, Z_SYNC_FLUSH )] with [avail_out] bytes of room at
    [next_out]; it yields the return code, the stream afterwards and the
    bytes it produced. *)
Context {internal_state : Type}.

Record z_stream := {
  next_in : list ascii;                (* next_in, avail_in bytes *)
  z_state : internal_state
}.

Variable deflate : z_stream -> nat -> Z * z_stream * list ascii.
Variable inflateInit2 : Z * z_stream.
Variable deflateInit2 : Z * z_stream.

(** sizeof(conn->buf), from socket.h. *)
Variable buf_size : Z.

Record conn_t := {
  conf : server_conf_t;
  fd : Z;
  state : sck_state;
  ssl : option SSL;
  in_z : option z_stream;
  out_z : option z_stream;
  in_z_leftover : list ascii;          (* in_z_leftover, in_z_leftover_len bytes *)
  curr_addr : list addrinfo;           (* the candidates from curr_addr on *)
  buf : list ascii;
  offset : Z;
  bytes : Z;
  scanoff : Z;
  write_buf : list buff_chunk_t;       (* write_buf_append is the end of the list *)
  write_offset : Z
}.

Definition in_z_leftover_len (c : conn_t) : Z := len_of (in_z_leftover c).

Definition set_conf (c : conn_t) (v : server_conf_t) : conn_t :=
  {| conf := v; fd := fd c; state := state c; ssl := ssl c; in_z := in_z c;
     out_z := out_z c; in_z_leftover := in_z_leftover c; curr_addr := curr_addr c;
     buf := buf c; offset := offset c; bytes := bytes c; scanoff := scanoff c;
     write_buf := write_buf c; write_offset := write_offset c |}.

Definition set_fd (c : conn_t) (v : Z) : conn_t :=
  {| conf := conf c; fd := v; state := state c; ssl := ssl c; in_z := in_z c;
     out_z := out_z c; in_z_leftover := in_z_leftover c; curr_addr := curr_addr c;
     buf := buf c; offset := offset c; bytes := bytes c; scanoff := scanoff c;
     write_buf := write_buf c; write_offset := write_offset c |}.

Definition set_state (c : conn_t) (v : sck_state) : conn_t :=
  {| conf := conf c; fd := fd c; state := v; ssl := ssl c; in_z := in_z c;
     out_z := out_z c; in_z_leftover := in_z_leftover c; curr_addr := curr_addr c;
     buf := buf c; offset := offset c; bytes := bytes c; scanoff := scanoff c;
     write_buf := write_buf c; write_offset := write_offset c |}.

Definition set_ssl (c : conn_t) (v : option SSL) : conn_t :=
  {| conf := conf c; fd := fd c; state := state c; ssl := v; in_z := in_z c;
     out_z := out_z c; in_z_leftover := in_z_leftover c; curr_addr := curr_addr c;
     buf := buf c; offset := offset c; bytes := bytes c; scanoff := scanoff c;
     write_buf := write_buf c; write_offset := write_offset c |}.

Definition set_z (c : conn_t) (i o : option z_stream) : conn_t :=
  {| conf := conf c; fd := fd c; state := state c; ssl := ssl c; in_z := i;
     out_z := o; in_z_leftover := in_z_leftover c; curr_addr := curr_addr c;
     buf := buf c; offset := offset c; bytes := bytes c; scanoff := scanoff c;
     write_buf := write_buf c; write_offset := write_offset c |}.

Definition set_in_z_leftover (c : conn_t) (v : list ascii) : conn_t :=
  {| conf := conf c; fd := fd c; state := state c; ssl := ssl c; in_z := in_z c;
     out_z := out_z c; in_z_leftover := v; curr_addr := curr_addr c;
     buf := buf c; offset := offset c; bytes := bytes c; scanoff := scanoff c;
     write_buf := write_buf c; write_offset := write_offset c |}.

Definition set_curr_addr (c : conn_t) (v : list addrinfo) : conn_t :=
  {| conf := conf c; fd := fd c; state := state c; ssl := ssl c; in_z := in_z c;
     out_z := out_z c; in_z_leftover := in_z_leftover c; curr_addr := v;
     buf := buf c; offset := offset c; bytes := bytes c; scanoff := scanoff c;
     write_buf := write_buf c; write_offset := write_offset c |}.

(** The read side: buffer, offset, bytes and scanoff together. *)
Definition set_rd (c : conn_t) (b : list ascii) (o n s : Z) : conn_t :=
  {| conf := conf c; fd := fd c; state := state c; ssl := ssl c; in_z := in_z c;
     out_z := out_z c; in_z_leftover := in_z_leftover c; curr_addr := curr_addr c;
     buf := b; offset := o; bytes := n; scanoff := s;
     write_buf := write_buf c; write_offset := write_offset c |}.

Definition set_write_buf (c : conn_t) (v : list buff_chunk_t) : conn_t :=
  {| conf := conf c; fd := fd c; state := state c; ssl := ssl c; in_z := in_z c;
     out_z := out_z c; in_z_leftover := in_z_leftover c; curr_addr := curr_addr c;
     buf := buf c; offset := offset c; bytes := bytes c; scanoff := scanoff c;
     write_buf := v; write_offset := write_offset c |}.

Definition set_write_offset (c : conn_t) (v : Z) : conn_t :=
  {| conf := conf c; fd := fd c; state := state c; ssl := ssl c; in_z := in_z c;
     out_z := out_z c; in_z_leftover := in_z_leftover c; curr_addr := curr_addr c;
     buf := buf c; offset := offset c; bytes := bytes c; scanoff := scanoff c;
     write_buf := write_buf c; write_offset := v |}.

(** *** Failure reporting *)

Definition socket_fail (conn : conn_t) (w : world) : world := emit Cb_bad w.

Definition ssl_return (func : string) (conn : conn_t) (w : world)
  (ret : Z) (err : ssl_error) : Z * world :=
  match err with
  | SSL_ERROR_NONE => (ret, w)
  | SSL_ERROR_WANT_WRITE => (0, emit (Ev_conf_fd (fd conn) POLLIN POLLOUT) w)
  | SSL_ERROR_WANT_READ => (0, w)
  | _ =>
      let w := emit (Ev_error ("Socket error: secure " ++ func)) w in
      let w := if sck_state_eqb (state conn) SCK_STARTTLS
               then emit (Cb_starttls 0) w
               else socket_fail conn w in
      (-1, w)
  end.

(** *** TLS handshake *)

Definition start_tls_p3 (conn : conn_t) (w : world) (ok : Z) : conn_t * world :=
  (set_state conn SCK_READY, emit (Cb_starttls ok) w).

(** The store of the context as the completed handshake on [s] leaves
    it; [num_trusted] stays what [init_ssl_ctx] recorded. *)
Definition store_after_handshake (conf : server_conf_t) (s : SSL) : server_conf_t :=
  set_store conf (chain_lookup s (cert_store conf)) (num_trusted conf).

(** [start_tls_p2]; [verify_cert_host] reads the store as it is after
    SSL_connect. *)
Definition start_tls_p2 (conn : conn_t) (w : world) : conn_t * world :=
  let '(r, w) := SSL_connect w in
  let '(ret, err) := match r with
                     | SslConnected => (1, SSL_ERROR_NONE)
                     | SslConnectFail ret f => (ret, SSL_get_error f)
                     end in
  let '(n, w) := ssl_return "connect to" conn w ret err in
  if 0 <? n then
    match ssl conn with
    | Some s =>
        let conn := set_conf conn (store_after_handshake (conf conn) s) in
        if negb (verify_cert_host (conf conn) s =? 0)
        then start_tls_p3 conn w 0
        else start_tls_p3 conn w 1
    | None => (conn, w)                  (* not reached: conn->ssl is set *)
    end
  else (conn, w).

(** *** Compression set-up *)

Definition socket_start_deflate (conn : conn_t) (w : world) : conn_t * world :=
  match in_z conn with
  | Some _ => (conn, w)
  | None =>
      let '(result, iz) := inflateInit2 in
      let w := if negb (result =? Z_OK)
               then emit (Ev_error "IMAP error: Cannot start compression") w
               else w in
      let '(result, oz) := deflateInit2 in
      let w := if negb (result =? Z_OK)
               then emit (Ev_error "IMAP error: Cannot start compression") w
               else w in
      (set_z conn (Some iz) (Some oz), w)
  end.

(** *** Reading *)

Definition socket_fill (sock : conn_t) (w : world) : conn_t * world :=
  let n := offset sock + bytes sock in
  let len := buf_size - n in
  if len =? 0 then
    let w := emit (Ev_error "Socket error: receive buffer full. Probably protocol error.") w in
    (sock, socket_fail sock w)
  else
    (* assert( sock->fd >= 0 ); the data lands at buf + n *)
    match ssl sock with
    | Some _ =>
        let '(r, w) := SSL_read w in
        let '(data, ret, err) :=
          match r with
          | SslRead d _ => let d := firstn (Z.to_nat len) d in (d, len_of d, SSL_ERROR_NONE)
          | SslReadFail ret f => ([], ret, SSL_get_error f)
          end in
        let '(n', w) := ssl_return "read from" sock w ret err in
        if n' <=? 0 then (sock, w)
        else
          let w := if (n' =? len) && negb (ssl_pending w =? 0)
                   then emit (Ev_fake_fd (fd sock) POLLIN) w
                   else w in
          (set_rd sock (poke (buf sock) n data) (offset sock) (bytes sock + n') (scanoff sock),
           emit Cb_read w)
    | None =>
        let '(r, w) := sys_read w in
        match r with
        | ReadFail _ =>
            let w := emit (Ev_error "Socket error: read from") w in
            (sock, socket_fail sock w)
        | ReadBytes d =>
            let data := firstn (Z.to_nat len) d in
            let n' := len_of data in
            if n' =? 0 then
              let w := emit (Ev_error "Socket error: read from: unexpected EOF") w in
              (sock, socket_fail sock w)
            else
              (set_rd sock (poke (buf sock) n data) (offset sock) (bytes sock + n') (scanoff sock),
               emit Cb_read w)
        end
    end.

(** [socket_read]: the bytes copied out and their count. *)
Definition socket_read (conn : conn_t) (len : Z) : Z * list ascii * conn_t :=
  let n := bytes conn in
  let n := if len <? n then len else n in
  let out := sub_buf (buf conn) (offset conn) n in
  let bytes' := bytes conn - n in
  let conn := if bytes' =? 0
              then set_rd conn (buf conn) 0 bytes' (scanoff conn)
              else set_rd conn (buf conn) (offset conn + n) bytes' (scanoff conn) in
  (n, out, conn).

(** [socket_read_line]: the returned pointer is an index into [buf], None
    for the null pointer. *)
Definition socket_read_line (b : conn_t) : option Z * conn_t :=
  let s := offset b in
  match memchr (skipn (Z.to_nat (s + scanoff b)) (buf b)) "010"%char
               (Z.to_nat (bytes b - scanoff b)) with
  | None =>
      let b := set_rd b (buf b) (offset b) (bytes b) (bytes b) in
      let b := if offset b + bytes b =? buf_size
               then set_rd b (poke (buf b) 0 (sub_buf (buf b) (offset b) (bytes b)))
                           0 (bytes b) (scanoff b)
               else b in
      (None, b)
  | Some i =>
      let p := s + scanoff b + i in
      let n := p + 1 - s in
      let p := if negb (p =? s) && Ascii.eqb (nth (Z.to_nat (p - 1)) (buf b) NUL) "013"%char
               then p - 1 else p in
      (Some s, set_rd b (poke (buf b) p [NUL]) (offset b + n) (bytes b - n) 0)
  end.

(** *** Writing *)

(** [do_write_inner] (which is [do_write] itself without zlib). *)
Definition do_write_inner (sock : conn_t) (w : world) (buf : list ascii) : Z * world :=
  let len := len_of buf in
  (* assert( sock->fd >= 0 ) *)
  match ssl sock with
  | Some _ =>
      let '(r, w) := SSL_write w in
      match r with
      | SslWrote k =>
          let d := firstn (Z.to_nat k) buf in
          ssl_return "write to" sock (emit (Ev_sent d) w) (len_of d) SSL_ERROR_NONE
      | SslWriteFail ret f => ssl_return "write to" sock w ret (SSL_get_error f)
      end
  | None =>
      let '(r, w) := sys_write w in
      match r with
      | WriteFail e =>
          if negb (would_block e) then
            (-1, socket_fail sock (emit (Ev_error "Socket error: write to") w))
          else (0, emit (Ev_conf_fd (fd sock) POLLIN POLLOUT) w)
      | WriteCount k =>
          let d := firstn (Z.to_nat k) buf in
          let n := len_of d in
          let w := emit (Ev_sent d) w in
          if negb (n =? len) then (n, emit (Ev_conf_fd (fd sock) POLLIN POLLOUT) w)
          else (n, w)
      end
  end.

Inductive deflated :=
| Deflated (z : z_stream) (outbuf : list ascii)   (* to_write is the length of outbuf *)
| DeflateFailed (z : z_stream)
| DeflateNoMem.

(** The do-while loop of [do_write]: [outbuf] holds the [progress] bytes
    produced so far and has room for [outlen].  [outlen] starts at 32 and
    doubles; 25 rounds take it to the last size an [int] can double, and a
    buffer beyond that is one nfrealloc cannot provide.  nfrealloc, which
    is not part of the module, does not return then; the model ends the
    call with an error message and -1. *)
Fixpoint deflate_loop (fuel : nat) (z : z_stream) (outbuf : list ascii) (outlen : Z)
  : deflated :=
  match fuel with
  | O => DeflateNoMem
  | S fuel' =>
      let progress := len_of outbuf in
      let avail := Z.to_nat (outlen - progress) in
      let '(rc, z, out) := deflate z avail in
      let out := firstn avail out in
      if negb (rc =? Z_OK) then DeflateFailed z
      else
        let avail_out := Z.of_nat avail - len_of out in
        let outbuf := outbuf ++ out in
        if avail_out =? 0 then deflate_loop fuel' z outbuf (outlen * 2)
        else Deflated z outbuf
  end.

(** [do_write] from the point where the input is handed to the codec. *)
Definition do_write_deflate (sock : conn_t) (w : world) (buf : list ascii)
  (z : z_stream) : Z * conn_t * world :=
  let len := len_of buf in
  let z := {| next_in := buf; z_state := z_state z |} in
  match deflate_loop 25 z [] 32 with
  | DeflateNoMem => (-1, sock, emit (Ev_error "Fatal: Out of memory") w)
  | DeflateFailed z =>
      let sock := set_z sock (in_z sock) (Some z) in
      (-1, sock, socket_fail sock (emit (Ev_error "Outbound compression error") w))
  | Deflated z outbuf =>
      let sock := set_z sock (in_z sock) (Some z) in
      let to_write := len_of outbuf in
      let '(result, w) := do_write_inner sock w outbuf in
      if (0 <? result) && (result <? to_write) then
        (len, set_in_z_leftover sock (skipn (Z.to_nat result) outbuf), w)
      else                                (* free( outbuf ) *)
        if result <? 0 then (result, sock, w) else (len, sock, w)
  end.

Definition do_write (sock : conn_t) (w : world) (buf : list ascii)
  : Z * conn_t * world :=
  match out_z sock with
  | None => let '(n, w) := do_write_inner sock w buf in (n, sock, w)
  | Some z =>
      if negb (in_z_leftover_len sock =? 0) then
        let '(result, w) := do_write_inner sock w (in_z_leftover sock) in
        if result <? 0 then (result, sock, w)
        else if result <? in_z_leftover_len sock then
          (0, set_in_z_leftover sock (skipn (Z.to_nat result) (in_z_leftover sock)), w)
        else do_write_deflate sock w buf z
      else do_write_deflate sock w buf z
  end.

Definition dispose_chunk (conn : conn_t) : conn_t :=
  set_write_buf conn (tl (write_buf conn)).

(** The while loop of [do_queued_write] over the chunks from [q] on; the
    first component is the value of an early return. *)
Fixpoint queued_write_loop (q : list buff_chunk_t) (conn : conn_t) (w : world)
  : option Z * conn_t * world :=
  match q with
  | [] => (None, conn, w)
  | bc :: rest =>
      let len := bc_len bc - write_offset conn in
      let '(n, conn, w) :=
        do_write conn w (skipn (Z.to_nat (write_offset conn)) (bc_data bc)) in
      if n <? 0 then (Some (-1), conn, w)
      else if negb (n =? len) then
        (Some 0, set_write_offset conn (write_offset conn + n), w)
      else queued_write_loop rest (dispose_chunk (set_write_offset conn 0)) w
  end.

Definition do_queued_write (conn : conn_t) (w : world) : Z * conn_t * world :=
  match write_buf conn with
  | [] => (0, conn, w)
  | _ :: _ =>
      match queued_write_loop (write_buf conn) conn w with
      | (Some r, conn, w) => (r, conn, w)
      | (None, conn, w) =>
          let w := match ssl conn with
                   | Some _ =>
                       if negb (ssl_pending w =? 0)
                       then emit (Ev_fake_fd (fd conn) POLLIN) w
                       else w
                   | None => w
                   end in
          (write_callback_ret w, conn, emit Cb_write w)
      end
  end.

Definition do_append (conn : conn_t) (buf : list ascii) (takeOwn : ownership_t)
  : conn_t :=
  set_write_buf conn (write_buf conn ++ [{| bc_data := buf; bc_own := takeOwn |}]).

Definition socket_write (conn : conn_t) (w : world) (buf : list ascii)
  (takeOwn : ownership_t) : Z * conn_t * world :=
  let len := len_of buf in
  match write_buf conn with
  | _ :: _ => (len, do_append conn buf takeOwn, w)
  | [] =>
      let '(n, conn, w) := do_write conn w buf in
      if negb (n =? len) && (0 <=? n) then
        (n, do_append (set_write_offset conn n) buf takeOwn, w)
      else (n, conn, w)                   (* free( buf ) if takeOwn *)
  end.

(** *** Connecting *)

Inductive outcome :=
| Exited (code : Z) (w : world)         (* exit( code ) *)
| Running (conn : conn_t) (w : world).

Definition socket_close_internal (sock : conn_t) (w : world) : conn_t * world :=
  (set_fd sock (-1), emit (Ev_close (fd sock)) (emit (Ev_del_fd (fd sock)) w)).

Definition socket_connected (conn : conn_t) (w : world) : conn_t * world :=
  (set_state conn SCK_READY,
   emit (Cb_connect 1) (emit (Ev_conf_fd (fd conn) 0 POLLIN) w)).

Definition socket_connect_bail (conn : conn_t) (w : world) : conn_t * world :=
  (conn, emit (Cb_connect 0) w).

Definition in_progress (e : errno_t) : bool :=
  match e with EINPROGRESS => true | _ => false end.

(** [socket_connect_one] with the cursor at [addrs]; the call of
    [socket_connect_failed], which calls back into [socket_connect_one], is
    unfolded in place. *)
Fixpoint connect_from (addrs : list addrinfo) (sock : conn_t) (w : world) : outcome :=
  match addrs with
  | [] =>
      let w := emit (Ev_error "No working address found") w in
      let '(sock, w) := socket_connect_bail sock w in
      Running sock w
  | ai :: ai_next =>
      let s := ai_socket ai in
      if s <? 0 then Exited 1 (emit (Ev_error "socket") w)
      else
        let sock := set_fd sock s in
        let w := emit (Ev_add_fd s) w in
        match ai_connect ai with
        | ConnectFail e =>
            if negb (in_progress e) then
              let w := emit (Ev_error "Cannot connect to") w in
              let '(sock, w) := socket_close_internal sock w in
              connect_from ai_next (set_curr_addr sock ai_next) w
            else
              Running (set_state sock SCK_CONNECTING) (emit (Ev_conf_fd s 0 POLLOUT) w)
        | ConnectDone =>
            let '(sock, w) := socket_connected sock w in
            Running sock w
        end
  end.

Definition socket_connect_one (sock : conn_t) (w : world) : outcome :=
  connect_from (curr_addr sock) sock w.

Definition socket_connect_failed (conn : conn_t) (w : world) : outcome :=
  let w := emit (Ev_error "Cannot connect to") w in
  let '(conn, w) := socket_close_internal conn w in
  socket_connect_one (set_curr_addr conn (tl (curr_addr conn))) w.

(** [socket_connect]; [socketpair] is the descriptor a[1] when a tunnel can
    be set up, [getaddrinfo] the address list when the host resolves. *)
Definition socket_connect (sock : conn_t) (w : world)
  (socketpair : option Z) (getaddrinfo : option (list addrinfo)) : outcome :=
  match tunnel (conf sock) with
  | Some _ =>
      match socketpair with
      | None => Exited 1 (emit (Ev_error "socketpair") w)
      | Some a1 =>
          let sock := set_fd sock a1 in
          let w := emit (Ev_add_fd a1) w in
          let '(sock, w) := socket_connected sock w in
          Running sock w
      end
  | None =>
      match getaddrinfo with
      | None =>
          let w := emit (Ev_error "Error: Cannot resolve server") w in
          let '(sock, w) := socket_connect_bail sock w in
          Running sock w
      | Some addrs => socket_connect_one (set_curr_addr sock addrs) w
      end
  end.

Definition socket_close (sock : conn_t) (w : world) : conn_t * world :=
  let '(sock, w) := if 0 <=? fd sock then socket_close_internal sock w else (sock, w) in
  (set_write_buf (set_ssl sock None) [], w).

(** *** Dispatch of readiness events *)

Definition has_event (events flag : Z) : bool := negb (Z.land events flag =? 0).

(** [socket_fd_cb]; [so_error] is what getsockopt( SO_ERROR ) gives if it
    is called, None when the call itself fails. *)
Definition socket_fd_cb (events : Z) (so_error : option Z) (conn : conn_t) (w : world)
  : outcome :=
  if has_event events POLLERR || sck_state_eqb (state conn) SCK_CONNECTING then
    match so_error with
    | None => Exited 1 (emit (Ev_error "getsockopt") w)
    | Some soerr =>
        if sck_state_eqb (state conn) SCK_CONNECTING then
          if negb (soerr =? 0) then socket_connect_failed conn w
          else let '(conn, w) := socket_connected conn w in Running conn w
        else
          Running conn (socket_fail conn (emit (Ev_error "Socket error from") w))
    end
  else
    let w := if has_event events POLLOUT
             then emit (Ev_conf_fd (fd conn) POLLIN 0) w else w in
    if sck_state_eqb (state conn) SCK_STARTTLS then
      let '(conn, w) := start_tls_p2 conn w in Running conn w
    else
      match ssl conn with
      | Some _ =>
          let '(r, conn, w) := do_queued_write conn w in
          if r <? 0 then Running conn w
          else let '(conn, w) := socket_fill conn w in Running conn w
      | None =>
          let '(r, conn, w) :=
            if has_event events POLLOUT then do_queued_write conn w else (0, conn, w) in
          if has_event events POLLOUT && (r <? 0) then Running conn w
          else if has_event events POLLIN
               then let '(conn, w) := socket_fill conn w in Running conn w
               else Running conn w
      end.

(** *** Drivers: the callers of the module, as far as the results need them *)

(** The event loop while a connect is in progress: it reports the
    descriptor writable once the kernel has finished the attempt on the
    current address. *)
Fixpoint await_connect (fuel : nat) (o : outcome) : outcome :=
  match fuel, o with
  | S fuel', Running conn w =>
      if sck_state_eqb (state conn) SCK_CONNECTING && (0 <=? fd conn) then
        match curr_addr conn with
        | ai :: _ => await_connect fuel' (socket_fd_cb POLLOUT (ai_so_error ai) conn w)
        | [] => o
        end
      else o
  | _, _ => o
  end.

(** A caller's use of the write side: writes and writable-readiness drains
    in any order. *)
Inductive write_op :=
| Op_write (buf : list ascii) (takeOwn : ownership_t)
| Op_drain.

Fixpoint run_write_ops (ops : list write_op) (conn : conn_t) (w : world)
  : conn_t * world :=
  match ops with
  | [] => (conn, w)
  | Op_write buf takeOwn :: ops' =>
      let '(_, conn, w) := socket_write conn w buf takeOwn in
      run_write_ops ops' conn w
  | Op_drain :: ops' =>
      let '(_, conn, w) := do_queued_write conn w in
      run_write_ops ops' conn w
  end.

Fixpoint payloads (ops : list write_op) : list ascii :=
  match ops with
  | [] => []
  | Op_write buf _ :: ops' => buf ++ payloads ops'
  | Op_drain :: ops' => payloads ops'
  end.

(** The bytes of the queue that the transport has not taken yet. *)
Definition queued_bytes (conn : conn_t) : list ascii :=
  skipn (Z.to_nat (write_offset conn)) (List.concat (map bc_data (write_buf conn))).

End Connection.

(** ** A codec to run the model on

    Where a result is evaluated on concrete data, zlib is replaced by a
    codec that emits each input as one stored block followed by the empty
    stored block of a sync flush, and that keeps in its state the output
    which did not fit yet. *)
Module Stored.

Definition byte_of (n : Z) : ascii := ascii_of_nat (Z.to_nat (n mod 256)).

Definition stored_block (data : list ascii) : list ascii :=
  let len := len_of data in
  [byte_of 0; byte_of len; byte_of (len / 256);
   byte_of (65535 - len); byte_of ((65535 - len) / 256)] ++ data.

Definition sync_marker : list ascii :=
  [byte_of 0; byte_of 0; byte_of 0; byte_of 255; byte_of 255].

Definition deflate (z : z_stream (internal_state := list ascii)) (avail_out : nat)
  : Z * z_stream * list ascii :=
  let pending :=
    z_state z ++ match next_in z with
                 | [] => []
                 | data => stored_block data ++ sync_marker
                 end in
  (Z_OK, {| next_in := []; z_state := skipn avail_out pending |},
   firstn avail_out pending).

Definition init : Z * z_stream (internal_state := list ascii) :=
  (Z_OK, {| next_in := []; z_state := [] |}).

Definition no_world : world :=
  {| sys_reads := []; sys_writes := []; ssl_reads := []; ssl_writes := [];
     ssl_connects := []; ssl_pending := 0; write_callback_ret := 0; trace := [] |}.

Definition no_conf : server_conf_t :=
  {| host := Some "mail.example.com"%string; port := 993; tunnel := None;
     cert_store := []; num_trusted := 0 |}.

(** A connection as socket_init leaves it, with a read buffer of [size]
    bytes. *)
Definition fresh (size : nat) : conn_t (internal_state := list ascii) :=
  {| conf := no_conf; fd := -1; state := SCK_CONNECTING; ssl := None;
     in_z := None; out_z := None; in_z_leftover := []; curr_addr := [];
     buf := repeat NUL size; offset := 0; bytes := 0; scanoff := 0;
     write_buf := []; write_offset := 0 |}.

Definition world_of (reads : list read_result) (writes : list write_result)
  (tls_reads : list ssl_read_result) (tls_writes : list ssl_write_result)
  (pending : Z) : world :=
  {| sys_reads := reads; sys_writes := writes; ssl_reads := tls_reads;
     ssl_writes := tls_writes; ssl_connects := []; ssl_pending := pending;
     write_callback_ret := 0; trace := [] |}.

Definition bytes_of (s : string) : list ascii := list_ascii_of_string s.

Definition tls_session : SSL :=
  {| peer_certificate := None; verify_result := X509_V_OK;
     chain_lookup := fun store => store |}.

(** A connection with compression switched on. *)
Definition deflating (size : nat) : conn_t (internal_state := list ascii) :=
  fst (socket_start_deflate init init (fresh size) no_world).

(** Three candidate addresses: the first is refused at once, the second
    after EINPROGRESS, the third completes after EINPROGRESS. *)
Definition refused_now : addrinfo :=
  {| ai_family := 2; ai_socket := 5; ai_connect := ConnectFail (EOTHER 111);
     ai_so_error := None |}.

Definition refused_later : addrinfo :=
  {| ai_family := 2; ai_socket := 5; ai_connect := ConnectFail EINPROGRESS;
     ai_so_error := Some 111 |}.

Definition accepted_later : addrinfo :=
  {| ai_family := 10; ai_socket := 6; ai_connect := ConnectFail EINPROGRESS;
     ai_so_error := Some 0 |}.

End Stored.

(** ** Notions used to state the results *)

(** A name usable for matching: the C string at [data] is all of it. *)
Definition nul_free (data : string) : Prop := strlen data = String.length data.

(** Some DNS subjectAltName without embedded NUL matches [h]. *)
Definition san_matches (cert : X509) (h : string) : Prop :=
  exists names n,
    subject_alt_names cert = Some names /\ In n names /\
    gn_type n = GEN_DNS /\ nul_free (ia5_data n) /\ host_matches h (ia5_data n) = 1.

(** The common name, as copied into the 1000-byte buffer, has no embedded
    NUL and matches [h]. *)
Definition cn_matches (cert : X509) (h : string) : Prop :=
  exists cn,
    subject_name cert = Some (Some cn) /\
    nul_free (String.substring 0 999 cn) /\
    host_matches h (String.substring 0 999 cn) = 1.

Definition explicitly_trusted (conf : server_conf_t) (cert : X509) : Prop :=
  exists t, In t (firstn (num_trusted conf) (cert_store conf)) /\ X509_cmp cert t = 0.

(** No write the transport is asked for ends in a fatal error: each one
    takes some bytes, possibly none, or would block. *)
Definition sys_write_benign (r : write_result) : bool :=
  match r with
  | WriteCount _ => true
  | WriteFail e => would_block e
  end.

Definition ssl_write_benign (r : ssl_write_result) : bool :=
  match r with
  | SslWrote _ => true
  | SslWriteFail _ Want_read | SslWriteFail _ Want_write => true
  | SslWriteFail _ _ => false
  end.

Definition write_fatal_free (w : world) : bool :=
  forallb sys_write_benign (sys_writes w) && forallb ssl_write_benign (ssl_writes w).

(** The write offset lies inside the head chunk, and is 0 without one. *)
Definition write_queue_ok {internal_state : Type} (conn : conn_t (internal_state := internal_state))
  : Prop :=
  match write_buf conn with
  | [] => write_offset conn = 0
  | bc :: _ => 0 <= write_offset conn <= bc_len bc
  end.

(** The attempt on an address ends in an established connection: at once,
    or after EINPROGRESS when SO_ERROR then reads 0. *)
Definition attempt_ok (ai : addrinfo) : bool :=
  match ai_connect ai with
  | ConnectDone => true
  | ConnectFail e =>
      in_progress e && match ai_so_error ai with
                       | Some soerr => soerr =? 0
                       | None => false
                       end
  end.

(** The attempt on an address does not end the process: socket() yields a
    descriptor, and getsockopt() works if it comes to be called. *)
Definition attempt_runs (ai : addrinfo) : bool :=
  (0 <=? ai_socket ai) &&
  match ai_connect ai with
  | ConnectDone => true
  | ConnectFail e =>
      negb (in_progress e) || match ai_so_error ai with
                              | Some _ => true
                              | None => false
                              end
  end.


(** ** Building the TLS context (init_ssl_ctx, socket_start_tls) *)

(** The protocol-version bits of the configuration and the option bits of
    OpenSSL, both from headers outside the module; an option bit that the
    headers of OpenSSL do not define is 0. *)
Record tls_flags := {
  SSLv2 : Z; SSLv3 : Z; TLSv1 : Z; TLSv1_1 : Z; TLSv1_2 : Z;
  SSL_OP_NO_SSLv2 : Z; SSL_OP_NO_SSLv3 : Z; SSL_OP_NO_TLSv1 : Z;
  SSL_OP_NO_TLSv1_1 : Z; SSL_OP_NO_TLSv1_2 : Z
}.

Record SSL_CTX := {
  ctx_options : Z                      (* SSL_CTX_set_options *)
}.

(** The fields of server_conf_t that only the context set-up uses; the
    certificate store of the context and [num_trusted] are the fields
    [cert_store] and [num_trusted] of [server_conf_t]. *)
Record ssl_conf_t := {
  ssl_versions : Z;
  cert_file : option string;
  system_certs : Z;
  SSLContext : option SSL_CTX;
  ssl_ctx_valid : Z
}.

(** What the two loaders of OpenSSL answer: the return value and the
    objects of the store afterwards. *)
Record cert_loaders := {
  SSL_CTX_load_verify_locations : string -> Z * list X509;
  SSL_CTX_set_default_verify_paths : list X509 -> Z * list X509
}.

Definition set_context (tc : ssl_conf_t) (ctx : option SSL_CTX) (valid : Z)
  : ssl_conf_t :=
  {| ssl_versions := ssl_versions tc; cert_file := cert_file tc;
     system_certs := system_certs tc; SSLContext := ctx; ssl_ctx_valid := valid |}.

(** [options |= flag] when the version bit is not among [ssl_versions]. *)
Definition disable_unless (versions bit flag options : Z) : Z :=
  if Z.land versions bit =? 0 then Z.lor options flag else options.

Definition init_ssl_ctx (k : tls_flags) (ld : cert_loaders)
  (conf : server_conf_t) (tc : ssl_conf_t) (w : world)
  : Z * server_conf_t * ssl_conf_t * world :=
  match SSLContext tc with
  | Some _ => (ssl_ctx_valid tc, conf, tc, w)
  | None =>
      let options := 0 in
      let options := disable_unless (ssl_versions tc) (SSLv2 k) (SSL_OP_NO_SSLv2 k) options in
      let options := disable_unless (ssl_versions tc) (SSLv3 k) (SSL_OP_NO_SSLv3 k) options in
      let options := disable_unless (ssl_versions tc) (TLSv1 k) (SSL_OP_NO_TLSv1 k) options in
      let options := disable_unless (ssl_versions tc) (TLSv1_1 k) (SSL_OP_NO_TLSv1_1 k) options in
      let options := disable_unless (ssl_versions tc) (TLSv1_2 k) (SSL_OP_NO_TLSv1_2 k) options in
      (* SSL_CTX_new: a context with an empty store *)
      let tc := set_context tc (Some {| ctx_options := options |}) (ssl_ctx_valid tc) in
      let conf := set_store conf [] (num_trusted conf) in
      let loaded :=
        match cert_file tc with
        | Some file => SSL_CTX_load_verify_locations ld file
        | None => (1, cert_store conf)
        end in
      let conf := set_store conf (snd loaded) (num_trusted conf) in
      if fst loaded =? 0 then
        (0, conf, tc, emit (Ev_error "Error while loading certificate file") w)
      else
        let conf := set_store conf (cert_store conf) (List.length (cert_store conf)) in
        let '(conf, w) :=
          if negb (system_certs tc =? 0) then
            let defaults := SSL_CTX_set_default_verify_paths ld (cert_store conf) in
            (set_store conf (snd defaults) (num_trusted conf),
             if fst defaults =? 0
             then emit (Ev_error "Warning: Unable to load default certificate files") w
             else w)
          else (conf, w) in
        (* SSL_CTX_set_verify( SSL_VERIFY_NONE ) *)
        (1, conf, set_context tc (SSLContext tc) 1, w)
  end.

(** [socket_start_tls]; [session] is the handle SSL_new returns, carrying
    what the handshake on it will establish.  The one-time
    SSL_library_init has no effect that the model records.  The
    configuration is shared: the connection sees what [init_ssl_ctx] stored
    in it. *)
Definition socket_start_tls {internal_state : Type} (k : tls_flags)
  (ld : cert_loaders) (session : SSL)
  (conn : conn_t (internal_state := internal_state)) (tc : ssl_conf_t) (w : world)
  : conn_t (internal_state := internal_state) * ssl_conf_t * world :=
  let '(ok, conf', tc, w) := init_ssl_ctx k ld (conf conn) tc w in
  let conn := set_conf conn conf' in
  if ok =? 0 then
    let '(conn, w) := start_tls_p3 conn w 0 in (conn, tc, w)
  else
    let conn := set_state (set_ssl conn (Some session)) SCK_STARTTLS in
    let '(conn, w) := start_tls_p2 conn w in (conn, tc, w).

(** ** More notions used to state results *)

(** The calls of the write-ready callback in a trace. *)
Fixpoint write_callbacks (t : list event) : nat :=
  match t with
  | [] => O
  | Cb_write :: t' => S (write_callbacks t')
  | _ :: t' => write_callbacks t'
  end.

(** The calls of the fatal-failure callback in a trace. *)
Fixpoint bad_callbacks (t : list event) : nat :=
  match t with
  | [] => O
  | Cb_bad :: t' => S (bad_callbacks t')
  | _ :: t' => bad_callbacks t'
  end.

(** The TLS-completed callbacks of a trace, in order. *)
Fixpoint starttls_callbacks (t : list event) : list Z :=
  match t with
  | [] => []
  | Cb_starttls ok :: t' => ok :: starttls_callbacks t'
  | _ :: t' => starttls_callbacks t'
  end.

(** What belongs to the data path: bytes sent and the two data callbacks. *)
Definition is_data_event (e : event) : bool :=
  match e with
  | Ev_sent _ | Cb_read | Cb_write => true
  | _ => false
  end.

Definition data_events (t : list event) : list event := filter is_data_event t.

(** From [w] to [w'] nothing happened on the data path: no bytes were
    sent, no data callback was called, no answer of the transport to a
    read or a write was used up. *)
Definition data_path_untouched (w w' : world) : Prop :=
  data_events (trace w') = data_events (trace w) /\
  sys_reads w' = sys_reads w /\ sys_writes w' = sys_writes w /\
  ssl_reads w' = ssl_reads w /\ ssl_writes w' = ssl_writes w.

Definition outcome_world {internal_state : Type}
  (o : outcome (internal_state := internal_state)) : world :=
  match o with
  | Exited _ w => w
  | Running _ w => w
  end.

(** The attempt on an address fails at once: socket() yields a descriptor
    and connect() fails with an error other than EINPROGRESS. *)
Definition fails_at_once (ai : addrinfo) : bool :=
  (0 <=? ai_socket ai) &&
  match ai_connect ai with
  | ConnectDone => false
  | ConnectFail e => negb (in_progress e)
  end.

(** The callbacks of a trace, in order. *)
Definition is_callback (e : event) : bool :=
  match e with
  | Cb_bad | Cb_read | Cb_write | Cb_connect _ | Cb_starttls _ => true
  | _ => false
  end.

Definition callbacks (t : list event) : list event := filter is_callback t.

(** The candidates that come to be tried: those up to and including the
    first whose attempt ends in an established connection. *)
Fixpoint tried (addrs : list addrinfo) : list addrinfo :=
  match addrs with
  | [] => []
  | ai :: rest => if attempt_ok ai then [ai] else ai :: tried rest
  end.

(** The unconsumed bytes of the read buffer. *)
Definition unconsumed {internal_state : Type}
  (c : conn_t (internal_state := internal_state)) : list ascii :=
  sub_buf (buf c) (offset c) (bytes c).

(** The read side is in order: offset and count are not negative, the
    unconsumed bytes lie inside the buffer, and the buffer has its size. *)
Definition read_buffer_ok {internal_state : Type} (buf_size : Z)
  (c : conn_t (internal_state := internal_state)) : Prop :=
  len_of (buf c) = buf_size /\ 0 <= offset c /\ 0 <= bytes c /\
  offset c + bytes c <= buf_size.

Definition LF : ascii := "010"%char.
Definition CR : ascii := "013"%char.

(** A line without the carriage return before its terminator, if any. *)
Definition chomp_cr (line : list ascii) : list ascii :=
  match rev line with
  | c :: r => if Ascii.eqb c CR then rev r else line
  | [] => line
  end.

(** Data for evaluating the results. *)
Module Samples.

(** The version bits of mbsync and the option bits of OpenSSL 1.0. *)
Definition flags : tls_flags :=
  {| SSLv2 := 1; SSLv3 := 2; TLSv1 := 4; TLSv1_1 := 8; TLSv1_2 := 16;
     SSL_OP_NO_SSLv2 := 16777216; SSL_OP_NO_SSLv3 := 33554432;
     SSL_OP_NO_TLSv1 := 67108864; SSL_OP_NO_TLSv1_1 := 268435456;
     SSL_OP_NO_TLSv1_2 := 134217728 |}.

Definition some_cert (n : Z) : X509 :=
  {| x509_digest := n; subject_alt_names := None; subject_name := None |}.

(** A certificate file that cannot be read, and default paths that hold
    two certificates. *)
Definition broken_file : cert_loaders :=
  {| SSL_CTX_load_verify_locations := fun _ => (0, []);
     SSL_CTX_set_default_verify_paths := fun store => (1, store ++ [some_cert 1; some_cert 2]) |}.

(** A certificate file with one certificate. *)
Definition one_cert_file : cert_loaders :=
  {| SSL_CTX_load_verify_locations := fun _ => (1, [some_cert 9]);
     SSL_CTX_set_default_verify_paths := fun store => (1, store ++ [some_cert 1; some_cert 2]) |}.

Definition tls_conf (file : option string) : ssl_conf_t :=
  {| ssl_versions := 28; cert_file := file; system_certs := 1;
     SSLContext := None; ssl_ctx_valid := 0 |}.

(** A certificate for mail.example.com, and a session whose peer presented
    it and whose chain OpenSSL verified. *)
Definition named_cert : X509 :=
  {| x509_digest := 77;
     subject_alt_names := Some [{| gn_type := GEN_DNS; ia5_data := "mail.example.com" |}];
     subject_name := None |}.

Definition verified_session : SSL :=
  {| peer_certificate := Some named_cert; verify_result := X509_V_OK;
     chain_lookup := fun store => store |}.

(** A certificate whose names are not those of the host, as one puts into
    a certificate file to trust it by identity, and a loader whose
    certificate file holds it. *)
Definition pinned_cert : X509 :=
  {| x509_digest := 9; subject_alt_names := None;
     subject_name := Some (Some "imap.internal"%string) |}.

Definition pinned_file : cert_loaders :=
  {| SSL_CTX_load_verify_locations := fun _ => (1, [pinned_cert]);
     SSL_CTX_set_default_verify_paths := fun store => (1, store ++ [some_cert 1; some_cert 2]) |}.

(** A store kept sorted, here by the value that X509_cmp compares. *)
Fixpoint insert_sorted (c : X509) (store : list X509) : list X509 :=
  match store with
  | [] => [c]
  | t :: rest => if x509_digest c <=? x509_digest t then c :: store
                 else t :: insert_sorted c rest
  end.

Definition sorted_store (store : list X509) : list X509 :=
  fold_right insert_sorted [] store.

(** A session whose peer presented [pinned_cert]; the chain is verified
    against the store, which holds that certificate, and the lookups leave
    the store sorted. *)
Definition pinned_session : SSL :=
  {| peer_certificate := Some pinned_cert; verify_result := X509_V_OK;
     chain_lookup := sorted_store |}.

(** An address for which socket() fails. *)
Definition no_descriptor : addrinfo :=
  {| ai_family := 10; ai_socket := -1; ai_connect := ConnectDone; ai_so_error := None |}.

(** A connected plain connection on descriptor 7. *)
Definition ready (size : nat) : conn_t (internal_state := list ascii) :=
  set_fd (set_state (Stored.fresh size) SCK_READY) 7.

(** Such a connection with [data] unconsumed at [off], scanned up to
    [scanned]. *)
Definition holding (size : nat) (off : Z) (data : list ascii) (scanned : Z)
  : conn_t (internal_state := list ascii) :=
  set_rd (ready size) (poke (repeat NUL size) off data) off (len_of data) scanned.

Definition chunk (s : string) : buff_chunk_t :=
  {| bc_data := Stored.bytes_of s; bc_own := GiveOwn |}.

(** Such a connection with chunks queued, the first one written up to
    [off]. *)
Definition queueing (chunks : list buff_chunk_t) (off : Z)
  : conn_t (internal_state := list ascii) :=
  set_write_offset (set_write_buf (ready 16) chunks) off.

(** A connected plain connection with compression switched on. *)
Definition compressing (size : nat) : conn_t (internal_state := list ascii) :=
  set_fd (set_state (Stored.deflating size) SCK_READY) 7.

(** The surroundings when the next SSL_connect completes the handshake. *)
Definition handshake_done : world :=
  {| sys_reads := []; sys_writes := []; ssl_reads := []; ssl_writes := [];
     ssl_connects := [SslConnected]; ssl_pending := 0; write_callback_ret := 0;
     trace := [] |}.

(** A compressing connection that holds compressed output not yet sent. *)
Definition with_leftover (s : string) : conn_t (internal_state := list ascii) :=
  set_in_z_leftover (set_fd (set_state (Stored.deflating 16) SCK_READY) 7)
    (Stored.bytes_of s).

End Samples.

(** * Properties *)

Local Open Scope string_scope.

(** ** Characters and C strings *)

Lemma tolower_NUL (c : ascii) : tolower c = NUL <-> c = NUL.
Proof.
  destruct c as [b0 b1 b2 b3 b4 b5 b6 b7].
  destruct b0, b1, b2, b3, b4, b5, b6, b7; vm_compute; split; congruence.
Qed.

Lemma char_code_inj (a b : ascii) : char_code a - char_code b = 0 -> a = b.
Proof.
  unfold char_code. intros H.
  assert (E : nat_of_ascii a = nat_of_ascii b) by lia.
  rewrite <- (ascii_nat_embedding a), <- (ascii_nat_embedding b), E.
  reflexivity.
Qed.

Lemma deref_NUL (s : string) : is_cstring s = true -> (deref s = NUL <-> s = "").
Proof.
  destruct s as [|c s]; simpl.
  - intros _. split; reflexivity.
  - intros H. apply andb_prop in H as [H _].
    apply negb_true_iff, Ascii.eqb_neq in H.
    split; [intros K; contradiction | discriminate].
Qed.

Lemma is_cstring_cons (c : ascii) (s : string) :
  is_cstring (String c s) = true <-> c <> NUL /\ is_cstring s = true.
Proof.
  simpl. rewrite andb_true_iff, negb_true_iff, Ascii.eqb_neq. reflexivity.
Qed.

Lemma is_cstring_app (a b : string) :
  is_cstring (a ++ b) = true <-> is_cstring a = true /\ is_cstring b = true.
Proof.
  induction a as [|c a IH].
  - simpl. tauto.
  - change (String c a ++ b) with (String c (a ++ b)).
    rewrite !is_cstring_cons, IH. tauto.
Qed.

Lemma strcasecmp_step (x y : ascii) (a b : string) :
  x <> NUL ->
  strcasecmp (String x a) (String y b) =
  if Ascii.eqb (tolower x) (tolower y) then strcasecmp a b
  else char_code (tolower x) - char_code (tolower y).
Proof.
  intros Hx. cbn [strcasecmp deref].
  destruct (Ascii.eqb (tolower x) (tolower y)); [|reflexivity].
  destruct (Ascii.eqb (tolower x) NUL) eqn:E; [|reflexivity].
  apply Ascii.eqb_eq in E. apply (proj1 (tolower_NUL x)) in E. contradiction.
Qed.

(** On C strings [strcasecmp] is 0 exactly when the two strings are equal
    up to case. *)
Lemma strcasecmp_zero (a : string) : forall b : string,
  is_cstring a = true -> is_cstring b = true ->
  (strcasecmp a b = 0 <-> lower a = lower b).
Proof.
  induction a as [|x a IH]; intros [|y b] Ha Hb.
  - split; reflexivity.
  - apply is_cstring_cons in Hb as [Hy _].
    cbn [strcasecmp deref lower].
    destruct (Ascii.eqb (tolower NUL) (tolower y)) eqn:E.
    + apply Ascii.eqb_eq in E. symmetry in E.
      change (tolower NUL) with NUL in E. apply (proj1 (tolower_NUL y)) in E. contradiction.
    + split; [|discriminate]. intros H. apply char_code_inj in H.
      apply Ascii.eqb_neq in E. contradiction.
  - apply is_cstring_cons in Ha as [Hx _].
    cbn [strcasecmp deref lower].
    destruct (Ascii.eqb (tolower x) (tolower NUL)) eqn:E.
    + apply Ascii.eqb_eq in E.
      change (tolower NUL) with NUL in E. apply (proj1 (tolower_NUL x)) in E. contradiction.
    + split; [|discriminate]. intros H. apply char_code_inj in H.
      apply Ascii.eqb_neq in E. contradiction.
  - apply is_cstring_cons in Ha as [Hx Ha].
    apply is_cstring_cons in Hb as [Hy Hb].
    rewrite strcasecmp_step by assumption. cbn [lower].
    destruct (Ascii.eqb (tolower x) (tolower y)) eqn:E.
    + apply Ascii.eqb_eq in E. rewrite (IH b Ha Hb), E.
      split; [intros ->; reflexivity | intros H; injection H; auto].
    + apply Ascii.eqb_neq in E. split.
      * intros H. apply char_code_inj in H. contradiction.
      * intros H. injection H as H _. contradiction.
Qed.

(** [strchr] finds the first occurrence, and the text before it is free of
    the character. *)
Lemma strchr_some (c : ascii) (s : string) : forall r : string,
  strchr s c = Some r ->
  exists pre, s = pre ++ r /\ has_char c pre = false /\ deref r = c.
Proof.
  induction s as [|x s IH]; intros r H; cbn [strchr] in H.
  - destruct (Ascii.eqb c NUL) eqn:E; [|discriminate].
    injection H as <-. exists "". apply Ascii.eqb_eq in E. subst c.
    repeat split.
  - destruct (Ascii.eqb x c) eqn:E.
    + injection H as <-. exists "". apply Ascii.eqb_eq in E.
      repeat split. exact E.
    + destruct (Ascii.eqb x NUL); [discriminate|].
      destruct (IH r H) as (pre & -> & Hpre & Hr).
      exists (String x pre). repeat split; [|exact Hr].
      cbn [has_char]. rewrite E, Hpre. reflexivity.
Qed.

Lemma strchr_split (c : ascii) (pre suf : string) :
  is_cstring pre = true -> has_char c pre = false ->
  strchr (pre ++ String c suf) c = Some (String c suf).
Proof.
  induction pre as [|x pre IH]; intros Hc Hn.
  - cbn [append strchr]. rewrite Ascii.eqb_refl. reflexivity.
  - apply is_cstring_cons in Hc as [Hx Hc].
    cbn [has_char] in Hn. apply orb_false_iff in Hn as [Hxc Hn].
    change (String x pre ++ String c suf) with (String x (pre ++ String c suf)).
    cbn [strchr]. rewrite Hxc.
    apply Ascii.eqb_neq in Hx. rewrite Hx. apply IH; assumption.
Qed.

(** ** Hostname matching *)

(** The final test of [host_matches] on what is left of host and pattern. *)
Lemma host_tail_spec (h p : string) :
  is_cstring h = true -> is_cstring p = true ->
  (truth (negb (Ascii.eqb (deref h) NUL) && negb (Ascii.eqb (deref p) NUL)
          && (strcasecmp h p =? 0)%Z) = 1
   <-> h <> "" /\ p <> "" /\ lower h = lower p).
Proof.
  intros Hh Hp.
  pose proof (deref_NUL h Hh) as Dh. pose proof (deref_NUL p Hp) as Dp.
  pose proof (strcasecmp_zero h p Hh Hp) as Sc.
  destruct (Ascii.eqb (deref h) NUL) eqn:Eh;
    [apply Ascii.eqb_eq in Eh | apply Ascii.eqb_neq in Eh];
  destruct (Ascii.eqb (deref p) NUL) eqn:Ep;
    [apply Ascii.eqb_eq in Ep | apply Ascii.eqb_neq in Ep | apply Ascii.eqb_eq in Ep
    | apply Ascii.eqb_neq in Ep];
  cbn [negb andb truth].
  - split; [discriminate | intros (K & _); tauto].
  - split; [discriminate | intros (K & _); tauto].
  - split; [discriminate | intros (_ & K & _); tauto].
  - destruct (strcasecmp h p =? 0)%Z eqn:E; cbn [truth].
    + apply Z.eqb_eq in E. split; [|reflexivity]. intros _. tauto.
    + apply Z.eqb_neq in E. split; [discriminate|]. intros (_ & _ & K). tauto.
Qed.

Lemma host_matches_wildcard (host rest : string) :
  host_matches host ("*." ++ rest) =
  match strchr host "." with
  | None => 0
  | Some h =>
      truth (negb (Ascii.eqb (deref (ptr_add h 1)) NUL)
             && negb (Ascii.eqb (deref rest) NUL)
             && (strcasecmp (ptr_add h 1) rest =? 0)%Z)
  end.
Proof. reflexivity. Qed.

Lemma host_matches_plain (host pattern : string) :
  (forall rest, pattern <> "*." ++ rest) ->
  host_matches host pattern =
  truth (negb (Ascii.eqb (deref host) NUL) && negb (Ascii.eqb (deref pattern) NUL)
         && (strcasecmp host pattern =? 0)%Z).
Proof.
  intros H. unfold host_matches.
  destruct (Ascii.eqb (deref pattern) "*"
            && Ascii.eqb (deref (ptr_add pattern 1)) ".") eqn:E; [|reflexivity].
  apply andb_prop in E as [E1 E2].
  destruct pattern as [|a [|b r]]; cbn in E1, E2; try discriminate.
  apply Ascii.eqb_eq in E1, E2. subst a b. exfalso. apply (H r). reflexivity.
Qed.

Lemma truth_01 (b : bool) : truth b = 0 \/ truth b = 1.
Proof. destruct b; [right | left]; reflexivity. Qed.

Lemma host_matches_01 (host pattern : string) :
  host_matches host pattern = 0 \/ host_matches host pattern = 1.
Proof.
  unfold host_matches.
  destruct (Ascii.eqb (deref pattern) "*" && _).
  - destruct (strchr host "."); [apply truth_01 | left; reflexivity].
  - apply truth_01.
Qed.

Lemma host_matches_empty_pattern (host : string) : host_matches host "" = 0.
Proof.
  unfold host_matches. cbn [deref ptr_add].
  replace (Ascii.eqb NUL "*") with false by reflexivity. cbn [andb].
  replace (Ascii.eqb NUL NUL) with true by reflexivity.
  cbn [negb]. rewrite andb_false_r. reflexivity.
Qed.

Lemma host_matches_bare_wildcard (host : string) : host_matches host "*." = 0.
Proof.
  change "*." with ("*." ++ ""). rewrite host_matches_wildcard.
  destruct (strchr host "."); [|reflexivity].
  cbn [deref]. replace (Ascii.eqb NUL NUL) with true by reflexivity.
  cbn [negb]. rewrite andb_false_r. reflexivity.
Qed.

Lemma host_matches_empty_host (pattern : string) : host_matches "" pattern = 0.
Proof.
  unfold host_matches.
  destruct (Ascii.eqb (deref pattern) "*" && _); reflexivity.
Qed.

(** C3. For C strings [host] and [pattern]: a pattern "*." ++ rest matches
    exactly the hosts pre ++ "." ++ suf where pre has no dot (so the dot is
    the first one) and suf equals rest up to case, rest not being empty; any
    other pattern matches exactly the non-empty hosts equal to it up to
    case; an empty host, an empty pattern and the bare pattern "*." never
    match; the result is 0 or 1; and the three named examples evaluate as
    stated. *)
Theorem host_matches_rule (host pattern : string) :
  is_cstring host = true -> is_cstring pattern = true ->
  (forall rest, pattern = "*." ++ rest ->
     (host_matches host pattern = 1 <->
      rest <> "" /\
      exists pre suf, host = pre ++ "." ++ suf /\ has_char "." pre = false
                      /\ lower suf = lower rest))
  /\ ((forall rest, pattern <> "*." ++ rest) ->
      (host_matches host pattern = 1 <-> host <> "" /\ lower host = lower pattern))
  /\ (host = "" \/ pattern = "" \/ pattern = "*." -> host_matches host pattern = 0)
  /\ (host_matches host pattern = 0 \/ host_matches host pattern = 1)
  /\ host_matches "mail.example.com" "*.example.com" = 1
  /\ host_matches "example.com" "example.com" = 1
  /\ host_matches "sub.example.com" "example.com" = 0.
Proof.
  intros Hh Hp. repeat split; try reflexivity.
  - (* wildcard, left to right *)
    subst pattern. rewrite host_matches_wildcard in H0.
    destruct (strchr host ".") as [h|] eqn:E; [|discriminate].
    apply strchr_some in E as (pre & -> & Hpre & Hd).
    apply is_cstring_app in Hh as [_ Hh].
    destruct h as [|d suf]; [discriminate Hd|]. cbn in Hd. subst d.
    apply is_cstring_cons in Hh as [_ Hs].
    apply is_cstring_cons in Hp as [_ Hp]. apply is_cstring_cons in Hp as [_ Hp].
    cbn [ptr_add] in H0. apply (host_tail_spec suf rest Hs Hp) in H0.
    tauto.
  - subst pattern. rewrite host_matches_wildcard in H0.
    destruct (strchr host ".") as [h|] eqn:E; [|discriminate].
    apply strchr_some in E as (pre & -> & Hpre & Hd).
    apply is_cstring_app in Hh as [_ Hh].
    destruct h as [|d suf]; [discriminate Hd|]. cbn in Hd. subst d.
    apply is_cstring_cons in Hh as [_ Hs].
    apply is_cstring_cons in Hp as [_ Hp]. apply is_cstring_cons in Hp as [_ Hp].
    cbn [ptr_add] in H0. apply (host_tail_spec suf rest Hs Hp) in H0.
    exists pre, suf. tauto.
  - (* wildcard, right to left *)
    intros (Hr & pre & suf & -> & Hpre & Hl). subst pattern.
    rewrite host_matches_wildcard.
    apply is_cstring_app in Hh as [Hc Hs].
    change ("." ++ suf) with (String "." suf) in *.
    rewrite (strchr_split "." pre suf Hc Hpre). cbn [ptr_add].
    apply is_cstring_cons in Hs as [_ Hs].
    apply is_cstring_cons in Hp as [_ Hp]. apply is_cstring_cons in Hp as [_ Hp].
    apply (host_tail_spec suf rest Hs Hp). repeat split; [|assumption..].
    intros ->. destruct rest; [contradiction | discriminate].
  - rewrite (host_matches_plain host pattern H) in H0.
    apply (host_tail_spec host pattern Hh Hp) in H0. tauto.
  - rewrite (host_matches_plain host pattern H) in H0.
    apply (host_tail_spec host pattern Hh Hp) in H0. tauto.
  - intros (Hn & Hl). rewrite (host_matches_plain host pattern H).
    apply (host_tail_spec host pattern Hh Hp). repeat split; [assumption| |assumption].
    intros ->. destruct host; [contradiction | discriminate].
  - intros [-> | [-> | ->]].
    + apply host_matches_empty_host.
    + apply host_matches_empty_pattern.
    + apply host_matches_bare_wildcard.
  - apply host_matches_01.
Qed.

Local Close Scope string_scope.

(** ** Certificate verification *)

Lemma host_matches_nonzero (h p : string) :
  negb (host_matches h p =? 0) = true <-> host_matches h p = 1.
Proof.
  rewrite negb_true_iff, Z.eqb_neq.
  destruct (host_matches_01 h p) as [E | E]; rewrite E; split; intros; lia.
Qed.

Lemma gen_type_eqb_eq (a b : gen_type) : gen_type_eqb a b = true <-> a = b.
Proof. destruct a, b; simpl; split; intros; congruence. Qed.

Lemma san_found_spec (h : string) (names : list GENERAL_NAME) :
  san_found names h = true <->
  exists n, In n names /\ gn_type n = GEN_DNS /\ nul_free (ia5_data n)
            /\ host_matches h (ia5_data n) = 1.
Proof.
  induction names as [|a names IH]; cbn [san_found].
  - split; [discriminate | intros (n & [] & _)].
  - destruct (gen_type_eqb (gn_type a) GEN_DNS
              && (strlen (ia5_data a) =? ia5_length a)%nat
              && negb (host_matches h (ia5_data a) =? 0)) eqn:E.
    + split; [intros _ | reflexivity].
      apply andb_prop in E as [E E3]. apply andb_prop in E as [E1 E2].
      exists a. repeat split.
      * left. reflexivity.
      * apply gen_type_eqb_eq. exact E1.
      * apply Nat.eqb_eq. exact E2.
      * apply host_matches_nonzero. exact E3.
    + rewrite IH. split.
      * intros (n & Hin & Hn). exists n. split; [right; exact Hin | exact Hn].
      * intros (n & [-> | Hin] & Ht & Hl & Hm).
        -- apply gen_type_eqb_eq in Ht. apply Nat.eqb_eq in Hl.
           apply host_matches_nonzero in Hm.
           unfold ia5_length in E. rewrite Ht, Hl, Hm in E. discriminate.
        -- exists n. tauto.
Qed.

Lemma trusted_match_spec (cert : X509) (trusted : list X509) : forall n : nat,
  trusted_match cert trusted n = true <->
  exists t, In t (firstn n trusted) /\ X509_cmp cert t = 0.
Proof.
  induction trusted as [|a trusted IH]; intros [|n]; cbn [trusted_match firstn].
  - split; [discriminate | intros (t & [] & _)].
  - split; [discriminate | intros (t & [] & _)].
  - split; [discriminate | intros (t & [] & _)].
  - destruct (X509_cmp cert a =? 0) eqn:E.
    + apply Z.eqb_eq in E. split; [intros _ | reflexivity].
      exists a. split; [left; reflexivity | exact E].
    + apply Z.eqb_neq in E. rewrite IH. split.
      * intros (t & Hin & Ht). exists t. split; [right; exact Hin | exact Ht].
      * intros (t & [-> | Hin] & Ht); [contradiction|]. exists t. tauto.
Qed.

Lemma verify_hostname_spec (cert : X509) (h : string) :
  (verify_hostname cert h = 0 <-> san_matches cert h \/ cn_matches cert h)
  /\ (verify_hostname cert h = 0 \/ verify_hostname cert h = -1).
Proof.
  unfold verify_hostname, san_matches, cn_matches.
  destruct (subject_alt_names cert) as [names|] eqn:Es.
  - destruct (san_found names h) eqn:Ef.
    + split; [|left; reflexivity]. split; [intros _ | reflexivity].
      apply san_found_spec in Ef as (n & Hn). left. exists names, n. tauto.
    + assert (Hno : ~ exists names0 n, Some names = Some names0 /\ In n names0 /\
                gn_type n = GEN_DNS /\ nul_free (ia5_data n) /\
                host_matches h (ia5_data n) = 1).
      { intros (names0 & n & [= <-] & Hn).
        assert (K : san_found names h = true) by (apply san_found_spec; exists n; tauto).
        congruence. }
      destruct (subject_name cert) as [[cn|]|] eqn:En; cbn.
      * destruct ((Z.of_nat (strlen (substring 0 999 cn))
                   =? Z.of_nat (String.length (substring 0 999 cn)))
                  && negb (host_matches h (substring 0 999 cn) =? 0)) eqn:E.
        -- replace (Z.of_nat (String.length (substring 0 999 cn)) <? 0) with false
             by (symmetry; apply Z.ltb_ge; lia).
           split; [|left; reflexivity]. split; [intros _ | reflexivity].
           apply andb_prop in E as [E1 E2]. right. exists cn.
           apply Z.eqb_eq in E1. apply host_matches_nonzero in E2.
           unfold nul_free. repeat split; [lia | exact E2].
        -- replace (Z.of_nat (String.length (substring 0 999 cn)) <? 0) with false
             by (symmetry; apply Z.ltb_ge; lia).
           split; [|right; reflexivity]. split; [discriminate|].
           intros [K | (cn' & [= <-] & Hl & Hm)]; [contradiction|].
           unfold nul_free in Hl. apply host_matches_nonzero in Hm.
           rewrite Hl, Z.eqb_refl, Hm in E. discriminate.
      * split; [|right; reflexivity]. split; [discriminate|].
        intros [K | (cn' & [=] & _)]. contradiction.
      * split; [|right; reflexivity]. split; [discriminate|].
        intros [K | (cn' & [=] & _)]. contradiction.
  - assert (Hno : ~ exists names0 n, @None (list GENERAL_NAME) = Some names0 /\ In n names0 /\
              gn_type n = GEN_DNS /\ nul_free (ia5_data n) /\
              host_matches h (ia5_data n) = 1).
    { intros (names0 & n & [=] & _). }
    destruct (subject_name cert) as [[cn|]|] eqn:En; cbn.
    + destruct ((Z.of_nat (strlen (substring 0 999 cn))
                 =? Z.of_nat (String.length (substring 0 999 cn)))
                && negb (host_matches h (substring 0 999 cn) =? 0)) eqn:E.
      * replace (Z.of_nat (String.length (substring 0 999 cn)) <? 0) with false
          by (symmetry; apply Z.ltb_ge; lia).
        split; [|left; reflexivity]. split; [intros _ | reflexivity].
        apply andb_prop in E as [E1 E2]. right. exists cn.
        apply Z.eqb_eq in E1. apply host_matches_nonzero in E2.
        unfold nul_free. repeat split; [lia | exact E2].
      * replace (Z.of_nat (String.length (substring 0 999 cn)) <? 0) with false
          by (symmetry; apply Z.ltb_ge; lia).
        split; [|right; reflexivity]. split; [discriminate|].
        intros [K | (cn' & [= <-] & Hl & Hm)]; [contradiction|].
        unfold nul_free in Hl. apply host_matches_nonzero in Hm.
        rewrite Hl, Z.eqb_refl, Hm in E. discriminate.
    + split; [|right; reflexivity]. split; [discriminate|].
      intros [K | (cn' & [=] & _)]. contradiction.
    + split; [|right; reflexivity]. split; [discriminate|].
      intros [K | (cn' & [=] & _)]. contradiction.
Qed.

(** The identity check alone decides for a certificate that is among the
    first [num_trusted] objects of the store. *)
Lemma verify_cert_host_trusts (conf : server_conf_t) (ssl : SSL) (cert : X509) :
  peer_certificate ssl = Some cert -> explicitly_trusted conf cert ->
  verify_cert_host conf ssl = 0.
Proof.
  intros Hp Ht. unfold verify_cert_host. rewrite Hp.
  apply trusted_match_spec in Ht. rewrite Ht. reflexivity.
Qed.

(** Without it, the names decide. *)
Lemma verify_cert_host_refuses (conf : server_conf_t) (ssl : SSL) (cert : X509) :
  peer_certificate ssl = Some cert -> ~ explicitly_trusted conf cert ->
  (verify_result ssl = X509_V_OK ->
   forall h, host conf = Some h -> verify_hostname cert h <> 0) ->
  verify_cert_host conf ssl = -1.
Proof.
  intros Hp Ht Hn. unfold verify_cert_host. rewrite Hp.
  destruct (trusted_match cert (cert_store conf) (num_trusted conf)) eqn:Et.
  { exfalso. apply Ht. apply trusted_match_spec. exact Et. }
  destruct (verify_result ssl =? X509_V_OK) eqn:Ev; cbn [negb]; [|reflexivity].
  apply Z.eqb_eq in Ev.
  destruct (host conf) as [h|] eqn:Eh; [|reflexivity].
  destruct (proj2 (verify_hostname_spec cert h)) as [K | K]; [|exact K].
  contradiction (Hn Ev h eq_refl K).
Qed.

(** X26. [verify_cert_host] returns 0 exactly when there is a peer
    certificate and either it is X509-equal to one of the first
    [num_trusted] objects of the store as it stands at the call (whatever
    the verification result and the names), or the verification result is
    X509_V_OK, a host is configured and a DNS subjectAltName without
    embedded NUL matches it under [host_matches] or else the common name,
    as copied into the 1000-byte buffer and without embedded NUL, does; in
    every other case it returns -1. *)
Theorem verify_cert_host_spec (conf : server_conf_t) (ssl : SSL) :
  (verify_cert_host conf ssl = 0 <->
   exists cert, peer_certificate ssl = Some cert /\
     (explicitly_trusted conf cert \/
      (verify_result ssl = X509_V_OK /\
       exists h, host conf = Some h /\ (san_matches cert h \/ cn_matches cert h))))
  /\ (verify_cert_host conf ssl = 0 \/ verify_cert_host conf ssl = -1).
Proof.
  unfold verify_cert_host, explicitly_trusted.
  destruct (peer_certificate ssl) as [cert|].
  2:{ split; [|right; reflexivity]. split; [discriminate | intros (c & [=] & _)]. }
  destruct (trusted_match cert (cert_store conf) (num_trusted conf)) eqn:Et.
  { split; [|left; reflexivity]. split; [intros _ | reflexivity].
    exists cert. split; [reflexivity|]. left. apply trusted_match_spec. exact Et. }
  assert (Hnt : ~ exists t, In t (firstn (num_trusted conf) (cert_store conf))
                           /\ X509_cmp cert t = 0).
  { intros K. apply trusted_match_spec in K. congruence. }
  destruct (verify_result ssl =? X509_V_OK) eqn:Ev; cbn [negb].
  2:{ apply Z.eqb_neq in Ev. split; [|right; reflexivity].
      split; [discriminate|]. intros (c & [= <-] & [K | (K & _)]); contradiction. }
  apply Z.eqb_eq in Ev.
  destruct (host conf) as [h|].
  2:{ split; [|right; reflexivity]. split; [discriminate|].
      intros (c & [= <-] & [K | (_ & h & [=] & _)]). contradiction. }
  destruct (verify_hostname_spec cert h) as [Hv H01]. split; [|exact H01].
  rewrite Hv. split.
  - intros K. exists cert. split; [reflexivity|]. right. split; [exact Ev|].
    exists h. split; [reflexivity | exact K].
  - intros (c & [= <-] & [K | (_ & h' & [= <-] & K)]); [contradiction | exact K].
Qed.

(** ** Buffers and traces *)

Lemma len_of_nonneg (b : list ascii) : 0 <= len_of b.
Proof. unfold len_of. lia. Qed.

Lemma len_of_app (a b : list ascii) : len_of (a ++ b) = len_of a + len_of b.
Proof. unfold len_of. rewrite length_app. lia. Qed.

Lemma len_of_firstn (n : nat) (b : list ascii) :
  len_of (firstn n b) = Z.min (Z.of_nat n) (len_of b).
Proof. unfold len_of. rewrite length_firstn. lia. Qed.

Lemma firstn_len_of (n : nat) (b : list ascii) :
  len_of b <= Z.of_nat n -> firstn n b = b.
Proof. unfold len_of. intros H. apply firstn_all2. lia. Qed.

(** What was stored by [poke] is read back from the same place. *)
Lemma sub_buf_poke (b : list ascii) (n : Z) (d : list ascii) :
  0 <= n <= len_of b -> sub_buf (poke b n d) n (len_of d) = d.
Proof.
  unfold sub_buf, poke, len_of. intros H.
  rewrite skipn_app, length_firstn.
  replace (Z.to_nat n - Nat.min (Z.to_nat n) (List.length b))%nat with O by lia.
  rewrite (skipn_all2 (n := Z.to_nat n)) by (rewrite length_firstn; lia).
  cbn [skipn app]. rewrite Nat2Z.id, firstn_app, Nat.sub_diag, firstn_all.
  cbn [firstn]. apply app_nil_r.
Qed.

Lemma sent_bytes_app (t1 t2 : list event) :
  sent_bytes (t1 ++ t2) = sent_bytes t1 ++ sent_bytes t2.
Proof.
  induction t1 as [|e t1 IH]; [reflexivity|].
  destruct e; cbn [app sent_bytes]; rewrite IH; try reflexivity.
  apply app_assoc.
Qed.

Lemma connect_callbacks_app (t1 t2 : list event) :
  connect_callbacks (t1 ++ t2) = connect_callbacks t1 ++ connect_callbacks t2.
Proof.
  induction t1 as [|e t1 IH]; [reflexivity|].
  destruct e; cbn [app connect_callbacks]; rewrite IH; reflexivity.
Qed.

Lemma closed_fds_app (t1 t2 : list event) :
  closed_fds (t1 ++ t2) = closed_fds t1 ++ closed_fds t2.
Proof.
  induction t1 as [|e t1 IH]; [reflexivity|].
  destruct e; cbn [app closed_fds]; rewrite IH; reflexivity.
Qed.

Section ConnectionProperties.

Context {internal_state : Type}.
Variable deflate : z_stream (internal_state := internal_state) -> nat
                   -> Z * z_stream (internal_state := internal_state) * list ascii.
Variable inflateInit2 deflateInit2 : Z * z_stream (internal_state := internal_state).
Variable buf_size : Z.

Implicit Types sock conn b : conn_t (internal_state := internal_state).

(** ** Filling the read buffer *)

(** C6. With [offset + bytes] at the capacity of the buffer, [socket_fill]
    asks the transport for nothing (no answer of read or SSL_read is used
    up), leaves the connection, and so offset, bytes and the buffer, as it
    was, and reports "receive buffer full" followed by the fatal-failure
    callback. *)
Theorem socket_fill_buffer_full sock (w : world) :
  offset sock + bytes sock = buf_size ->
  let '(sock', w') := socket_fill buf_size sock w in
  sock' = sock /\
  sys_reads w' = sys_reads w /\ ssl_reads w' = ssl_reads w /\
  trace w' = trace w ++
    [Ev_error "Socket error: receive buffer full. Probably protocol error."; Cb_bad].
Proof.
  intros H. unfold socket_fill. rewrite H, Z.sub_diag. cbn.
  rewrite <- app_assoc. repeat split.
Qed.

(** C5 (what the code does on the would-block case). On a plain connection
    with room in the buffer, a read that fails with EAGAIN or EWOULDBLOCK
    is reported like any other read error: the error message and then the
    fatal-failure callback, the connection unchanged. *)
Theorem socket_fill_would_block_is_fatal sock (w : world) (e : errno_t)
  (rest : list read_result) :
  ssl sock = None -> offset sock + bytes sock <> buf_size ->
  sys_reads w = ReadFail e :: rest -> would_block e = true ->
  let '(sock', w') := socket_fill buf_size sock w in
  sock' = sock /\
  trace w' = trace w ++ [Ev_error "Socket error: read from"; Cb_bad].
Proof.
  intros Hs Hr Hw _. unfold socket_fill.
  destruct (buf_size - (offset sock + bytes sock) =? 0) eqn:E;
    [apply Z.eqb_eq in E; lia|].
  rewrite Hs. unfold sys_read. rewrite Hw. cbn.
  rewrite <- app_assoc. split; reflexivity.
Qed.

Lemma socket_start_deflate_fields conn (w : world) :
  let conn' := fst (socket_start_deflate inflateInit2 deflateInit2 conn w) in
  in_z conn' <> None /\ ssl conn' = ssl conn /\ buf conn' = buf conn /\
  offset conn' = offset conn /\ bytes conn' = bytes conn /\
  scanoff conn' = scanoff conn /\ fd conn' = fd conn.
Proof.
  unfold socket_start_deflate.
  destruct (in_z conn) eqn:E.
  - cbn. rewrite E. repeat split. discriminate.
  - destruct inflateInit2 as [r1 iz], deflateInit2 as [r2 oz]. cbn.
    repeat split. discriminate.
Qed.

(** C4 (what the code does). After [socket_start_deflate], a fill on a
    plain connection stores the bytes that read() delivered as they are, at
    [offset + bytes], and counts them in [bytes]; the inflate stream is not
    touched. *)
Theorem socket_fill_stores_raw_bytes_after_deflate conn (w0 w : world)
  (data : list ascii) (rest : list read_result) :
  let sock := fst (socket_start_deflate inflateInit2 deflateInit2 conn w0) in
  ssl conn = None -> len_of (buf conn) = buf_size ->
  0 <= offset conn -> 0 <= bytes conn ->
  sys_reads w = ReadBytes data :: rest -> data <> [] ->
  offset conn + bytes conn + len_of data <= buf_size ->
  let '(sock', w') := socket_fill buf_size sock w in
  in_z sock <> None /\
  sub_buf (buf sock') (offset conn + bytes conn) (len_of data) = data /\
  offset sock' = offset conn /\ bytes sock' = bytes conn + len_of data /\
  in_z sock' = in_z sock /\
  trace w' = trace w ++ [Cb_read].
Proof.
  intros sock Hs Hb Ho Hn Hw Hd Hroom.
  destruct (socket_start_deflate_fields conn w0)
    as (Hz & Hssl & Hbuf & Hoff & Hbytes & _).
  fold sock in Hz, Hssl, Hbuf, Hoff, Hbytes.
  assert (Hpos : 0 < len_of data).
  { unfold len_of. destruct data; [contradiction | cbn; lia]. }
  unfold socket_fill. rewrite Hoff, Hbytes, Hssl, Hs.
  destruct (buf_size - (offset conn + bytes conn) =? 0) eqn:E;
    [apply Z.eqb_eq in E; lia|].
  unfold sys_read. rewrite Hw.
  rewrite (firstn_len_of _ data) by lia.
  destruct (len_of data =? 0) eqn:E0; [apply Z.eqb_eq in E0; lia|].
  cbn. rewrite Hbuf. repeat split; try assumption.
  apply sub_buf_poke. lia.
Qed.

(** The parts of the read path that need no correction: on a plain
    connection end of file is fatal, and so is a read error that is not a
    would-block. *)
Lemma socket_fill_eof_is_fatal sock (w : world) (rest : list read_result) :
  ssl sock = None -> offset sock + bytes sock <> buf_size ->
  sys_reads w = ReadBytes [] :: rest ->
  let '(sock', w') := socket_fill buf_size sock w in
  sock' = sock /\
  trace w' = trace w ++ [Ev_error "Socket error: read from: unexpected EOF"; Cb_bad].
Proof.
  intros Hs Hr Hw. unfold socket_fill.
  destruct (buf_size - (offset sock + bytes sock) =? 0) eqn:E;
    [apply Z.eqb_eq in E; lia|].
  rewrite Hs. unfold sys_read. rewrite Hw. rewrite firstn_nil. cbn.
  rewrite <- app_assoc. split; reflexivity.
Qed.

Lemma socket_fill_read_error_is_fatal sock (w : world) (e : errno_t)
  (rest : list read_result) :
  ssl sock = None -> offset sock + bytes sock <> buf_size ->
  sys_reads w = ReadFail e :: rest ->
  let '(sock', w') := socket_fill buf_size sock w in
  sock' = sock /\
  trace w' = trace w ++ [Ev_error "Socket error: read from"; Cb_bad].
Proof.
  intros Hs Hr Hw. unfold socket_fill.
  destruct (buf_size - (offset sock + bytes sock) =? 0) eqn:E;
    [apply Z.eqb_eq in E; lia|].
  rewrite Hs. unfold sys_read. rewrite Hw. cbn.
  rewrite <- app_assoc. split; reflexivity.
Qed.

(** [socket_fill] neither reads nor changes the two zlib streams: run on a
    connection with other streams it does the same, streams apart. *)
Lemma socket_fill_ignores_zlib_streams sock (w : world) (i o : option z_stream) :
  socket_fill buf_size (set_z sock i o) w =
  let '(sock', w') := socket_fill buf_size sock w in (set_z sock' i o, w').
Proof.
  unfold socket_fill, socket_fail. cbn [offset bytes ssl buf fd scanoff set_z].
  destruct (buf_size - (offset sock + bytes sock) =? 0); [reflexivity|].
  destruct (ssl sock).
  - destruct (SSL_read w) as [[d p | ret f] w1].
    + unfold ssl_return.
      destruct (len_of (firstn (Z.to_nat (buf_size - (offset sock + bytes sock))) d) <=? 0);
        reflexivity.
    + destruct f; cbn; try reflexivity;
        destruct (sck_state_eqb (state sock) SCK_STARTTLS); reflexivity.
  - destruct (sys_read w) as [[d | e] w1]; [|reflexivity].
    destruct (len_of (firstn (Z.to_nat (buf_size - (offset sock + bytes sock))) d) =? 0);
      reflexivity.
Qed.

(** On a TLS connection, a read that fills all the room left while
    SSL_pending reports more gives a fake readable event before the
    read-ready callback. *)
Lemma socket_fill_ssl_fake sock (w : world) (s : SSL) (data : list ascii)
  (pending : Z) (rest : list ssl_read_result) :
  ssl sock = Some s -> 0 < buf_size - (offset sock + bytes sock) ->
  ssl_reads w = SslRead data pending :: rest ->
  buf_size - (offset sock + bytes sock) <= len_of data -> pending <> 0 ->
  let '(sock', w') := socket_fill buf_size sock w in
  bytes sock' = bytes sock + (buf_size - (offset sock + bytes sock)) /\
  trace w' = trace w ++ [Ev_fake_fd (fd sock) POLLIN; Cb_read].
Proof.
  intros Hs Hroom Hw Hfull Hp. unfold socket_fill.
  set (len := buf_size - (offset sock + bytes sock)) in *.
  destruct (len =? 0) eqn:E; [apply Z.eqb_eq in E; lia|].
  rewrite Hs. unfold SSL_read. rewrite Hw.
  assert (Hl : len_of (firstn (Z.to_nat len) data) = len).
  { rewrite len_of_firstn. lia. }
  cbn [ssl_return]. rewrite Hl.
  destruct (len <=? 0) eqn:E1; [apply Z.leb_le in E1; lia|].
  rewrite Z.eqb_refl. cbn [ssl_pending].
  destruct (pending =? 0) eqn:E2; [apply Z.eqb_eq in E2; lia|].
  cbn. rewrite <- app_assoc. split; reflexivity.
Qed.

(** ** Line extraction *)

Lemma skipn_past (pre mid : list ascii) (i : Z) :
  0 <= i ->
  skipn (Z.to_nat (len_of pre + i)) (pre ++ mid) = skipn (Z.to_nat i) mid.
Proof.
  intros Hi. unfold len_of.
  replace (Z.to_nat (Z.of_nat (List.length pre) + i))
    with (List.length pre + Z.to_nat i)%nat by lia.
  rewrite skipn_app.
  rewrite (skipn_all2 (n := (List.length pre + Z.to_nat i)%nat)) by lia.
  replace (List.length pre + Z.to_nat i - List.length pre)%nat with (Z.to_nat i) by lia.
  reflexivity.
Qed.

Lemma firstn_past (pre mid : list ascii) (i : Z) :
  0 <= i ->
  firstn (Z.to_nat (len_of pre + i)) (pre ++ mid) = pre ++ firstn (Z.to_nat i) mid.
Proof.
  intros Hi. unfold len_of.
  replace (Z.to_nat (Z.of_nat (List.length pre) + i))
    with (List.length pre + Z.to_nat i)%nat by lia.
  apply firstn_app_2.
Qed.

Lemma poke_past (pre mid d : list ascii) (i : Z) :
  0 <= i -> poke (pre ++ mid) (len_of pre + i) d = pre ++ poke mid i d.
Proof.
  intros Hi. unfold poke.
  rewrite firstn_past by assumption.
  replace (Z.to_nat (len_of pre + i) + List.length d)%nat
    with (Z.to_nat (len_of pre + (i + Z.of_nat (List.length d)))) by (unfold len_of; lia).
  rewrite skipn_past by lia.
  replace (Z.to_nat (i + Z.of_nat (List.length d)))
    with (Z.to_nat i + List.length d)%nat by lia.
  rewrite <- app_assoc. reflexivity.
Qed.

Lemma nth_past (pre mid : list ascii) (i : Z) :
  0 <= i -> nth (Z.to_nat (len_of pre + i)) (pre ++ mid) NUL = nth (Z.to_nat i) mid NUL.
Proof.
  intros Hi. unfold len_of.
  replace (Z.to_nat (Z.of_nat (List.length pre) + i))
    with (List.length pre + Z.to_nat i)%nat by lia.
  rewrite app_nth2 by lia. f_equal. lia.
Qed.

Lemma string_at_past (pre mid : list ascii) (i : Z) :
  0 <= i -> string_at (pre ++ mid) (len_of pre + i) = string_at mid i.
Proof. intros Hi. unfold string_at. rewrite skipn_past by assumption. reflexivity. Qed.

Lemma memchr_nonneg (s : list ascii) (c : ascii) : forall (n : nat) (i : Z),
  memchr s c n = Some i -> 0 <= i.
Proof.
  induction s as [|x s IH]; intros [|n] i H; cbn [memchr] in H; try discriminate.
  destruct (Ascii.eqb x c).
  - injection H as <-. lia.
  - destruct (memchr s c n) as [j|] eqn:E; [|discriminate].
    injection H as <-. specialize (IH n j E). lia.
Qed.

(** A call that finds the terminator [i] bytes after the scan position. *)
Lemma socket_read_line_found b (pre mid : list ascii) (i : Z) :
  buf b = pre ++ mid -> offset b = len_of pre -> 0 <= scanoff b ->
  memchr (skipn (Z.to_nat (scanoff b)) mid) "010"%char
         (Z.to_nat (bytes b - scanoff b)) = Some i ->
  let p := scanoff b + i in
  let p' := if negb (p =? 0) && Ascii.eqb (nth (Z.to_nat (p - 1)) mid NUL) "013"%char
            then p - 1 else p in
  socket_read_line buf_size b =
  (Some (offset b),
   set_rd b (pre ++ poke mid p' [NUL]) (offset b + (p + 1)) (bytes b - (p + 1)) 0).
Proof.
  intros Hb Ho Hs Hm p p'.
  pose proof (memchr_nonneg _ _ _ _ Hm) as Hi.
  unfold socket_read_line. rewrite Hb, Ho.
  rewrite skipn_past by assumption. rewrite Hm.
  replace (len_of pre + scanoff b + i =? len_of pre) with (p =? 0)
    by (unfold p; destruct (scanoff b + i =? 0) eqn:E;
        [apply Z.eqb_eq in E; symmetry; apply Z.eqb_eq; lia
        |apply Z.eqb_neq in E; symmetry; apply Z.eqb_neq; lia]).
  replace (len_of pre + scanoff b + i + 1 - len_of pre) with (p + 1) by (unfold p; lia).
  destruct (p =? 0) eqn:E0.
  - apply Z.eqb_eq in E0. cbn [negb andb]. subst p'. rewrite E0. cbn [negb andb].
    replace (len_of pre + scanoff b + i) with (len_of pre + 0) by (unfold p in E0; lia).
    rewrite poke_past by lia. reflexivity.
  - apply Z.eqb_neq in E0. cbn [negb andb]. subst p'. rewrite ?(proj2 (Z.eqb_neq p 0) E0). cbn [negb andb].
    replace (len_of pre + scanoff b + i - 1) with (len_of pre + (p - 1)) by (unfold p; lia).
    rewrite nth_past by (unfold p in *; lia).
    destruct (Ascii.eqb (nth (Z.to_nat (p - 1)) mid NUL) "013"%char).
    + rewrite poke_past by (unfold p in *; lia). reflexivity.
    + replace (len_of pre + scanoff b + i) with (len_of pre + p) by (unfold p; lia).
      rewrite poke_past by (unfold p in *; lia). reflexivity.
Qed.

(** C9. With the five unconsumed bytes "A\r\nB\n" at [offset] and scanoff 0,
    the first [socket_read_line] returns the string "A" and the second the
    string "B"; the first moves offset forward and bytes down by 3, the
    second by 2; scanoff is 0 after each; and the first string is still
    intact after the second call. *)
Theorem socket_read_line_two_lines b (pre post : list ascii) :
  buf b = pre ++ ["A"; "013"; "010"; "B"; "010"]%char ++ post ->
  offset b = len_of pre -> bytes b = 5 -> scanoff b = 0 ->
  let '(r1, b1) := socket_read_line buf_size b in
  let '(r2, b2) := socket_read_line buf_size b1 in
  (r1 = Some (offset b) /\ string_at (buf b1) (offset b) = "A"%string /\
   offset b1 = offset b + 3 /\ bytes b1 = bytes b - 3 /\ scanoff b1 = 0) /\
  (r2 = Some (offset b + 3) /\ string_at (buf b2) (offset b + 3) = "B"%string /\
   offset b2 = offset b1 + 2 /\ bytes b2 = bytes b1 - 2 /\ scanoff b2 = 0) /\
  string_at (buf b2) (offset b) = "A"%string.
Proof.
  intros Hb Ho Hn Hs.
  assert (H1 : memchr (skipn (Z.to_nat (scanoff b)) (["A"; "013"; "010"; "B"; "010"]%char ++ post))
                 "010"%char (Z.to_nat (bytes b - scanoff b)) = Some 2)
    by (rewrite Hn, Hs; reflexivity).
  rewrite (socket_read_line_found b pre _ 2 Hb Ho ltac:(lia) H1).
  rewrite Hs.
  match goal with
  | |- context [poke ?m ?i [NUL]] =>
      change (poke m i [NUL]) with (["A"; NUL; "010"; "B"; "010"]%char ++ post)
  end.
  change (0 + 2 + 1) with 3.
  set (b1 := set_rd b _ _ _ _).
  assert (Hb1 : buf b1 = (pre ++ ["A"; NUL; "010"]%char) ++ (["B"; "010"]%char ++ post))
    by (rewrite <- app_assoc; reflexivity).
  assert (Ho1 : offset b1 = len_of (pre ++ ["A"; NUL; "010"]%char))
    by (rewrite len_of_app; cbn [offset b1 set_rd]; rewrite Ho; reflexivity).
  assert (H2 : memchr (skipn (Z.to_nat (scanoff b1)) (["B"; "010"]%char ++ post))
                 "010"%char (Z.to_nat (bytes b1 - scanoff b1)) = Some 1)
    by (cbn [bytes scanoff b1 set_rd]; rewrite Hn; reflexivity).
  rewrite (socket_read_line_found b1 _ _ 1 Hb1 Ho1 ltac:(cbn; lia) H2).
  match goal with
  | |- context [poke ?m ?i [NUL]] =>
      change (poke m i [NUL]) with (["B"; NUL]%char ++ post)
  end.
  cbn [offset bytes scanoff buf b1 set_rd].
  change (0 + 1 + 1) with 2.
  repeat split.
  - rewrite Ho. rewrite <- (Z.add_0_r (len_of pre)).
    rewrite string_at_past by lia. reflexivity.
  - rewrite Ho. change (len_of pre + 3) with (len_of pre + len_of ["A"; NUL; "010"]%char).
    rewrite <- len_of_app. rewrite <- (Z.add_0_r (len_of _)).
    rewrite string_at_past by lia. reflexivity.
  - rewrite Ho. rewrite <- app_assoc. rewrite <- (Z.add_0_r (len_of pre)).
    rewrite string_at_past by lia. reflexivity.
Qed.

(** ** The write queue *)

Lemma firstn_accepted (k : nat) (buf : list ascii) :
  firstn (Z.to_nat (len_of (firstn k buf))) buf = firstn k buf.
Proof.
  unfold len_of. rewrite Nat2Z.id, length_firstn.
  destruct (Nat.le_ge_cases k (List.length buf)) as [H | H].
  - rewrite Nat.min_l by assumption. reflexivity.
  - rewrite Nat.min_r by assumption.
    rewrite firstn_all. symmetry. apply firstn_all2. assumption.
Qed.

Lemma sent_bytes_emit_sent (w : world) (d : list ascii) :
  sent_bytes (trace (emit (Ev_sent d) w)) = sent_bytes (trace w) ++ d.
Proof. cbn. rewrite sent_bytes_app. cbn. rewrite app_nil_r. reflexivity. Qed.

Lemma sent_bytes_emit_other (w : world) (e : event) :
  (forall d, e <> Ev_sent d) ->
  sent_bytes (trace (emit e w)) = sent_bytes (trace w).
Proof.
  intros H. cbn. rewrite sent_bytes_app.
  destruct e; cbn; try apply app_nil_r. exfalso. apply (H data). reflexivity.
Qed.

(** A write that does not end in a fatal error takes a prefix of what it
    is offered and reports its length. *)
Lemma do_write_inner_benign sock (w : world) (buf : list ascii) :
  write_fatal_free w = true ->
  exists n w', do_write_inner sock w buf = (n, w') /\
    0 <= n <= len_of buf /\
    sent_bytes (trace w') = sent_bytes (trace w) ++ firstn (Z.to_nat n) buf /\
    write_fatal_free w' = true.
Proof.
  unfold write_fatal_free, do_write_inner. intros H.
  apply andb_prop in H as [Hsys Hssl].
  assert (Hlen : forall k, 0 <= len_of (firstn (Z.to_nat k) buf) <= len_of buf).
  { intros k. rewrite len_of_firstn. pose proof (len_of_nonneg buf). lia. }
  pose proof (len_of_nonneg buf) as Hb.
  destruct (ssl sock) as [s|].
  - unfold SSL_write. destruct (ssl_writes w) as [|r rs] eqn:E.
    + eexists _, _. split; [reflexivity|]. cbn.
      rewrite sent_bytes_app, E, Hsys. cbn. rewrite !app_nil_r. repeat split; lia.
    + cbn [forallb] in Hssl. apply andb_prop in Hssl as [Hr Hrs].
      destruct r as [k | ret f].
      * eexists _, _. split; [reflexivity|]. cbn [ssl_return].
        rewrite sent_bytes_emit_sent, firstn_accepted. cbn.
        rewrite Hsys, Hrs. repeat split; apply Hlen.
      * destruct f; try discriminate Hr; eexists _, _; (split; [reflexivity|]); cbn;
          rewrite ?sent_bytes_app, Hsys, Hrs; cbn; rewrite ?app_nil_r;
          repeat split; lia.
  - unfold sys_write. destruct (sys_writes w) as [|r rs] eqn:E.
    + eexists _, _. split; [reflexivity|]. cbn.
      rewrite sent_bytes_app, E, Hssl. cbn. rewrite !app_nil_r. repeat split; lia.
    + cbn [forallb] in Hsys. apply andb_prop in Hsys as [Hr Hrs].
      destruct r as [k | e].
      * destruct (negb (len_of (firstn (Z.to_nat k) buf) =? len_of buf));
          eexists _, _; (split; [reflexivity|]); cbn;
          rewrite ?sent_bytes_app; cbn; rewrite ?sent_bytes_app; cbn;
          rewrite ?app_nil_r, Hrs, Hssl;
          change (Z.to_nat (Z.of_nat (List.length (firstn (Z.to_nat k) buf))))
            with (Z.to_nat (len_of (firstn (Z.to_nat k) buf)));
          rewrite firstn_accepted; repeat split; apply Hlen.
      * cbn in Hr. rewrite Hr. eexists _, _. split; [reflexivity|]. cbn.
        rewrite sent_bytes_app, Hrs, Hssl. cbn. rewrite !app_nil_r. repeat split; lia.
Qed.

Lemma do_write_plain sock (w : world) (buf : list ascii) :
  out_z sock = None ->
  do_write deflate sock w buf =
  (fst (do_write_inner sock w buf), sock, snd (do_write_inner sock w buf)).
Proof.
  intros H. unfold do_write. rewrite H.
  destruct (do_write_inner sock w buf). reflexivity.
Qed.

Lemma split_at_offset (data R : list ascii) (off n : Z) :
  0 <= off -> 0 <= n -> off + n <= len_of data ->
  firstn (Z.to_nat n) (skipn (Z.to_nat off) data)
    ++ skipn (Z.to_nat (off + n)) (data ++ R)
  = skipn (Z.to_nat off) (data ++ R).
Proof.
  unfold len_of. intros Ho Hn Hl.
  replace (Z.to_nat (off + n)) with (Z.to_nat n + Z.to_nat off)%nat by lia.
  rewrite <- skipn_skipn.
  rewrite (skipn_app (Z.to_nat off)).
  replace (Z.to_nat off - List.length data)%nat with O by lia.
  cbn [skipn].
  rewrite (skipn_app (Z.to_nat n)).
  replace (Z.to_nat n - List.length (skipn (Z.to_nat off) data))%nat with O
    by (rewrite length_skipn; lia).
  cbn [skipn]. rewrite app_assoc, firstn_skipn. reflexivity.
Qed.

Lemma queued_write_loop_inv (q : list buff_chunk_t) : forall conn (w : world),
  write_buf conn = q -> out_z conn = None ->
  write_fatal_free w = true -> write_queue_ok conn ->
  exists r conn' w', queued_write_loop deflate q conn w = (r, conn', w') /\
    sent_bytes (trace w') ++ queued_bytes conn'
      = sent_bytes (trace w) ++ queued_bytes conn /\
    write_queue_ok conn' /\ out_z conn' = None /\ write_fatal_free w' = true /\
    (r = None -> write_buf conn' = []) /\ r <> Some (-1).
Proof.
  induction q as [|bc rest IH]; intros conn w Hq Hz Hw Hok.
  - exists None, conn, w. repeat split; try assumption; try reflexivity; try discriminate.
    intros _. exact Hq.
  - cbn [queued_write_loop]. rewrite (do_write_plain _ _ _ Hz).
    unfold write_queue_ok in Hok. rewrite Hq in Hok.
    set (tail := skipn (Z.to_nat (write_offset conn)) (bc_data bc)).
    destruct (do_write_inner_benign conn w tail Hw) as (n & w1 & E & Hn & Hs & Hw1).
    rewrite E. cbn [fst snd].
    assert (Htail : len_of tail = bc_len bc - write_offset conn).
    { unfold tail, bc_len, len_of in *. rewrite length_skipn. lia. }
    destruct (n <? 0) eqn:En; [apply Z.ltb_lt in En; lia|].
    destruct (n =? bc_len bc - write_offset conn) eqn:Ef; cbn [negb].
    + apply Z.eqb_eq in Ef.
      set (conn1 := dispose_chunk (set_write_offset conn 0)).
      assert (Hq1 : write_buf conn1 = rest) by (cbn; rewrite Hq; reflexivity).
      assert (Hok1 : write_queue_ok conn1).
      { unfold write_queue_ok. rewrite Hq1. cbn.
        destruct rest as [|c ?]; [reflexivity|].
        unfold bc_len. pose proof (len_of_nonneg (bc_data c)). lia. }
      destruct (IH conn1 w1 Hq1 Hz Hw1 Hok1)
        as (r & conn' & w' & E' & Hs' & Hok' & Hz' & Hw' & Hr' & Hne).
      exists r, conn', w'. rewrite E'. repeat split; try assumption.
      rewrite Hs', Hs. unfold queued_bytes. rewrite Hq1, Hq. cbn [write_offset conn1 dispose_chunk set_write_buf set_write_offset map List.concat skipn Z.to_nat].
      rewrite <- app_assoc. f_equal.
      rewrite (firstn_len_of _ tail) by lia.
      unfold tail. rewrite skipn_app.
      replace (Z.to_nat (write_offset conn) - List.length (bc_data bc))%nat with O
        by (unfold bc_len, len_of in *; lia).
      reflexivity.
    + apply Z.eqb_neq in Ef.
      eexists _, _, _. split; [reflexivity|]. repeat split; try assumption.
      * rewrite Hs. unfold queued_bytes.
        cbn [write_buf write_offset set_write_offset]. rewrite Hq.
        cbn [map List.concat]. rewrite <- app_assoc. f_equal.
        apply split_at_offset; unfold bc_len in *; lia.
      * unfold write_queue_ok. cbn [write_buf write_offset set_write_offset].
        rewrite Hq. lia.
      * discriminate.
      * discriminate.
Qed.

Lemma do_queued_write_inv conn (w : world) :
  out_z conn = None -> write_fatal_free w = true -> write_queue_ok conn ->
  exists r conn' w', do_queued_write deflate conn w = (r, conn', w') /\
    sent_bytes (trace w') ++ queued_bytes conn'
      = sent_bytes (trace w) ++ queued_bytes conn /\
    write_queue_ok conn' /\ out_z conn' = None /\ write_fatal_free w' = true.
Proof.
  intros Hz Hw Hok. unfold do_queued_write.
  destruct (write_buf conn) as [|bc rest] eqn:Hq.
  - exists 0, conn, w. repeat split; assumption.
  - destruct (queued_write_loop_inv (bc :: rest) conn w Hq Hz Hw Hok)
      as (r & conn' & w' & E & Hs & Hok' & Hz' & Hw' & _).
    rewrite E. destruct r as [r|].
    + exists r, conn', w'. repeat split; assumption.
    + eexists _, _, _. split; [reflexivity|].
      repeat split; try assumption.
      * rewrite <- Hs. f_equal. rewrite sent_bytes_emit_other by discriminate.
        destruct (ssl conn'); [|reflexivity].
        destruct (negb (ssl_pending w' =? 0)); [|reflexivity].
        apply sent_bytes_emit_other. discriminate.
      * destruct (ssl conn'); [|exact Hw'].
        destruct (negb (ssl_pending w' =? 0)); exact Hw'.
Qed.

Lemma socket_write_inv conn (w : world) (buf : list ascii) (takeOwn : ownership_t) :
  out_z conn = None -> write_fatal_free w = true -> write_queue_ok conn ->
  exists n conn' w', socket_write deflate conn w buf takeOwn = (n, conn', w') /\
    sent_bytes (trace w') ++ queued_bytes conn'
      = sent_bytes (trace w) ++ queued_bytes conn ++ buf /\
    write_queue_ok conn' /\ out_z conn' = None /\ write_fatal_free w' = true.
Proof.
  intros Hz Hw Hok. unfold socket_write, write_queue_ok in *.
  destruct (write_buf conn) as [|bc rest] eqn:Hq.
  - rewrite (do_write_plain _ _ _ Hz).
    destruct (do_write_inner_benign conn w buf Hw) as (n & w1 & E & Hn & Hs & Hw1).
    rewrite E. cbn [fst snd].
    destruct (n =? len_of buf) eqn:Ef; cbn [negb andb].
    + apply Z.eqb_eq in Ef. exists n, conn, w1. rewrite Hq.
      repeat split; try assumption.
      rewrite Hs. unfold queued_bytes. rewrite Hq, Hok. cbn.
      rewrite app_nil_r, firstn_len_of by lia. reflexivity.
    + apply Z.eqb_neq in Ef.
      destruct (0 <=? n) eqn:E0; [|apply Z.leb_gt in E0; lia].
      eexists _, _, _. split; [reflexivity|]. repeat split; try assumption.
      * rewrite Hs. unfold queued_bytes.
        cbn [write_buf write_offset do_append set_write_buf set_write_offset].
        rewrite Hq, Hok. cbn [app map List.concat skipn Z.to_nat].
        rewrite app_nil_r, <- app_assoc, firstn_skipn. reflexivity.
      * cbn [write_buf write_offset do_append set_write_buf set_write_offset].
        rewrite Hq. cbn. unfold bc_len. cbn. lia.
  - eexists _, _, _. split; [reflexivity|]. repeat split; try assumption.
    + f_equal. unfold queued_bytes.
      cbn [write_buf write_offset do_append set_write_buf]. rewrite Hq.
      cbn [app map List.concat]. rewrite map_app, concat_app. cbn [map List.concat].
      rewrite app_nil_r, !app_assoc, skipn_app.
      replace (Z.to_nat (write_offset conn) - List.length (bc_data bc ++ List.concat (map bc_data rest)))%nat
        with O by (rewrite length_app; unfold bc_len, len_of in Hok; lia).
      reflexivity.
    + cbn [write_buf write_offset do_append set_write_buf]. rewrite Hq. cbn. exact Hok.
Qed.

Lemma run_write_ops_inv (ops : list write_op) : forall conn (w : world),
  out_z conn = None -> write_fatal_free w = true -> write_queue_ok conn ->
  exists conn' w', run_write_ops deflate ops conn w = (conn', w') /\
    sent_bytes (trace w') ++ queued_bytes conn'
      = sent_bytes (trace w) ++ queued_bytes conn ++ payloads ops /\
    write_queue_ok conn' /\ out_z conn' = None.
Proof.
  induction ops as [|op ops IH]; intros conn w Hz Hw Hok.
  - exists conn, w. cbn. rewrite app_nil_r. repeat split; assumption.
  - destruct op as [buf takeOwn|]; cbn [run_write_ops payloads].
    + destruct (socket_write_inv conn w buf takeOwn Hz Hw Hok)
        as (n & conn1 & w1 & E & Hs & Hok1 & Hz1 & Hw1).
      rewrite E.
      destruct (IH conn1 w1 Hz1 Hw1 Hok1) as (conn' & w' & E' & Hs' & Hok' & Hz').
      exists conn', w'. rewrite E'. repeat split; [|exact Hok' | exact Hz'].
      rewrite Hs', (app_assoc (sent_bytes (trace w1))), Hs, <- !app_assoc. reflexivity.
    + destruct (do_queued_write_inv conn w Hz Hw Hok)
        as (r & conn1 & w1 & E & Hs & Hok1 & Hz1 & Hw1).
      rewrite E.
      destruct (IH conn1 w1 Hz1 Hw1 Hok1) as (conn' & w' & E' & Hs' & Hok' & Hz').
      exists conn', w'. rewrite E'. repeat split; [|exact Hok' | exact Hz'].
      rewrite Hs', (app_assoc (sent_bytes (trace w1))), Hs, <- !app_assoc. reflexivity.
Qed.

(** ** What the write path leaves alone *)

Lemma ssl_return_frame (func : string) sock (w : world) (ret : Z) (err : ssl_error) :
  ssl_pending (snd (ssl_return func sock w ret err)) = ssl_pending w /\
  write_callback_ret (snd (ssl_return func sock w ret err)) = write_callback_ret w.
Proof.
  unfold ssl_return, socket_fail.
  destruct err; cbn; try (split; reflexivity);
    destruct (sck_state_eqb (state sock) SCK_STARTTLS); split; reflexivity.
Qed.

Lemma do_write_inner_frame sock (w : world) (buf : list ascii) :
  ssl_pending (snd (do_write_inner sock w buf)) = ssl_pending w /\
  write_callback_ret (snd (do_write_inner sock w buf)) = write_callback_ret w.
Proof.
  unfold do_write_inner. destruct (ssl sock).
  - unfold SSL_write. destruct (ssl_writes w) as [|[k | ret f] rs].
    + cbn. split; reflexivity.
    + destruct (ssl_return_frame "write to" sock
                  (emit (Ev_sent (firstn (Z.to_nat k) buf))
                     {| sys_reads := sys_reads w; sys_writes := sys_writes w;
                        ssl_reads := ssl_reads w; ssl_writes := rs;
                        ssl_connects := ssl_connects w; ssl_pending := ssl_pending w;
                        write_callback_ret := write_callback_ret w; trace := trace w |})
                  (len_of (firstn (Z.to_nat k) buf)) SSL_ERROR_NONE) as [H1 H2].
      rewrite H1, H2. split; reflexivity.
    + destruct (ssl_return_frame "write to" sock
                  {| sys_reads := sys_reads w; sys_writes := sys_writes w;
                     ssl_reads := ssl_reads w; ssl_writes := rs;
                     ssl_connects := ssl_connects w; ssl_pending := ssl_pending w;
                     write_callback_ret := write_callback_ret w; trace := trace w |}
                  ret (SSL_get_error f)) as [H1 H2].
      rewrite H1, H2. split; reflexivity.
  - unfold sys_write, socket_fail. destruct (sys_writes w) as [|[k | e] rs].
    + cbn. split; reflexivity.
    + destruct (negb (len_of (firstn (Z.to_nat k) buf) =? len_of buf)); cbn; split; reflexivity.
    + destruct (negb (would_block e)); cbn; split; reflexivity.
Qed.

(** [do_write] changes nothing of the connection but the deflate stream
    and the kept compressed output. *)
Lemma do_write_frame sock (w : world) (buf : list ascii) :
  let '(n, sock', w') := do_write deflate sock w buf in
  ssl sock' = ssl sock /\ fd sock' = fd sock /\
  write_buf sock' = write_buf sock /\ write_offset sock' = write_offset sock /\
  ssl_pending w' = ssl_pending w /\ write_callback_ret w' = write_callback_ret w.
Proof.
  assert (Hd : forall sock (w : world) z,
    let '(n, sock', w') := do_write_deflate deflate sock w buf z in
    ssl sock' = ssl sock /\ fd sock' = fd sock /\
    write_buf sock' = write_buf sock /\ write_offset sock' = write_offset sock /\
    ssl_pending w' = ssl_pending w /\ write_callback_ret w' = write_callback_ret w).
  { intros c v z. unfold do_write_deflate, socket_fail.
    destruct (deflate_loop deflate 25 _ [] 32) as [z' outbuf | z' |].
    - destruct (do_write_inner_frame (set_z c (in_z c) (Some z')) v outbuf) as [H1 H2].
      destruct (do_write_inner (set_z c (in_z c) (Some z')) v outbuf) as [result v'].
      cbn [snd] in H1, H2.
      destruct ((0 <? result) && (result <? len_of outbuf));
        [|destruct (result <? 0)]; cbn; repeat split; assumption.
    - cbn. repeat split.
    - cbn. repeat split. }
  unfold do_write. destruct (out_z sock) as [z|].
  - destruct (negb (in_z_leftover_len sock =? 0)); [|apply Hd].
    destruct (do_write_inner_frame sock w (in_z_leftover sock)) as [H1 H2].
    destruct (do_write_inner sock w (in_z_leftover sock)) as [result w1].
    cbn [snd] in H1, H2.
    destruct (result <? 0); [cbn; repeat split; assumption|].
    destruct (result <? in_z_leftover_len sock); [cbn; repeat split; assumption|].
    specialize (Hd sock w1 z).
    destruct (do_write_deflate deflate sock w1 buf z) as [[n sock'] w'].
    rewrite <- H1, <- H2. exact Hd.
  - destruct (do_write_inner_frame sock w buf) as [H1 H2].
    destruct (do_write_inner sock w buf) as [n w1]. cbn [snd] in H1, H2.
    repeat split; assumption.
Qed.

Lemma queued_write_loop_frame (q : list buff_chunk_t) : forall conn (w : world),
  write_buf conn = q ->
  let '(r, conn', w') := queued_write_loop deflate q conn w in
  ssl conn' = ssl conn /\ fd conn' = fd conn /\
  ssl_pending w' = ssl_pending w /\ write_callback_ret w' = write_callback_ret w /\
  (r = None <-> write_buf conn' = []).
Proof.
  induction q as [|bc rest IH]; intros conn w Hq.
  - cbn. repeat split; auto.
  - cbn [queued_write_loop].
    pose proof (do_write_frame conn w (skipn (Z.to_nat (write_offset conn)) (bc_data bc))) as Hf.
    destruct (do_write deflate conn w _) as [[n conn1] w1].
    destruct Hf as (Hs & Hfd & Hb & Ho & Hp & Hc).
    destruct (n <? 0).
    { repeat split; try assumption; [discriminate|]. rewrite Hb, Hq. discriminate. }
    destruct (negb (n =? bc_len bc - write_offset conn)).
    { cbn. repeat split; try assumption; [discriminate|]. rewrite Hb, Hq. discriminate. }
    specialize (IH (dispose_chunk (set_write_offset conn1 0)) w1).
    destruct (queued_write_loop deflate rest _ w1) as [[r conn'] w'].
    destruct IH as (Hs' & Hfd' & Hp' & Hc' & Hr'); [cbn; rewrite Hb, Hq; reflexivity|].
    cbn in Hs', Hfd'.
    repeat split; try congruence; apply Hr'.
Qed.

(** C10. On a TLS connection: a [socket_fill] whose SSL_read fills all the
    room left in the buffer while SSL_pending reports more gives a fake
    readable event for the descriptor, just before the read-ready callback;
    and a [do_queued_write] that empties a non-empty queue while
    SSL_pending reports data gives one too, just before the write-ready
    callback. *)
Theorem tls_pending_fake_event sock (w : world) (s : SSL) :
  ssl sock = Some s ->
  (forall (data : list ascii) (pending : Z) (rest : list ssl_read_result),
     0 < buf_size - (offset sock + bytes sock) ->
     ssl_reads w = SslRead data pending :: rest ->
     buf_size - (offset sock + bytes sock) <= len_of data -> pending <> 0 ->
     let '(sock', w') := socket_fill buf_size sock w in
     trace w' = trace w ++ [Ev_fake_fd (fd sock) POLLIN; Cb_read])
  /\ (write_buf sock <> [] -> ssl_pending w <> 0 ->
      let '(r, sock', w') := do_queued_write deflate sock w in
      write_buf sock' = [] ->
      r = write_callback_ret w /\
      exists t, trace w' = t ++ [Ev_fake_fd (fd sock) POLLIN; Cb_write]).
Proof.
  intros Hs. split.
  - intros data pending rest Hroom Hw Hfull Hp.
    pose proof (socket_fill_ssl_fake sock w s data pending rest Hs Hroom Hw Hfull Hp) as H.
    destruct (socket_fill buf_size sock w) as [sock' w']. apply H.
  - intros Hq Hp. unfold do_queued_write.
    destruct (write_buf sock) as [|bc rest] eqn:E; [contradiction|].
    pose proof (queued_write_loop_frame (bc :: rest) sock w E) as Hf.
    destruct (queued_write_loop deflate (bc :: rest) sock w) as [[r sock'] w'].
    destruct Hf as (Hs' & Hfd & Hp' & Hc & Hr).
    destruct r as [r|].
    + intros K. apply Hr in K. discriminate.
    + intros _. rewrite Hs', Hs, Hp', Hfd.
      destruct (ssl_pending w =? 0) eqn:E0; [apply Z.eqb_eq in E0; contradiction|].
      cbn. split; [exact Hc|]. exists (trace w'). rewrite <- app_assoc. reflexivity.
Qed.

(** ** Compressed output *)

Lemma do_write_inner_sent_grows sock (w : world) (buf : list ascii) :
  exists more,
    sent_bytes (trace (snd (do_write_inner sock w buf))) = sent_bytes (trace w) ++ more.
Proof.
  unfold do_write_inner, socket_fail. destruct (ssl sock).
  - unfold SSL_write, ssl_return, socket_fail.
    destruct (ssl_writes w) as [|[k | ret f] rs].
    + exists []. cbn. rewrite sent_bytes_app. reflexivity.
    + exists (firstn (Z.to_nat k) buf). cbn. rewrite sent_bytes_app. cbn.
      rewrite app_nil_r. reflexivity.
    + exists []. destruct f; cbn;
        try destruct (sck_state_eqb (state sock) SCK_STARTTLS); cbn;
        rewrite ?sent_bytes_app; cbn; rewrite ?app_nil_r; reflexivity.
  - unfold sys_write. destruct (sys_writes w) as [|[k | e] rs].
    + exists []. cbn. rewrite sent_bytes_app. reflexivity.
    + exists (firstn (Z.to_nat k) buf).
      destruct (negb (len_of (firstn (Z.to_nat k) buf) =? len_of buf)); cbn;
        rewrite ?sent_bytes_app; cbn; rewrite ?sent_bytes_app; cbn;
        rewrite ?app_nil_r; reflexivity.
    + exists []. destruct (negb (would_block e)); cbn;
        rewrite ?sent_bytes_app; cbn; rewrite ?sent_bytes_app; cbn;
        rewrite ?app_nil_r; reflexivity.
Qed.

(** A plain write that the transport takes whole. *)
Lemma do_write_inner_all sock (w : world) (buf : list ascii) (k : Z)
  (ws : list write_result) :
  ssl sock = None -> sys_writes w = WriteCount k :: ws -> len_of buf <= k ->
  exists w', do_write_inner sock w buf = (len_of buf, w') /\
    sys_writes w' = ws /\
    sent_bytes (trace w') = sent_bytes (trace w) ++ buf.
Proof.
  intros Hs Hw Hk. unfold do_write_inner, sys_write. rewrite Hs, Hw.
  rewrite (firstn_len_of (Z.to_nat k) buf) by lia. rewrite Z.eqb_refl. cbn [negb].
  eexists. split; [reflexivity|]. split; [reflexivity|].
  rewrite sent_bytes_emit_sent. reflexivity.
Qed.

Lemma deflate_loop_bound (fuel : nat) : forall z (acc : list ascii) (outlen : Z) z' out,
  0 < outlen -> len_of acc <= outlen ->
  deflate_loop deflate fuel z acc outlen = Deflated z' out ->
  len_of out <= outlen * 2 ^ Z.of_nat fuel.
Proof.
  induction fuel as [|fuel IH]; intros z acc outlen z' out Hpos Hacc H;
    cbn [deflate_loop] in H; [discriminate|].
  destruct (deflate z (Z.to_nat (outlen - len_of acc))) as [[rc z1] o].
  destruct (negb (rc =? Z_OK)); [discriminate|].
  set (o' := firstn (Z.to_nat (outlen - len_of acc)) o) in H.
  assert (Ho : len_of (acc ++ o') <= outlen).
  { rewrite len_of_app. unfold o'. rewrite len_of_firstn. lia. }
  assert (Hp : 1 <= 2 ^ Z.of_nat fuel) by (apply Z.pow_le_mono_r with (b := 0); lia).
  rewrite Nat2Z.inj_succ, Z.pow_succ_r by lia.
  destruct (Z.of_nat (Z.to_nat (outlen - len_of acc)) - len_of o' =? 0).
  - apply IH in H; [|lia|lia]. lia.
  - injection H as _ <-. nia.
Qed.

(** Once the kept compressed output has been taken whole by the transport,
    [do_write] goes on to compress and send the new input, and the
    connection still holds the same kept output afterwards. *)
Lemma do_write_keeps_flushed_leftover sock (w : world) (buf : list ascii)
  (a b : Z) (ws : list write_result) :
  out_z sock <> None -> ssl sock = None -> in_z_leftover sock <> [] ->
  sys_writes w = WriteCount a :: WriteCount b :: ws ->
  len_of (in_z_leftover sock) <= a -> 2 ^ 30 <= b ->
  let '(n, sock', w') := do_write deflate sock w buf in
  in_z_leftover sock' = in_z_leftover sock /\ out_z sock' <> None /\ ssl sock' = None /\
  (exists more, sent_bytes (trace w')
                = sent_bytes (trace w) ++ in_z_leftover sock ++ more) /\
  (sys_writes w' = WriteCount b :: ws \/ sys_writes w' = ws).
Proof.
  intros Hz Hs Hl Hw Ha Hb. unfold do_write.
  destruct (out_z sock) as [z|] eqn:Ez; [clear Hz | contradiction].
  assert (Hlen : 0 < in_z_leftover_len sock).
  { unfold in_z_leftover_len, len_of. destruct (in_z_leftover sock); [contradiction | cbn; lia]. }
  destruct (in_z_leftover_len sock =? 0) eqn:E0; [apply Z.eqb_eq in E0; lia|]. cbn [negb].
  destruct (do_write_inner_all sock w (in_z_leftover sock) a _ Hs Hw Ha)
    as (w1 & E & Hw1 & Hs1).
  rewrite E. fold (in_z_leftover_len sock).
  destruct (in_z_leftover_len sock <? 0) eqn:E1; [apply Z.ltb_lt in E1; lia|].
  rewrite Z.ltb_irrefl.
  unfold do_write_deflate, socket_fail.
  destruct (deflate_loop deflate 25 _ [] 32) as [z' outbuf | z' |] eqn:Ed.
  - apply deflate_loop_bound in Ed; [|lia|unfold len_of; cbn; lia].
    assert (Hout : len_of outbuf <= b).
    { change (32 * 2 ^ Z.of_nat 25) with (2 ^ 30) in Ed. lia. }
    destruct (do_write_inner_all (set_z sock (in_z sock) (Some z')) w1 outbuf b ws Hs Hw1 Hout)
      as (w2 & E2 & Hw2 & Hs2).
    rewrite E2. rewrite Z.ltb_irrefl, andb_false_r.
    pose proof (len_of_nonneg outbuf).
    destruct (len_of outbuf <? 0) eqn:E3; [apply Z.ltb_lt in E3; lia|].
    cbn. repeat split; try discriminate; try assumption.
    + exists outbuf. rewrite Hs2, Hs1, <- app_assoc. reflexivity.
    + right. exact Hw2.
  - cbn. repeat split; try discriminate; try assumption.
    + exists []. rewrite !sent_bytes_app. cbn. rewrite !app_nil_r. exact Hs1.
    + left. exact Hw1.
  - cbn. repeat split; try assumption.
    + rewrite Ez. discriminate.
    + exists []. rewrite !sent_bytes_app. cbn. rewrite !app_nil_r. exact Hs1.
    + left. exact Hw1.
Qed.

Lemma do_write_deflate_sent_grows sock (w : world) (buf : list ascii) z :
  let '(n, sock', w') := do_write_deflate deflate sock w buf z in
  exists more, sent_bytes (trace w') = sent_bytes (trace w) ++ more.
Proof.
  unfold do_write_deflate, socket_fail.
  destruct (deflate_loop deflate 25 _ [] 32) as [z' outbuf | z' |].
  - destruct (do_write_inner_sent_grows (set_z sock (in_z sock) (Some z')) w outbuf)
      as [more H].
    destruct (do_write_inner (set_z sock (in_z sock) (Some z')) w outbuf) as [result w'].
    cbn [snd] in H.
    destruct ((0 <? result) && (result <? len_of outbuf));
      [|destruct (result <? 0)]; exists more; exact H.
  - exists []. cbn. rewrite !sent_bytes_app. cbn. rewrite !app_nil_r. reflexivity.
  - exists []. cbn. rewrite !sent_bytes_app. cbn. rewrite !app_nil_r. reflexivity.
Qed.

(** The kept compressed output goes to the transport before anything that
    is compressed from the new input. *)
Lemma do_write_sends_leftover_first sock (w : world) (buf : list ascii)
  (a : Z) (ws : list write_result) :
  out_z sock <> None -> ssl sock = None -> in_z_leftover sock <> [] ->
  sys_writes w = WriteCount a :: ws -> len_of (in_z_leftover sock) <= a ->
  let '(n, sock', w') := do_write deflate sock w buf in
  exists more, sent_bytes (trace w')
               = sent_bytes (trace w) ++ in_z_leftover sock ++ more.
Proof.
  intros Hz Hs Hl Hw Ha. unfold do_write.
  destruct (out_z sock) as [z|] eqn:Ez; [clear Hz | contradiction].
  assert (Hlen : 0 < in_z_leftover_len sock).
  { unfold in_z_leftover_len, len_of. destruct (in_z_leftover sock); [contradiction | cbn; lia]. }
  destruct (in_z_leftover_len sock =? 0) eqn:E0; [apply Z.eqb_eq in E0; lia|]. cbn [negb].
  destruct (do_write_inner_all sock w (in_z_leftover sock) a _ Hs Hw Ha)
    as (w1 & E & Hw1 & Hs1).
  rewrite E. fold (in_z_leftover_len sock).
  destruct (in_z_leftover_len sock <? 0) eqn:E1; [apply Z.ltb_lt in E1; lia|].
  rewrite Z.ltb_irrefl.
  pose proof (do_write_deflate_sent_grows sock w1 buf z) as H.
  destruct (do_write_deflate deflate sock w1 buf z) as [[n sock'] w'].
  destruct H as [more H]. exists more. rewrite H, Hs1, <- app_assoc. reflexivity.
Qed.

(** The part of the transmission the code gets right: compressed output of
    which the transport takes a proper, non-empty part is kept from the
    first byte not taken on, and the caller is told that all of its input
    was written. *)
Lemma do_write_keeps_compressed_remainder sock (w : world) (buf : list ascii)
  z z' (outbuf : list ascii) (k : Z) (ws : list write_result) :
  out_z sock = Some z -> ssl sock = None -> in_z_leftover sock = [] ->
  deflate_loop deflate 25 {| next_in := buf; z_state := z_state z |} [] 32
    = Deflated z' outbuf ->
  sys_writes w = WriteCount k :: ws -> 0 < k < len_of outbuf ->
  let '(n, sock', w') := do_write deflate sock w buf in
  n = len_of buf /\
  in_z_leftover sock' = skipn (Z.to_nat k) outbuf /\
  sent_bytes (trace w') = sent_bytes (trace w) ++ firstn (Z.to_nat k) outbuf.
Proof.
  intros Hz Hs Hl Hd Hw Hk. unfold do_write. rewrite Hz.
  unfold in_z_leftover_len. rewrite Hl. cbn [len_of List.length Z.of_nat Z.eqb negb].
  unfold do_write_deflate. rewrite Hd.
  unfold do_write_inner, sys_write. cbn [ssl set_z]. rewrite Hs, Hw.
  assert (Hf : len_of (firstn (Z.to_nat k) outbuf) = k) by (rewrite len_of_firstn; lia).
  rewrite Hf.
  destruct (k =? len_of outbuf) eqn:E; [apply Z.eqb_eq in E; lia|]. cbn [negb].
  destruct (0 <? k) eqn:E1; [|apply Z.ltb_ge in E1; lia].
  destruct (k <? len_of outbuf) eqn:E2; [|apply Z.ltb_ge in E2; lia].
  cbn. repeat split.
  rewrite !sent_bytes_app. cbn. rewrite !app_nil_r. reflexivity.
Qed.

(** C8 (where the code departs from it). In compressed mode, on a plain
    connection that holds kept compressed output [L], two [do_write] calls
    with a transport that takes all it is offered hand [L] to the
    transport twice: the first call sends it whole and leaves it recorded
    as kept, so the second call sends it again. *)
Theorem do_write_resends_flushed_leftover sock (w : world) (buf1 buf2 : list ascii)
  (a b c : Z) (ws : list write_result) :
  out_z sock <> None -> ssl sock = None -> in_z_leftover sock <> [] ->
  len_of (in_z_leftover sock) <= 2 ^ 30 ->
  sys_writes w = WriteCount a :: WriteCount b :: WriteCount c :: ws ->
  2 ^ 30 <= a -> 2 ^ 30 <= b -> 2 ^ 30 <= c ->
  let '(n1, sock1, w1) := do_write deflate sock w buf1 in
  let '(n2, sock2, w2) := do_write deflate sock1 w1 buf2 in
  exists m1 m2,
    sent_bytes (trace w2)
    = sent_bytes (trace w) ++ in_z_leftover sock ++ m1 ++ in_z_leftover sock ++ m2.
Proof.
  intros Hz Hs Hl Hlen Hw Ha Hb Hc.
  pose proof (do_write_keeps_flushed_leftover sock w buf1 a b (WriteCount c :: ws)
                Hz Hs Hl Hw ltac:(lia) Hb) as H1.
  destruct (do_write deflate sock w buf1) as [[n1 sock1] w1].
  destruct H1 as (Hl1 & Hz1 & Hs1 & (m1 & Hsent1) & Hw1).
  assert (H2 : exists k ws', sys_writes w1 = WriteCount k :: ws' /\ 2 ^ 30 <= k).
  { destruct Hw1 as [E | E]; rewrite E; eauto. }
  destruct H2 as (k & ws' & Hw1' & Hk).
  pose proof (do_write_sends_leftover_first sock1 w1 buf2 k ws' Hz1 Hs1
                ltac:(rewrite Hl1; exact Hl) Hw1' ltac:(rewrite Hl1; lia)) as H2.
  destruct (do_write deflate sock1 w1 buf2) as [[n2 sock2] w2].
  destruct H2 as (m2 & Hsent2). exists m1, m2.
  rewrite Hsent2, Hsent1, Hl1, <- !app_assoc. reflexivity.
Qed.

(** A second departure on the same path: when the transport would block
    on freshly compressed output, nothing of it is sent and nothing is
    kept, yet the caller is told that all of its input was written. *)
Lemma do_write_drops_output_on_would_block sock (w : world) (buf : list ascii)
  z z' (outbuf : list ascii) (e : errno_t) (ws : list write_result) :
  out_z sock = Some z -> ssl sock = None -> in_z_leftover sock = [] ->
  deflate_loop deflate 25 {| next_in := buf; z_state := z_state z |} [] 32
    = Deflated z' outbuf ->
  sys_writes w = WriteFail e :: ws -> would_block e = true ->
  let '(n, sock', w') := do_write deflate sock w buf in
  n = len_of buf /\ in_z_leftover sock' = [] /\
  sent_bytes (trace w') = sent_bytes (trace w).
Proof.
  intros Hz Hs Hl Hd Hw He. unfold do_write. rewrite Hz.
  unfold in_z_leftover_len. rewrite Hl. cbn [len_of List.length Z.of_nat Z.eqb negb].
  unfold do_write_deflate. rewrite Hd.
  unfold do_write_inner, sys_write. cbn [ssl set_z]. rewrite Hs, Hw, He.
  cbn. repeat split; [exact Hl|].
  rewrite sent_bytes_app. cbn. apply app_nil_r.
Qed.

(** C1 (where the code departs from it). On a plain connection with
    compression on, an empty queue and no compressed output kept: when the
    transport would block on the output that [deflate] produced for a
    [socket_write], the caller is told that the whole payload was written,
    but nothing of it has been handed to the transport and nothing is
    kept, neither in the queue nor as compressed leftover; no number of
    later drains sends anything of it, and no answer of the transport is
    used for it again.  The payload is a gap in the stream. *)
Theorem compressed_write_lost_on_would_block conn (w : world) (buf : list ascii)
  (takeOwn : ownership_t) z z' (outbuf : list ascii) (e : errno_t)
  (ws : list write_result) (drains : nat) :
  out_z conn = Some z -> ssl conn = None ->
  write_buf conn = [] -> in_z_leftover conn = [] ->
  deflate_loop deflate 25 {| next_in := buf; z_state := z_state z |} [] 32
    = Deflated z' outbuf ->
  sys_writes w = WriteFail e :: ws -> would_block e = true ->
  fst (fst (socket_write deflate conn w buf takeOwn)) = len_of buf /\
  let ops := Op_write buf takeOwn :: repeat Op_drain drains in
  let '(conn', w') := run_write_ops deflate ops conn w in
  payloads ops = buf /\
  sent_bytes (trace w') = sent_bytes (trace w) /\
  write_buf conn' = [] /\ in_z_leftover conn' = [] /\
  sys_writes w' = ws.
Proof.
  intros Hz Hs Hq Hl Hd Hw He.
  assert (Hdo : do_write deflate conn w buf
                = (len_of buf, set_z conn (in_z conn) (Some z'),
                   emit (Ev_conf_fd (fd conn) POLLIN POLLOUT) (snd (sys_write w)))).
  { unfold do_write. rewrite Hz. unfold in_z_leftover_len. rewrite Hl.
    cbn [len_of List.length Z.of_nat Z.eqb negb].
    unfold do_write_deflate. rewrite Hd.
    unfold do_write_inner, sys_write. cbn [ssl set_z fd]. rewrite Hs, Hw, He.
    reflexivity. }
  assert (Hwr : socket_write deflate conn w buf takeOwn
                = (len_of buf, set_z conn (in_z conn) (Some z'),
                   emit (Ev_conf_fd (fd conn) POLLIN POLLOUT) (snd (sys_write w)))).
  { unfold socket_write. rewrite Hq, Hdo, Z.eqb_refl. reflexivity. }
  split; [rewrite Hwr; reflexivity|].
  cbn [run_write_ops]. rewrite Hwr.
  assert (Hdrain : forall (n : nat) c (v : world),
            write_buf c = [] ->
            run_write_ops deflate (repeat Op_drain n) c v = (c, v)).
  { induction n as [|n IH]; intros c v Hc; [reflexivity|].
    cbn [repeat run_write_ops]. unfold do_queued_write. rewrite Hc. apply IH, Hc. }
  rewrite Hdrain by exact Hq.
  cbn [payloads]. repeat split.
  - induction drains as [|n IH]; [apply app_nil_r | exact IH].
  - cbn [emit trace]. rewrite sent_bytes_app. unfold sys_write. rewrite Hw.
    cbn. apply app_nil_r.
  - exact Hq.
  - exact Hl.
  - unfold sys_write. rewrite Hw. reflexivity.
Qed.

(** ** Connecting *)

Lemma connect_callbacks_emit (e : event) (w : world) :
  connect_callbacks (trace (emit e w)) = connect_callbacks (trace w) ++ connect_callbacks [e].
Proof. cbn [emit trace]. apply connect_callbacks_app. Qed.

Lemma closed_fds_emit (e : event) (w : world) :
  closed_fds (trace (emit e w)) = closed_fds (trace w) ++ closed_fds [e].
Proof. cbn [emit trace]. apply closed_fds_app. Qed.

(** [socket_connect_one] written with the call of [socket_connect_failed],
    as in the source. *)
Lemma socket_connect_one_eq sock (w : world) :
  socket_connect_one sock w =
  match curr_addr sock with
  | [] =>
      let '(sock, w) := socket_connect_bail sock (emit (Ev_error "No working address found") w) in
      Running sock w
  | ai :: _ =>
      let s := ai_socket ai in
      if s <? 0 then Exited 1 (emit (Ev_error "socket") w)
      else
        let sock := set_fd sock s in
        let w := emit (Ev_add_fd s) w in
        match ai_connect ai with
        | ConnectFail e =>
            if negb (in_progress e) then socket_connect_failed sock w
            else Running (set_state sock SCK_CONNECTING) (emit (Ev_conf_fd s 0 POLLOUT) w)
        | ConnectDone => let '(sock, w) := socket_connected sock w in Running sock w
        end
  end.
Proof.
  unfold socket_connect_one, socket_connect_failed, socket_connect_one.
  destruct (curr_addr sock) as [|ai rest] eqn:E; cbn [connect_from]; [reflexivity|].
  destruct (ai_socket ai <? 0); [reflexivity|].
  destruct (ai_connect ai) as [|e]; [reflexivity|].
  destruct (negb (in_progress e)); [|reflexivity].
  cbn. rewrite E. reflexivity.
Qed.

Lemma await_connect_stop (fuel : nat) conn (w : world) :
  sck_state_eqb (state conn) SCK_CONNECTING && (0 <=? fd conn) = false ->
  await_connect deflate buf_size fuel (Running conn w) = Running conn w.
Proof. intros H. destruct fuel; cbn [await_connect]; [|rewrite H]; reflexivity. Qed.

Lemma callbacks_app (t1 t2 : list event) :
  callbacks (t1 ++ t2) = callbacks t1 ++ callbacks t2.
Proof. apply filter_app. Qed.

Lemma callbacks_emit (e : event) (w : world) :
  callbacks (trace (emit e w)) = callbacks (trace w) ++ callbacks [e].
Proof. cbn [emit trace]. apply callbacks_app. Qed.

Lemma await_connect_exited (fuel : nat) (code : Z) (w : world) :
  await_connect deflate buf_size fuel (Exited code w) = Exited code w.
Proof. destruct fuel; reflexivity. Qed.

(** The attempts from [addrs] on when every candidate that comes to be
    tried leaves the process running. *)
Lemma connect_from_completes (addrs : list addrinfo) :
  forall (fuel : nat) sock (w : world),
  (List.length addrs <= fuel)%nat -> forallb attempt_runs (tried addrs) = true ->
  curr_addr sock = addrs -> (addrs = [] -> fd sock = -1) ->
  exists sock' w' ok,
    await_connect deflate buf_size fuel (connect_from addrs sock w) = Running sock' w' /\
    callbacks (trace w') = callbacks (trace w) ++ [Cb_connect ok] /\
    ((ok = 1 /\ exists failed good rest,
        addrs = failed ++ good :: rest /\
        Forall (fun a => attempt_ok a = false) failed /\ attempt_ok good = true /\
        state sock' = SCK_READY /\ fd sock' = ai_socket good /\
        curr_addr sock' = good :: rest /\
        closed_fds (trace w') = closed_fds (trace w) ++ map ai_socket failed)
     \/ (ok = 0 /\ Forall (fun a => attempt_ok a = false) addrs /\ fd sock' = -1 /\
         closed_fds (trace w') = closed_fds (trace w) ++ map ai_socket addrs)).
Proof.
  induction addrs as [|ai rest IH]; intros fuel sock w Hfuel Hruns Hcur Hfd.
  - specialize (Hfd eq_refl). cbn [connect_from socket_connect_bail].
    rewrite await_connect_stop
      by (rewrite Hfd; cbn; apply andb_false_r).
    eexists _, _, 0. split; [reflexivity|]. split.
    + rewrite !callbacks_emit. cbn. rewrite app_nil_r. reflexivity.
    + right. repeat split; [constructor | exact Hfd |].
      rewrite !closed_fds_emit. cbn. rewrite !app_nil_r. reflexivity.
  - cbn [tried] in Hruns.
    assert (Hai : attempt_runs ai = true)
      by (destruct (attempt_ok ai); cbn [forallb] in Hruns;
          apply andb_prop in Hruns; exact (proj1 Hruns)).
    assert (Hrest : attempt_ok ai = false -> forallb attempt_runs (tried rest) = true)
      by (intros K; rewrite K in Hruns; cbn [forallb] in Hruns;
          apply andb_prop in Hruns; exact (proj2 Hruns)).
    clear Hruns.
    unfold attempt_runs in Hai. apply andb_prop in Hai as [Hsock Hso].
    cbn [List.length] in Hfuel.
    cbn [connect_from].
    destruct (ai_socket ai <? 0) eqn:Es; [apply Z.ltb_lt in Es; apply Z.leb_le in Hsock; lia|].
    destruct (ai_connect ai) as [|e] eqn:Ec.
    + (* connect() succeeds at once *)
      cbn [socket_connected]. rewrite await_connect_stop by reflexivity.
      eexists _, _, 1. split; [reflexivity|]. split.
      * rewrite !callbacks_emit. cbn. rewrite !app_nil_r. reflexivity.
      * left. split; [reflexivity|]. exists [], ai, rest.
        repeat split; try reflexivity; try assumption.
        -- constructor.
        -- unfold attempt_ok. rewrite Ec. reflexivity.
        -- rewrite !closed_fds_emit. cbn. rewrite !app_nil_r. reflexivity.
    + destruct (in_progress e) eqn:Ep; cbn [negb].
      * (* EINPROGRESS: the event loop reports the end of the attempt *)
        cbn [orb] in Hso.
        destruct (ai_so_error ai) as [soerr|] eqn:Eso; [|discriminate].
        destruct fuel as [|fuel]; [lia|]. cbn [await_connect].
        cbn [state fd curr_addr set_state set_fd sck_state_eqb andb].
        rewrite Hsock, Hcur. cbn [andb]. rewrite Eso.
        unfold socket_fd_cb.
        replace (has_event POLLOUT POLLERR) with false by reflexivity.
        cbn [orb state set_state sck_state_eqb].
        destruct (soerr =? 0) eqn:E0; cbn [negb].
        -- cbn [socket_connected]. rewrite await_connect_stop by reflexivity.
           eexists _, _, 1. split; [reflexivity|]. split.
           ++ rewrite !callbacks_emit. cbn. rewrite !app_nil_r. reflexivity.
           ++ left. split; [reflexivity|]. exists [], ai, rest.
              repeat split; try reflexivity; try assumption.
              ** constructor.
              ** unfold attempt_ok. rewrite Ec, Ep, Eso, E0. reflexivity.
              ** rewrite !closed_fds_emit. cbn. rewrite !app_nil_r. reflexivity.
        -- assert (Hfail : attempt_ok ai = false)
             by (unfold attempt_ok; rewrite Ec, Ep, Eso, E0; reflexivity).
           unfold socket_connect_failed, socket_connect_one, socket_close_internal.
           cbn [curr_addr set_curr_addr set_fd set_state fd].
           rewrite Hcur. cbn [tl].
           match goal with
           | |- context [connect_from rest ?c ?v] =>
               destruct (IH fuel c v ltac:(lia) (Hrest Hfail) eq_refl (fun _ => eq_refl))
                 as (sock' & w' & ok & Hrun & Hcb & Hres)
           end.
           exists sock', w', ok. split; [exact Hrun|]. split.
           ++ rewrite Hcb, !callbacks_emit. cbn. rewrite !app_nil_r. reflexivity.
           ++ rewrite !closed_fds_emit in Hres. cbn [closed_fds] in Hres.
              rewrite !app_nil_r in Hres.
              destruct Hres as [(Hok & failed & good & rest' & -> & Hf & Hg & Hst & Hfd' & Hc' & Hcl)
                               | (Hok & Hall & Hfd' & Hcl)].
              ** left. split; [exact Hok|]. exists (ai :: failed), good, rest'.
                 repeat split; try assumption.
                 --- constructor; assumption.
                 --- rewrite Hcl, <- app_assoc. reflexivity.
              ** right. repeat split; try assumption.
                 --- constructor; assumption.
                 --- rewrite Hcl, <- app_assoc. reflexivity.
      * (* connect() fails at once *)
        assert (Hfail : attempt_ok ai = false)
          by (unfold attempt_ok; rewrite Ec, Ep; reflexivity).
        unfold socket_close_internal. cbn [fd set_fd].
        match goal with
        | |- context [connect_from rest ?c ?v] =>
            destruct (IH fuel c v ltac:(lia) (Hrest Hfail) eq_refl (fun _ => eq_refl))
              as (sock' & w' & ok & Hrun & Hcb & Hres)
        end.
        exists sock', w', ok. split; [exact Hrun|]. split.
        -- rewrite Hcb, !callbacks_emit. cbn. rewrite !app_nil_r. reflexivity.
        -- rewrite !closed_fds_emit in Hres. cbn [closed_fds] in Hres.
           rewrite !app_nil_r in Hres.
           destruct Hres as [(Hok & failed & good & rest' & -> & Hf & Hg & Hst & Hfd' & Hc' & Hcl)
                            | (Hok & Hall & Hfd' & Hcl)].
           ++ left. split; [exact Hok|]. exists (ai :: failed), good, rest'.
              repeat split; try assumption.
              ** constructor; assumption.
              ** rewrite Hcl, <- app_assoc. reflexivity.
           ++ right. repeat split; try assumption.
              ** constructor; assumption.
              ** rewrite Hcl, <- app_assoc. reflexivity.
Qed.

(** The attempts from [addrs] on when socket() or getsockopt() fails for a
    candidate that comes to be tried: the process exits, and no callback
    has been called. *)
Lemma connect_from_exits (addrs : list addrinfo) :
  forall (fuel : nat) sock (w : world),
  (List.length addrs <= fuel)%nat -> forallb attempt_runs (tried addrs) = false ->
  curr_addr sock = addrs ->
  exists w',
    await_connect deflate buf_size fuel (connect_from addrs sock w) = Exited 1 w' /\
    callbacks (trace w') = callbacks (trace w).
Proof.
  induction addrs as [|ai rest IH]; intros fuel sock w Hfuel Hruns Hcur.
  - discriminate Hruns.
  - cbn [tried] in Hruns. cbn [List.length] in Hfuel. cbn [connect_from].
    destruct (ai_socket ai <? 0) eqn:Es.
    { rewrite await_connect_exited. eexists. split; [reflexivity|].
      rewrite callbacks_emit. cbn. apply app_nil_r. }
    assert (Hsock : (0 <=? ai_socket ai) = true)
      by (apply Z.leb_le; apply Z.ltb_ge in Es; exact Es).
    destruct (ai_connect ai) as [|e] eqn:Ec.
    + (* connect() succeeds at once: the attempt runs *)
      exfalso.
      assert (Hok : attempt_ok ai = true) by (unfold attempt_ok; rewrite Ec; reflexivity).
      assert (Hai : attempt_runs ai = true)
        by (unfold attempt_runs; rewrite Hsock, Ec; reflexivity).
      rewrite Hok in Hruns. cbn [forallb] in Hruns. rewrite Hai in Hruns.
      discriminate Hruns.
    + destruct (in_progress e) eqn:Ep; cbn [negb].
      * destruct fuel as [|fuel]; [lia|]. cbn [await_connect].
        cbn [state fd curr_addr set_state set_fd sck_state_eqb andb].
        rewrite Hsock, Hcur. cbn [andb].
        unfold socket_fd_cb.
        replace (has_event POLLOUT POLLERR) with false by reflexivity.
        cbn [orb state set_state sck_state_eqb].
        destruct (ai_so_error ai) as [soerr|] eqn:Eso.
        -- destruct (soerr =? 0) eqn:E0; cbn [negb].
           ++ exfalso.
              assert (Hok : attempt_ok ai = true)
                by (unfold attempt_ok; rewrite Ec, Ep, Eso, E0; reflexivity).
              assert (Hai : attempt_runs ai = true)
                by (unfold attempt_runs; rewrite Hsock, Ec, Ep, Eso; reflexivity).
              rewrite Hok in Hruns. cbn [forallb] in Hruns. rewrite Hai in Hruns.
              discriminate Hruns.
           ++ assert (Hrest : forallb attempt_runs (tried rest) = false).
              { assert (Hok : attempt_ok ai = false)
                  by (unfold attempt_ok; rewrite Ec, Ep, Eso, E0; reflexivity).
                assert (Hai : attempt_runs ai = true)
                  by (unfold attempt_runs; rewrite Hsock, Ec, Ep, Eso; reflexivity).
                rewrite Hok in Hruns. cbn [forallb] in Hruns. rewrite Hai in Hruns.
                exact Hruns. }
              unfold socket_connect_failed, socket_connect_one, socket_close_internal.
              cbn [curr_addr set_curr_addr set_fd set_state fd].
              rewrite Hcur. cbn [tl].
              match goal with
              | |- context [connect_from rest ?c ?v] =>
                  destruct (IH fuel c v ltac:(lia) Hrest eq_refl) as (w' & Hrun & Hcb)
              end.
              exists w'. split; [exact Hrun|].
              rewrite Hcb, !callbacks_emit. cbn. rewrite !app_nil_r. reflexivity.
        -- rewrite await_connect_exited. eexists. split; [reflexivity|].
           rewrite !callbacks_emit. cbn. rewrite !app_nil_r. reflexivity.
      * assert (Hrest : forallb attempt_runs (tried rest) = false).
        { assert (Hok : attempt_ok ai = false)
            by (unfold attempt_ok; rewrite Ec, Ep; reflexivity).
          assert (Hai : attempt_runs ai = true)
            by (unfold attempt_runs; rewrite Hsock, Ec, Ep; reflexivity).
          rewrite Hok in Hruns. cbn [forallb] in Hruns. rewrite Hai in Hruns.
          exact Hruns. }
        unfold socket_close_internal. cbn [fd set_fd].
        match goal with
        | |- context [connect_from rest ?c ?v] =>
            destruct (IH fuel c v ltac:(lia) Hrest eq_refl) as (w' & Hrun & Hcb)
        end.
        exists w'. split; [exact Hrun|].
        rewrite Hcb, !callbacks_emit. cbn. rewrite !app_nil_r. reflexivity.
Qed.

(** C7 (as amended). For a host given by name (no tunnel):
    [socket_connect] followed by the readiness events of the attempts left
    in progress calls the connect-completed callback exactly once and no
    other callback, unless socket() or getsockopt() fails for a candidate
    that comes to be tried; then the process exits with status 1 and no
    callback has been called.  The callback is called with 1 for the first
    address in list order whose connect() completes, at once or after
    EINPROGRESS; every address before it has failed, has had its
    descriptor closed and has been stepped over by the cursor, which then
    stands on the address in use.  It is called with 0 only when the name
    does not resolve or every address has failed.  Candidates behind the
    one in use are not looked at. *)
Theorem connect_callback_once_unless_exit sock (w : world) (socketpair : option Z)
  (getaddrinfo : option (list addrinfo)) :
  tunnel (conf sock) = None ->
  let candidates := match getaddrinfo with Some addrs => addrs | None => [] end in
  let result :=
    await_connect deflate buf_size (List.length candidates)
      (socket_connect sock w socketpair getaddrinfo) in
  (forallb attempt_runs (tried candidates) = true ->
   exists sock' w' ok,
     result = Running sock' w' /\
     callbacks (trace w') = callbacks (trace w) ++ [Cb_connect ok] /\
     ((ok = 1 /\ exists failed good rest,
         getaddrinfo = Some (failed ++ good :: rest) /\
         Forall (fun a => attempt_ok a = false) failed /\ attempt_ok good = true /\
         state sock' = SCK_READY /\ fd sock' = ai_socket good /\
         curr_addr sock' = good :: rest /\
         closed_fds (trace w') = closed_fds (trace w) ++ map ai_socket failed)
      \/ (ok = 0 /\
          (getaddrinfo = None \/
           exists addrs, getaddrinfo = Some addrs /\
             Forall (fun a => attempt_ok a = false) addrs /\
             closed_fds (trace w') = closed_fds (trace w) ++ map ai_socket addrs))))
  /\ (forallb attempt_runs (tried candidates) = false ->
      exists w', result = Exited 1 w' /\ callbacks (trace w') = callbacks (trace w)).
Proof.
  intros Ht candidates result. subst result candidates.
  unfold socket_connect. rewrite Ht.
  destruct getaddrinfo as [[|ai addrs]|].
  - (* the name resolves to no address *)
    cbn [socket_connect_one connect_from curr_addr set_curr_addr socket_connect_bail
         List.length await_connect tried forallb].
    split; [intros _ | discriminate].
    eexists _, _, 0. split; [reflexivity|]. split.
    + rewrite !callbacks_emit. cbn. rewrite !app_nil_r. reflexivity.
    + right. split; [reflexivity|]. right. exists []. split; [reflexivity|].
      split; [constructor|].
      rewrite !closed_fds_emit. cbn. rewrite !app_nil_r. reflexivity.
  - unfold socket_connect_one. cbn [curr_addr set_curr_addr]. split; intros Hruns.
    + destruct (connect_from_completes (ai :: addrs) (List.length (ai :: addrs))
                  (set_curr_addr sock (ai :: addrs)) (w) (le_n _) Hruns eq_refl
                  ltac:(discriminate))
        as (sock' & w' & ok & Hrun & Hcb & Hres).
      exists sock', w', ok. split; [exact Hrun|]. split; [exact Hcb|].
      destruct Hres as [(Hok & failed & good & rest & E & Hres) | (Hok & Hall & _ & Hcl)].
      * left. split; [exact Hok|]. exists failed, good, rest.
        split; [rewrite E; reflexivity | exact Hres].
      * right. split; [exact Hok|]. right. exists (ai :: addrs).
        repeat split; assumption.
    + exact (connect_from_exits (ai :: addrs) (List.length (ai :: addrs))
               (set_curr_addr sock (ai :: addrs)) w (le_n _) Hruns eq_refl).
  - cbn [socket_connect_bail List.length await_connect tried forallb].
    split; [intros _ | discriminate].
    eexists _, _, 0. split; [reflexivity|]. split.
    + rewrite !callbacks_emit. cbn. rewrite !app_nil_r. reflexivity.
    + right. split; [reflexivity|]. left. reflexivity.
Qed.

End ConnectionProperties.

(** * The results on concrete data *)

Import Stored.

Lemma compressed_write_lost_on_would_block_witness :
  let conn := Samples.compressing 16 in
  let w := world_of [] [WriteFail EAGAIN; WriteCount 100] [] [] 0 in
  let buf := bytes_of "abc" in
  let outbuf := stored_block buf ++ sync_marker in
  out_z conn = Some (snd init) /\ ssl conn = None /\
  write_buf conn = [] /\ in_z_leftover conn = [] /\
  deflate_loop deflate 25 {| next_in := buf; z_state := z_state (snd init) |} [] 32
    = Deflated (snd init) outbuf /\
  would_block EAGAIN = true /\
  fst (fst (socket_write deflate conn w buf KeepOwn)) = 3 /\
  let ops := [Op_write buf KeepOwn; Op_drain; Op_drain] in
  let '(conn', w') := run_write_ops deflate ops conn w in
  payloads ops = buf /\
  sent_bytes (trace w') = [] /\
  write_buf conn' = [] /\ in_z_leftover conn' = [] /\
  sys_writes w' = [WriteCount 100].
Proof.
  intros conn w buf outbuf.
  assert (H1 : out_z conn = Some (snd init)) by reflexivity.
  assert (H2 : ssl conn = None) by reflexivity.
  assert (H3 : write_buf conn = []) by reflexivity.
  assert (H4 : in_z_leftover conn = []) by reflexivity.
  assert (H5 : deflate_loop deflate 25
                 {| next_in := buf; z_state := z_state (snd init) |} [] 32
               = Deflated (snd init) outbuf) by reflexivity.
  assert (H6 : sys_writes w = [WriteFail EAGAIN; WriteCount 100]) by reflexivity.
  assert (H7 : would_block EAGAIN = true) by reflexivity.
  split; [exact H1|]. split; [exact H2|]. split; [exact H3|]. split; [exact H4|].
  split; [exact H5|]. split; [exact H7|].
  exact (compressed_write_lost_on_would_block deflate conn w buf KeepOwn (snd init)
           (snd init) outbuf EAGAIN [WriteCount 100] 2 H1 H2 H3 H4 H5 H6 H7).
Defined.

Lemma host_matches_rule_witness :
  is_cstring "mail.example.com" = true /\ is_cstring "*.example.com" = true /\
  host_matches "mail.example.com" "*.example.com" = 1 /\
  exists pre suf, "mail.example.com"%string = (pre ++ "." ++ suf)%string
                  /\ has_char "." pre = false /\ lower suf = lower "example.com".
Proof.
  assert (H1 : is_cstring "mail.example.com" = true) by reflexivity.
  assert (H2 : is_cstring "*.example.com" = true) by reflexivity.
  split; [exact H1|]. split; [exact H2|].
  destruct (host_matches_rule "mail.example.com" "*.example.com" H1 H2)
    as (Hw & _ & _ & _ & Hm & _).
  split; [exact Hm|].
  exact (proj2 (proj1 (Hw "example.com"%string eq_refl) Hm)).
Defined.

Lemma socket_fill_stores_raw_bytes_witness :
  let conn := Samples.ready 16 in
  let data := stored_block (bytes_of "A") ++ sync_marker in
  let w := world_of [ReadBytes data] [] [] [] 0 in
  let sock := fst (socket_start_deflate init init conn no_world) in
  ssl conn = None /\ len_of (buf conn) = 16 /\ 0 <= offset conn /\ 0 <= bytes conn /\
  sys_reads w = [ReadBytes data] /\ data <> [] /\
  offset conn + bytes conn + len_of data <= 16 /\
  let '(sock', w') := socket_fill 16 sock w in
  in_z sock <> None /\
  sub_buf (buf sock') (offset conn + bytes conn) (len_of data) = data /\
  offset sock' = offset conn /\ bytes sock' = bytes conn + len_of data /\
  in_z sock' = in_z sock /\
  trace w' = trace w ++ [Cb_read].
Proof.
  intros conn data w sock.
  assert (H1 : ssl conn = None) by reflexivity.
  assert (H2 : len_of (buf conn) = 16) by reflexivity.
  assert (H3 : 0 <= offset conn) by (vm_compute; discriminate).
  assert (H4 : 0 <= bytes conn) by (vm_compute; discriminate).
  assert (H5 : sys_reads w = [ReadBytes data]) by reflexivity.
  assert (H6 : data <> []) by (vm_compute; discriminate).
  assert (H7 : offset conn + bytes conn + len_of data <= 16) by (vm_compute; discriminate).
  repeat (split; [assumption|]).
  exact (socket_fill_stores_raw_bytes_after_deflate init init 16 conn no_world w
           data [] H1 H2 H3 H4 H5 H6 H7).
Defined.

Lemma socket_fill_would_block_is_fatal_witness :
  let sock := Samples.ready 16 in
  let w := world_of [ReadFail EAGAIN] [] [] [] 0 in
  ssl sock = None /\ offset sock + bytes sock <> 16 /\
  sys_reads w = [ReadFail EAGAIN] /\ would_block EAGAIN = true /\
  let '(sock', w') := socket_fill 16 sock w in
  sock' = sock /\ trace w' = trace w ++ [Ev_error "Socket error: read from"; Cb_bad].
Proof.
  intros sock w.
  assert (H1 : ssl sock = None) by reflexivity.
  assert (H2 : offset sock + bytes sock <> 16) by (vm_compute; discriminate).
  assert (H3 : sys_reads w = [ReadFail EAGAIN]) by reflexivity.
  assert (H4 : would_block EAGAIN = true) by reflexivity.
  repeat (split; [assumption|]).
  exact (socket_fill_would_block_is_fatal 16 sock w EAGAIN [] H1 H2 H3 H4).
Defined.

Lemma socket_fill_buffer_full_witness :
  let sock := set_rd (Samples.ready 4) (bytes_of "abcd") 1 3 0 in
  let w := world_of [ReadBytes (bytes_of "e")] [] [] [] 0 in
  offset sock + bytes sock = 4 /\
  let '(sock', w') := socket_fill 4 sock w in
  sock' = sock /\
  sys_reads w' = sys_reads w /\ ssl_reads w' = ssl_reads w /\
  trace w' = trace w ++
    [Ev_error "Socket error: receive buffer full. Probably protocol error."; Cb_bad].
Proof.
  intros sock w.
  assert (H1 : offset sock + bytes sock = 4) by reflexivity.
  split; [exact H1|].
  exact (socket_fill_buffer_full 4 sock w H1).
Defined.

(** C7 (as stated) fails: when socket() gives no descriptor for the only
    candidate, the process exits and the connect-completed callback has
    not been called at all. *)
Lemma connect_exit_without_callback :
  exists w',
    await_connect deflate 16 1
      (socket_connect (fresh 16) no_world None (Some [Samples.no_descriptor]))
    = Exited 1 w' /\
    callbacks (trace w') = [] /\
    ~ (exists ok, connect_callbacks (trace w') = [ok]).
Proof.
  eexists. split; [reflexivity|]. split; [reflexivity|].
  intros (ok & K). discriminate K.
Qed.

Lemma connect_callback_once_unless_exit_witness :
  let sock := fresh 16 in
  let candidates := [refused_now; refused_later; accepted_later; Samples.no_descriptor] in
  tunnel (conf sock) = None /\
  forallb attempt_runs (tried candidates) = true /\
  exists sock' w',
    await_connect deflate 16 4 (socket_connect sock no_world None (Some candidates))
      = Running sock' w' /\
    callbacks (trace w') = [Cb_connect 1] /\
    fd sock' = 6 /\ curr_addr sock' = [accepted_later; Samples.no_descriptor] /\
    closed_fds (trace w') = [5; 5].
Proof.
  intros sock candidates.
  assert (H1 : tunnel (conf sock) = None) by reflexivity.
  assert (H3 : forallb attempt_runs (tried candidates) = true) by reflexivity.
  repeat (split; [assumption|]).
  destruct (proj1 (connect_callback_once_unless_exit deflate 16 sock no_world None
                     (Some candidates) H1) H3)
    as (sock' & w' & ok & Hrun & _).
  exists sock', w'. split; [exact Hrun|].
  vm_compute in Hrun. injection Hrun as <- <-. repeat split.
Defined.

Lemma do_write_resends_flushed_leftover_witness :
  let sock :=
    snd (fst (do_write deflate (Samples.compressing 16)
                (world_of [] [WriteCount 4] [] [] 0) (bytes_of "ab"))) in
  let w := world_of [] [WriteCount (2 ^ 30); WriteCount (2 ^ 30); WriteCount (2 ^ 30)] [] [] 0 in
  out_z sock <> None /\ ssl sock = None /\ in_z_leftover sock <> [] /\
  len_of (in_z_leftover sock) <= 2 ^ 30 /\
  sys_writes w = [WriteCount (2 ^ 30); WriteCount (2 ^ 30); WriteCount (2 ^ 30)] /\
  2 ^ 30 <= 2 ^ 30 /\
  let '(n1, sock1, w1) := do_write deflate sock w (bytes_of "cd") in
  let '(n2, sock2, w2) := do_write deflate sock1 w1 (bytes_of "ef") in
  exists m1 m2,
    sent_bytes (trace w2)
    = sent_bytes (trace w) ++ in_z_leftover sock ++ m1 ++ in_z_leftover sock ++ m2.
Proof.
  intros sock w.
  assert (H1 : out_z sock <> None) by (vm_compute; discriminate).
  assert (H2 : ssl sock = None) by reflexivity.
  assert (H3 : in_z_leftover sock <> []) by (vm_compute; discriminate).
  assert (H4 : len_of (in_z_leftover sock) <= 2 ^ 30) by (vm_compute; discriminate).
  assert (H5 : sys_writes w
               = [WriteCount (2 ^ 30); WriteCount (2 ^ 30); WriteCount (2 ^ 30)])
    by reflexivity.
  assert (H6 : 2 ^ 30 <= 2 ^ 30) by apply Z.le_refl.
  split; [exact H1|]. split; [exact H2|]. split; [exact H3|].
  split; [exact H4|]. split; [exact H5|]. split; [exact H6|].
  exact (do_write_resends_flushed_leftover deflate sock w (bytes_of "cd") (bytes_of "ef")
           (2 ^ 30) (2 ^ 30) (2 ^ 30) [] H1 H2 H3 H4 H5 H6 H6 H6).
Defined.

Lemma socket_read_line_two_lines_witness :
  let pre := bytes_of "xy" in
  let post := bytes_of "z" in
  let b := set_rd (Samples.ready 8)
             (pre ++ ["A"; "013"; "010"; "B"; "010"]%char ++ post) 2 5 0 in
  buf b = pre ++ ["A"; "013"; "010"; "B"; "010"]%char ++ post /\
  offset b = len_of pre /\ bytes b = 5 /\ scanoff b = 0 /\
  let '(r1, b1) := socket_read_line 8 b in
  let '(r2, b2) := socket_read_line 8 b1 in
  (r1 = Some (offset b) /\ string_at (buf b1) (offset b) = "A"%string /\
   offset b1 = offset b + 3 /\ bytes b1 = bytes b - 3 /\ scanoff b1 = 0) /\
  (r2 = Some (offset b + 3) /\ string_at (buf b2) (offset b + 3) = "B"%string /\
   offset b2 = offset b1 + 2 /\ bytes b2 = bytes b1 - 2 /\ scanoff b2 = 0) /\
  string_at (buf b2) (offset b) = "A"%string.
Proof.
  intros pre post b.
  assert (H1 : buf b = pre ++ ["A"; "013"; "010"; "B"; "010"]%char ++ post) by reflexivity.
  assert (H2 : offset b = len_of pre) by reflexivity.
  assert (H3 : bytes b = 5) by reflexivity.
  assert (H4 : scanoff b = 0) by reflexivity.
  repeat (split; [assumption|]).
  exact (socket_read_line_two_lines 8 b pre post H1 H2 H3 H4).
Defined.

Lemma tls_pending_fake_event_witness :
  let sock :=
    set_write_buf
      (set_ssl (set_fd (set_rd (fresh 4) (repeat NUL 4) 0 2 0) 7) (Some tls_session))
      [{| bc_data := bytes_of "ab"; bc_own := KeepOwn |}] in
  let w := world_of [] [] [SslRead (bytes_of "pqrs") 3] [SslWrote 2] 5 in
  ssl sock = Some tls_session /\
  (let '(sock', w') := socket_fill 4 sock w in
   trace w' = trace w ++ [Ev_fake_fd (fd sock) POLLIN; Cb_read]) /\
  (let '(r, sock', w') := do_queued_write deflate sock w in
   write_buf sock' = [] ->
   r = write_callback_ret w /\
   exists t, trace w' = t ++ [Ev_fake_fd (fd sock) POLLIN; Cb_write]).
Proof.
  intros sock w.
  assert (H1 : ssl sock = Some tls_session) by reflexivity.
  split; [exact H1|].
  destruct (tls_pending_fake_event deflate 4 sock w tls_session H1) as [Hfill Hdrain].
  split.
  - apply (Hfill (bytes_of "pqrs") 3 []).
    + vm_compute. reflexivity.
    + reflexivity.
    + vm_compute. discriminate.
    + discriminate.
  - apply Hdrain; discriminate.
Defined.

(** * Further properties *)

(** ** Hostname matching: labels and case *)

Local Open Scope string_scope.

Lemma lower_length (s : string) : String.length (lower s) = String.length s.
Proof. induction s as [|c s IH]; cbn; [reflexivity | rewrite IH; reflexivity]. Qed.

Lemma string_length_app (a b : string) :
  String.length (a ++ b) = (String.length a + String.length b)%nat.
Proof. induction a as [|c a IH]; cbn; [reflexivity | rewrite IH; reflexivity]. Qed.

Lemma has_char_app (c : ascii) (a b : string) :
  has_char c (a ++ b) = has_char c a || has_char c b.
Proof.
  induction a as [|x a IH]; cbn; [reflexivity|].
  rewrite IH. apply orb_assoc.
Qed.

(** Two splittings of one string at its first dot are the same one. *)
Lemma first_dot_unique (pre1 : string) : forall pre2 suf1 suf2 : string,
  pre1 ++ "." ++ suf1 = pre2 ++ "." ++ suf2 ->
  has_char "." pre1 = false -> has_char "." pre2 = false ->
  pre1 = pre2 /\ suf1 = suf2.
Proof.
  induction pre1 as [|x pre1 IH]; intros [|y pre2] suf1 suf2 E H1 H2; cbn in *.
  - injection E as ->. split; reflexivity.
  - injection E as <- _. cbn in H2. discriminate.
  - injection E as -> _. cbn in H1. discriminate.
  - injection E as -> E. apply orb_false_iff in H1 as [_ H1].
    apply orb_false_iff in H2 as [_ H2].
    destruct (IH pre2 suf1 suf2 E H1 H2) as [-> ->]. split; reflexivity.
Qed.

(** When a wildcard pattern matches. *)
Lemma host_matches_wildcard_iff (host rest : string) :
  is_cstring host = true -> is_cstring rest = true ->
  (host_matches host ("*." ++ rest) = 1 <->
   rest <> "" /\
   exists pre suf, host = pre ++ "." ++ suf /\ has_char "." pre = false
                   /\ lower suf = lower rest).
Proof.
  intros Hh Hr. rewrite host_matches_wildcard. split.
  - intros H0.
    destruct (strchr host ".") as [h|] eqn:E; [|discriminate].
    apply strchr_some in E as (pre & -> & Hpre & Hd).
    apply is_cstring_app in Hh as [_ Hh].
    destruct h as [|d suf]; [discriminate Hd|]. cbn in Hd. subst d.
    apply is_cstring_cons in Hh as [_ Hs].
    cbn [ptr_add] in H0. apply (proj1 (host_tail_spec suf rest Hs Hr)) in H0.
    split; [tauto|]. exists pre, suf. tauto.
  - intros (Hne & pre & suf & -> & Hpre & Hl).
    apply is_cstring_app in Hh as [Hc Hs].
    change ("." ++ suf) with (String "." suf) in *.
    rewrite (strchr_split "." pre suf Hc Hpre). cbn [ptr_add].
    apply is_cstring_cons in Hs as [_ Hs].
    apply (host_tail_spec suf rest Hs Hr). repeat split; [|assumption..].
    intros ->. destruct rest; [contradiction | discriminate].
Qed.

(** X1. A pattern "*." ++ rest stands for exactly one leading label, which may
    be empty: it matches label ++ "." ++ rest for every dot-free label, it
    does not match rest itself, and it does not match a host with two
    labels in front of rest. *)
Theorem host_matches_wildcard_one_label (label label2 rest : string) :
  is_cstring label = true -> is_cstring label2 = true -> is_cstring rest = true ->
  has_char "." label = false -> rest <> "" ->
  host_matches (label ++ "." ++ rest) ("*." ++ rest) = 1 /\
  host_matches rest ("*." ++ rest) = 0 /\
  host_matches (label ++ "." ++ label2 ++ "." ++ rest) ("*." ++ rest) = 0.
Proof.
  intros Hl Hl2 Hr Hd Hne.
  assert (Hzero : forall h, is_cstring h = true ->
            ~ (exists pre suf, h = pre ++ "." ++ suf /\ has_char "." pre = false
                               /\ lower suf = lower rest) ->
            host_matches h ("*." ++ rest) = 0).
  { intros h Hh Hno.
    destruct (host_matches_01 h ("*." ++ rest)) as [E | E]; [exact E|].
    apply (proj1 (host_matches_wildcard_iff h rest Hh Hr)) in E.
    destruct E as [_ E]. contradiction. }
  split; [|split].
  - apply host_matches_wildcard_iff.
    + apply is_cstring_app. split; [exact Hl|].
      apply is_cstring_app. split; [reflexivity | exact Hr].
    + exact Hr.
    + split; [exact Hne|]. exists label, rest. repeat split. exact Hd.
  - apply Hzero; [exact Hr|].
    intros (pre & suf & E & _ & Hs).
    apply (f_equal String.length) in Hs. rewrite !lower_length in Hs.
    apply (f_equal String.length) in E.
    rewrite !string_length_app in E. cbn in E. lia.
  - apply Hzero.
    + repeat (apply is_cstring_app; split; try assumption; try reflexivity).
    + intros (pre & suf & E & Hpre & Hs).
      destruct (first_dot_unique label pre (label2 ++ "." ++ rest) suf E Hd Hpre)
        as [_ <-].
      apply (f_equal String.length) in Hs. rewrite !lower_length in Hs.
      rewrite !string_length_app in Hs. cbn in Hs. lia.
Qed.

Lemma tolower_fixes_marks (c : ascii) :
  (tolower c = "*"%char <-> c = "*"%char) /\ (tolower c = "."%char <-> c = "."%char).
Proof.
  destruct c as [b0 b1 b2 b3 b4 b5 b6 b7].
  destruct b0, b1, b2, b3, b4, b5, b6, b7; vm_compute; split; split; congruence.
Qed.

Lemma lower_empty (s : string) : lower s = "" <-> s = "".
Proof. destruct s; cbn; split; congruence. Qed.

Lemma eqb_same_fold (x y m : ascii) :
  tolower x = tolower y -> (tolower m = m) ->
  (forall c, tolower c = m <-> c = m) ->
  Ascii.eqb x m = Ascii.eqb y m.
Proof.
  intros E _ Hm.
  destruct (Ascii.eqb x m) eqn:Ex, (Ascii.eqb y m) eqn:Ey; try reflexivity.
  - apply Ascii.eqb_eq in Ex. apply Ascii.eqb_neq in Ey. subst x.
    exfalso. apply Ey. apply Hm. rewrite <- E. apply Hm. reflexivity.
  - apply Ascii.eqb_eq in Ey. apply Ascii.eqb_neq in Ex. subst y.
    exfalso. apply Ex. apply Hm. rewrite E. apply Hm. reflexivity.
Qed.

(** What follows the first dot depends on the host only up to case. *)
Lemma strchr_dot_fold (h : string) : forall h' : string,
  is_cstring h = true -> is_cstring h' = true -> lower h = lower h' ->
  match strchr h ".", strchr h' "." with
  | Some s, Some s' =>
      lower (ptr_add s 1) = lower (ptr_add s' 1) /\
      is_cstring (ptr_add s 1) = true /\ is_cstring (ptr_add s' 1) = true
  | None, None => True
  | _, _ => False
  end.
Proof.
  induction h as [|x h IH]; intros [|y h'] Hh Hh' E; cbn in E; try discriminate.
  - cbn. exact I.
  - injection E as Exy E.
    apply is_cstring_cons in Hh as [Hx Hh]. apply is_cstring_cons in Hh' as [Hy Hh'].
    cbn [strchr].
    rewrite (eqb_same_fold x y "."%char Exy eq_refl (fun c => proj2 (tolower_fixes_marks c))).
    destruct (Ascii.eqb y ".").
    + cbn [ptr_add]. repeat split; assumption.
    + apply Ascii.eqb_neq in Hx, Hy. rewrite Hx, Hy. apply IH; assumption.
Qed.

Lemma host_tail_fold (h p h' p' : string) :
  is_cstring h = true -> is_cstring p = true ->
  is_cstring h' = true -> is_cstring p' = true ->
  lower h = lower h' -> lower p = lower p' ->
  truth (negb (Ascii.eqb (deref h) NUL) && negb (Ascii.eqb (deref p) NUL)
         && (strcasecmp h p =? 0)%Z)
  = truth (negb (Ascii.eqb (deref h') NUL) && negb (Ascii.eqb (deref p') NUL)
           && (strcasecmp h' p' =? 0)%Z).
Proof.
  intros Hh Hp Hh' Hp' Eh Ep.
  pose proof (host_tail_spec h p Hh Hp) as S1.
  pose proof (host_tail_spec h' p' Hh' Hp') as S2.
  assert (K : (h <> "" /\ p <> "" /\ lower h = lower p)
              <-> (h' <> "" /\ p' <> "" /\ lower h' = lower p')).
  { rewrite <- (lower_empty h), <- (lower_empty p), <- (lower_empty h'),
      <- (lower_empty p'), Eh, Ep. reflexivity. }
  destruct (truth_01 (negb (Ascii.eqb (deref h) NUL) && negb (Ascii.eqb (deref p) NUL)
                      && (strcasecmp h p =? 0)%Z)) as [A | A];
  destruct (truth_01 (negb (Ascii.eqb (deref h') NUL) && negb (Ascii.eqb (deref p') NUL)
                      && (strcasecmp h' p' =? 0)%Z)) as [B | B];
  rewrite A, B; try reflexivity; exfalso.
  - apply S2, K, S1 in B. rewrite A in B. discriminate.
  - apply S1, K, S2 in A. rewrite B in A. discriminate.
Qed.

(** X2. Matching looks at host and pattern only up to the case of their
    letters. *)
Theorem host_matches_ignores_case (host pattern host' pattern' : string) :
  is_cstring host = true -> is_cstring pattern = true ->
  is_cstring host' = true -> is_cstring pattern' = true ->
  lower host = lower host' -> lower pattern = lower pattern' ->
  host_matches host pattern = host_matches host' pattern'.
Proof.
  intros Hh Hp Hh' Hp' Eh Ep. unfold host_matches.
  assert (Hstar : Ascii.eqb (deref pattern) "*" = Ascii.eqb (deref pattern') "*"
                  /\ Ascii.eqb (deref (ptr_add pattern 1)) "."
                     = Ascii.eqb (deref (ptr_add pattern' 1)) "."
                  /\ lower (ptr_add pattern 2) = lower (ptr_add pattern' 2)
                  /\ is_cstring (ptr_add pattern 2) = true
                  /\ is_cstring (ptr_add pattern' 2) = true).
  { destruct pattern as [|a [|b r]], pattern' as [|a' [|b' r']]; cbn in Ep;
      try discriminate; cbn [deref ptr_add].
    - repeat split.
    - injection Ep as Ea. repeat split.
      apply (eqb_same_fold a a' "*"%char Ea eq_refl (fun c => proj1 (tolower_fixes_marks c))).
    - injection Ep as Ea Eb Er.
      apply is_cstring_cons in Hp as [_ Hp]. apply is_cstring_cons in Hp as [_ Hp].
      apply is_cstring_cons in Hp' as [_ Hp']. apply is_cstring_cons in Hp' as [_ Hp'].
      repeat split; try assumption.
      + apply (eqb_same_fold a a' "*"%char Ea eq_refl (fun c => proj1 (tolower_fixes_marks c))).
      + apply (eqb_same_fold b b' "."%char Eb eq_refl (fun c => proj2 (tolower_fixes_marks c))). }
  destruct Hstar as (E1 & E2 & E3 & C1 & C2). rewrite E1, E2.
  destruct (Ascii.eqb (deref pattern') "*" && Ascii.eqb (deref (ptr_add pattern' 1)) ".").
  - pose proof (strchr_dot_fold host host' Hh Hh' Eh) as K.
    destruct (strchr host ".") as [s|], (strchr host' ".") as [s'|];
      try contradiction; [|reflexivity].
    destruct K as (K1 & K2 & K3). apply host_tail_fold; assumption.
  - apply host_tail_fold; assumption.
Qed.

Local Close Scope string_scope.

(** ** More on buffers *)

Lemma firstn_plus {A : Type} (x y : nat) (l : list A) :
  firstn (x + y) l = firstn x l ++ firstn y (skipn x l).
Proof.
  revert l. induction x as [|x IH]; intros l; [reflexivity|].
  destruct l as [|a l]; cbn; [rewrite firstn_nil; reflexivity|].
  rewrite IH. reflexivity.
Qed.

(** A range of the buffer splits into two adjacent ranges. *)
Lemma sub_buf_add (b : list ascii) (o x y : Z) :
  0 <= o -> 0 <= x -> 0 <= y ->
  sub_buf b o (x + y) = sub_buf b o x ++ sub_buf b (o + x) y.
Proof.
  intros Ho Hx Hy. unfold sub_buf.
  replace (Z.to_nat (x + y)) with (Z.to_nat x + Z.to_nat y)%nat by lia.
  replace (Z.to_nat (o + x)) with (Z.to_nat x + Z.to_nat o)%nat by lia.
  rewrite <- skipn_skipn. apply firstn_plus.
Qed.

Lemma sub_buf_nil (b : list ascii) (o : Z) : sub_buf b o 0 = [].
Proof. reflexivity. Qed.

Lemma len_of_sub_buf (b : list ascii) (o n : Z) :
  0 <= o -> 0 <= n -> o + n <= len_of b -> len_of (sub_buf b o n) = n.
Proof.
  unfold sub_buf, len_of. intros Ho Hn H.
  rewrite length_firstn, length_skipn. lia.
Qed.

Lemma len_of_poke (b : list ascii) (n : Z) (d : list ascii) :
  0 <= n -> n + len_of d <= len_of b -> len_of (poke b n d) = len_of b.
Proof.
  unfold poke, len_of. intros Hn H.
  rewrite !length_app, length_firstn, length_skipn. lia.
Qed.

Lemma skipn_app_le {A : Type} (k : nat) (a x : list A) :
  (k <= List.length a)%nat -> skipn k (a ++ x) = skipn k a ++ x.
Proof.
  intros H. rewrite skipn_app.
  replace (k - List.length a)%nat with O by lia. reflexivity.
Qed.

Lemma skipn_app_ge {A : Type} (k : nat) (a x : list A) :
  (List.length a <= k)%nat -> skipn k (a ++ x) = skipn (k - List.length a) x.
Proof.
  intros H. rewrite skipn_app, (skipn_all2 a) by lia. reflexivity.
Qed.

Lemma firstn_app_le {A : Type} (k : nat) (a x : list A) :
  (k <= List.length a)%nat -> firstn k (a ++ x) = firstn k a.
Proof.
  intros H. rewrite firstn_app.
  replace (k - List.length a)%nat with O by lia.
  cbn [firstn]. apply app_nil_r.
Qed.

Lemma firstn_app_ge {A : Type} (k : nat) (a x : list A) :
  (List.length a <= k)%nat -> firstn k (a ++ x) = a ++ firstn (k - List.length a) x.
Proof.
  intros H. rewrite firstn_app, (firstn_all2 (n := k) a) by lia. reflexivity.
Qed.

(** The buffer seen as what lies before a [poke], what it overwrites and
    what lies after it. *)
Lemma poke_split (b : list ascii) (n : Z) (d : list ascii) :
  0 <= n -> n + len_of d <= len_of b ->
  exists P M Q, b = P ++ M ++ Q /\ poke b n d = P ++ d ++ Q /\
    List.length P = Z.to_nat n /\ List.length M = List.length d.
Proof.
  unfold len_of, poke. intros Hn Hl.
  exists (firstn (Z.to_nat n) b),
         (firstn (List.length d) (skipn (Z.to_nat n) b)),
         (skipn (Z.to_nat n + List.length d) b).
  repeat split.
  - replace (Z.to_nat n + List.length d)%nat with (List.length d + Z.to_nat n)%nat by lia.
    rewrite <- skipn_skipn, !firstn_skipn. reflexivity.
  - rewrite length_firstn. lia.
  - rewrite length_firstn, length_skipn. lia.
Qed.

(** Reading a range that ends where a [poke] starts, together with what
    was poked. *)
Lemma sub_buf_poke_after (b : list ascii) (o n : Z) (d : list ascii) :
  0 <= o <= n -> n + len_of d <= len_of b ->
  sub_buf (poke b n d) o (n - o + len_of d) = sub_buf b o (n - o) ++ d.
Proof.
  intros Ho Hl.
  destruct (poke_split b n d ltac:(lia) Hl) as (P & M & Q & -> & -> & HP & HM).
  unfold sub_buf, len_of.
  rewrite !skipn_app_le by lia.
  replace (Z.to_nat (n - o + Z.of_nat (List.length d)))
    with (List.length (skipn (Z.to_nat o) P) + List.length d)%nat
    by (rewrite length_skipn; lia).
  rewrite firstn_app_2, firstn_app_le, firstn_all by lia.
  rewrite firstn_app_le by (rewrite length_skipn; lia).
  rewrite firstn_all2 by (rewrite length_skipn; lia).
  reflexivity.
Qed.

(** A [poke] does not show in a range that lies before it or after it. *)
Lemma sub_buf_poke_other (b : list ascii) (n : Z) (d : list ascii) (o m : Z) :
  0 <= n -> n + len_of d <= len_of b -> 0 <= o -> 0 <= m ->
  (o + m <= n \/ n + len_of d <= o) ->
  sub_buf (poke b n d) o m = sub_buf b o m.
Proof.
  intros Hn Hl Ho Hm Hcase.
  destruct (poke_split b n d Hn Hl) as (P & M & Q & -> & -> & HP & HM).
  unfold sub_buf, len_of in *. destruct Hcase as [H | H].
  - rewrite !skipn_app_le by lia.
    rewrite !firstn_app_le by (rewrite length_skipn; lia). reflexivity.
  - rewrite !(skipn_app_ge _ P) by lia.
    rewrite (skipn_app_ge _ d), (skipn_app_ge _ M) by lia.
    rewrite HM. reflexivity.
Qed.

Section MoreConnectionProperties.

Context {internal_state : Type}.
Variable deflate : z_stream (internal_state := internal_state) -> nat
                   -> Z * z_stream (internal_state := internal_state) * list ascii.
Variable inflateInit2 deflateInit2 : Z * z_stream (internal_state := internal_state).
Variable buf_size : Z.

Implicit Types sock conn b : conn_t (internal_state := internal_state).

(** ** Consuming from the read buffer *)

(** X3. Two reads in a row deliver what one read of the two lengths together
    delivers, and leave the connection in the same state. *)
Theorem socket_read_split conn (len1 len2 : Z) :
  read_buffer_ok buf_size conn -> 0 <= len1 -> 0 <= len2 ->
  let '(n1, out1, conn1) := socket_read conn len1 in
  let '(n2, out2, conn2) := socket_read conn1 len2 in
  socket_read conn (len1 + len2) = (n1 + n2, out1 ++ out2, conn2).
Proof.
  intros (Hb & Ho & Hn & Hfit) H1 H2. unfold socket_read.
  destruct (len1 <? bytes conn) eqn:E1;
    [apply Z.ltb_lt in E1 | apply Z.ltb_ge in E1].
  - (* the first read leaves bytes behind *)
    destruct (bytes conn - len1 =? 0) eqn:Ez; [apply Z.eqb_eq in Ez; lia|].
    cbn [bytes offset buf scanoff set_rd].
    destruct (len2 <? bytes conn - len1) eqn:E2;
      [apply Z.ltb_lt in E2 | apply Z.ltb_ge in E2].
    + destruct (len1 + len2 <? bytes conn) eqn:E3; [|apply Z.ltb_ge in E3; lia].
      destruct (bytes conn - len1 - len2 =? 0) eqn:Ez2; [apply Z.eqb_eq in Ez2; lia|].
      destruct (bytes conn - (len1 + len2) =? 0) eqn:Ez3; [apply Z.eqb_eq in Ez3; lia|].
      rewrite sub_buf_add by lia.
      replace (bytes conn - (len1 + len2)) with (bytes conn - len1 - len2) by lia.
      replace (offset conn + (len1 + len2)) with (offset conn + len1 + len2) by lia.
      reflexivity.
    + destruct (len1 + len2 <? bytes conn) eqn:E3; [apply Z.ltb_lt in E3; lia|].
      replace (bytes conn - len1 - (bytes conn - len1)) with 0 by lia.
      rewrite Z.sub_diag. cbn [Z.eqb].
      rewrite <- (sub_buf_add (buf conn) (offset conn) len1 (bytes conn - len1)) by lia.
      replace (len1 + (bytes conn - len1)) with (bytes conn) by lia.
      reflexivity.
  - (* the first read empties the buffer *)
    rewrite Z.sub_diag. cbn [Z.eqb bytes offset buf scanoff set_rd].
    destruct (len2 <? 0) eqn:E2; [apply Z.ltb_lt in E2; lia|].
    destruct (len1 + len2 <? bytes conn) eqn:E3; [apply Z.ltb_lt in E3; lia|].
    rewrite Z.sub_diag. cbn [Z.eqb]. rewrite sub_buf_nil, app_nil_r, Z.add_0_r.
    reflexivity.
Qed.

(** ** Filling, in general *)

(* The fill of a plain connection with room left; stated apart for the
   results on lines that arrive in pieces. *)
Lemma socket_fill_appends_plain conn (w : world) (data : list ascii)
  (rest : list read_result) :
  read_buffer_ok buf_size conn -> ssl conn = None ->
  offset conn + bytes conn < buf_size ->
  sys_reads w = ReadBytes data :: rest -> data <> [] ->
  let taken := firstn (Z.to_nat (buf_size - (offset conn + bytes conn))) data in
  let '(conn', w') := socket_fill buf_size conn w in
  unconsumed conn' = unconsumed conn ++ taken /\
  offset conn' = offset conn /\ bytes conn' = bytes conn + len_of taken /\
  scanoff conn' = scanoff conn /\ read_buffer_ok buf_size conn' /\
  sys_reads w' = rest /\ trace w' = trace w ++ [Cb_read].
Proof.
  intros (Hb & Ho & Hn & Hfit) Hs Hroom Hw Hd taken.
  assert (Hlen : 0 < len_of taken <= buf_size - (offset conn + bytes conn)).
  { unfold taken. rewrite len_of_firstn. unfold len_of.
    destruct data; [contradiction | cbn [List.length]; lia]. }
  unfold socket_fill.
  destruct (buf_size - (offset conn + bytes conn) =? 0) eqn:E;
    [apply Z.eqb_eq in E; lia|].
  rewrite Hs. unfold sys_read. rewrite Hw. fold taken.
  destruct (len_of taken =? 0) eqn:E0; [apply Z.eqb_eq in E0; lia|].
  unfold unconsumed, read_buffer_ok.
  cbn [buf offset bytes scanoff set_rd sys_reads emit trace].
  repeat split; try lia.
  - replace (bytes conn + len_of taken)
      with (offset conn + bytes conn - offset conn + len_of taken) by lia.
    rewrite sub_buf_poke_after by lia.
    replace (offset conn + bytes conn - offset conn) with (bytes conn) by lia.
    reflexivity.
  - rewrite len_of_poke by lia. exact Hb.
Qed.

(** X4. A fill on a plain connection appends to the unconsumed bytes as much of
    what read() delivers as the room behind them allows; offset and
    scanoff stay, the buffer keeps its size, and the read-ready callback
    follows. *)
Theorem socket_fill_appends conn (w : world) (data : list ascii)
  (rest : list read_result) :
  read_buffer_ok buf_size conn -> ssl conn = None ->
  offset conn + bytes conn < buf_size ->
  sys_reads w = ReadBytes data :: rest -> data <> [] ->
  let taken := firstn (Z.to_nat (buf_size - (offset conn + bytes conn))) data in
  let '(conn', w') := socket_fill buf_size conn w in
  unconsumed conn' = unconsumed conn ++ taken /\
  offset conn' = offset conn /\ bytes conn' = bytes conn + len_of taken /\
  scanoff conn' = scanoff conn /\ read_buffer_ok buf_size conn' /\
  sys_reads w' = rest /\ trace w' = trace w ++ [Cb_read].
Proof. intros; eapply socket_fill_appends_plain; eassumption. Qed.

(** ** Line extraction, in general *)

Lemma memchr_none (c : ascii) (s : list ascii) : forall n : nat,
  ~ In c (firstn n s) -> memchr s c n = None.
Proof.
  induction s as [|x s IH]; intros [|n] H; cbn [memchr]; try reflexivity.
  cbn [firstn] in H.
  destruct (Ascii.eqb x c) eqn:E.
  - apply Ascii.eqb_eq in E. exfalso. apply H. left. exact E.
  - rewrite IH; [reflexivity|]. intros K. apply H. right. exact K.
Qed.

Lemma memchr_first (c : ascii) (line : list ascii) : forall (tl : list ascii) (n : nat),
  ~ In c line -> (List.length line < n)%nat ->
  memchr (line ++ c :: tl) c n = Some (len_of line).
Proof.
  induction line as [|x line IH]; intros tl n H Hn.
  - destruct n; [lia|]. cbn [app memchr]. rewrite Ascii.eqb_refl. reflexivity.
  - destruct n; [cbn in Hn; lia|]. cbn [app memchr].
    destruct (Ascii.eqb x c) eqn:E.
    + apply Ascii.eqb_eq in E. exfalso. apply H. left. exact E.
    + rewrite IH; [|intros K; apply H; right; exact K | cbn in Hn; lia].
      unfold len_of. cbn [List.length]. f_equal. lia.
Qed.

(* The scan that finds no terminator; stated apart for the results on
   lines that arrive in pieces. *)
Lemma socket_read_line_no_terminator b :
  read_buffer_ok buf_size b -> 0 <= scanoff b <= bytes b ->
  ~ In LF (sub_buf (buf b) (offset b + scanoff b) (bytes b - scanoff b)) ->
  let '(r, b') := socket_read_line buf_size b in
  r = None /\ unconsumed b' = unconsumed b /\
  bytes b' = bytes b /\ scanoff b' = bytes b /\
  offset b' = (if offset b + bytes b =? buf_size then 0 else offset b) /\
  read_buffer_ok buf_size b'.
Proof.
  intros (Hb & Ho & Hn & Hfit) Hs Hno. unfold socket_read_line.
  unfold LF, sub_buf in Hno. rewrite (memchr_none _ _ _ Hno).
  cbn [offset bytes buf scanoff set_rd].
  destruct (offset b + bytes b =? buf_size) eqn:E.
  - apply Z.eqb_eq in E.
    assert (Hu : len_of (sub_buf (buf b) (offset b) (bytes b)) = bytes b)
      by (apply len_of_sub_buf; lia).
    unfold unconsumed, read_buffer_ok. cbn [offset bytes buf scanoff set_rd].
    repeat split; try lia.
    + rewrite <- Hu at 2. apply sub_buf_poke. lia.
    + rewrite len_of_poke by lia. exact Hb.
  - unfold unconsumed, read_buffer_ok. cbn [offset bytes buf scanoff set_rd].
    repeat split; lia || assumption.
Qed.

(** X5. Without a line terminator among the bytes not scanned yet,
    [socket_read_line] returns the null pointer and keeps the unconsumed
    bytes: in place when there is room behind them, moved to the start of
    the buffer when they reach its end.  scanoff then covers all of them. *)
Theorem socket_read_line_incomplete b :
  read_buffer_ok buf_size b -> 0 <= scanoff b <= bytes b ->
  ~ In LF (sub_buf (buf b) (offset b + scanoff b) (bytes b - scanoff b)) ->
  let '(r, b') := socket_read_line buf_size b in
  r = None /\ unconsumed b' = unconsumed b /\
  bytes b' = bytes b /\ scanoff b' = bytes b /\
  offset b' = (if offset b + bytes b =? buf_size then 0 else offset b) /\
  read_buffer_ok buf_size b'.
Proof. intros; eapply socket_read_line_no_terminator; eassumption. Qed.

Lemma sub_buf_past (pre mid : list ascii) (i n : Z) :
  0 <= i -> sub_buf (pre ++ mid) (len_of pre + i) n = sub_buf mid i n.
Proof. intros Hi. unfold sub_buf. rewrite skipn_past by assumption. reflexivity. Qed.

Lemma sub_buf_head (u post : list ascii) : sub_buf (u ++ post) 0 (len_of u) = u.
Proof.
  unfold sub_buf, len_of. cbn [Z.to_nat skipn]. rewrite Nat2Z.id.
  rewrite firstn_app, Nat.sub_diag, firstn_all. cbn [firstn]. apply app_nil_r.
Qed.

(** A buffer in order is what lies before the unconsumed bytes, these
    bytes, and what lies behind them. *)
Lemma read_buffer_parts b :
  read_buffer_ok buf_size b ->
  exists pre post, buf b = pre ++ unconsumed b ++ post /\
    len_of pre = offset b /\ len_of (unconsumed b) = bytes b.
Proof.
  intros (Hb & Ho & Hn & Hfit).
  exists (firstn (Z.to_nat (offset b)) (buf b)),
         (skipn (Z.to_nat (bytes b)) (skipn (Z.to_nat (offset b)) (buf b))).
  unfold unconsumed, sub_buf. rewrite !firstn_skipn. repeat split.
  - unfold len_of in *. rewrite length_firstn. lia.
  - unfold len_of in *. rewrite length_firstn, length_skipn. lia.
Qed.

(* The scan that finds the first line; stated apart for the results on
   lines that arrive in pieces. *)
Lemma socket_read_line_first_line b (line more : list ascii) :
  read_buffer_ok buf_size b -> unconsumed b = line ++ LF :: more ->
  0 <= scanoff b <= len_of line -> ~ In LF line ->
  let '(r, b') := socket_read_line buf_size b in
  r = Some (offset b) /\
  sub_buf (buf b') (offset b) (len_of (chomp_cr line) + 1) = chomp_cr line ++ [NUL] /\
  unconsumed b' = more /\
  offset b' = offset b + len_of line + 1 /\ bytes b' = len_of more /\
  scanoff b' = 0 /\ read_buffer_ok buf_size b'.
Proof.
  intros Hok Hu Hs Hno.
  destruct (read_buffer_parts b Hok) as (pre & post & Hbuf & Hpre & Hlen).
  destruct Hok as (Hb & Ho & Hn & Hfit).
  rewrite Hu in Hbuf, Hlen. rewrite len_of_app in Hlen.
  assert (Hcons : len_of (LF :: more) = 1 + len_of more)
    by (unfold len_of; cbn [List.length]; lia).
  assert (Hmore : len_of more = bytes b - len_of line - 1) by lia.
  pose proof (len_of_nonneg more) as Hm0. pose proof (len_of_nonneg line) as Hl0.
  set (mid := (line ++ LF :: more) ++ post) in *.
  assert (Hfind : memchr (skipn (Z.to_nat (scanoff b)) mid) "010"%char
                    (Z.to_nat (bytes b - scanoff b)) = Some (len_of line - scanoff b)).
  { unfold mid. rewrite <- !app_assoc. rewrite skipn_app_le by (unfold len_of in *; lia).
    cbn [app]. change "010"%char with LF.
    rewrite memchr_first.
    - unfold len_of in *. rewrite length_skipn. f_equal. lia.
    - intros K. apply Hno. rewrite <- (firstn_skipn (Z.to_nat (scanoff b)) line).
      apply in_or_app. right. exact K.
    - rewrite length_skipn. unfold len_of in *. lia. }
  rewrite (socket_read_line_found buf_size b pre mid _ Hbuf (eq_sym Hpre) ltac:(lia) Hfind).
  replace (scanoff b + (len_of line - scanoff b)) with (len_of line) by lia.
  set (p' := if negb (len_of line =? 0)
                 && Ascii.eqb (nth (Z.to_nat (len_of line - 1)) mid NUL) "013"%char
              then len_of line - 1 else len_of line).
  assert (Hkey : exists Y, poke mid p' [NUL] = (chomp_cr line ++ NUL :: Y) ++ more ++ post
                           /\ len_of (chomp_cr line ++ NUL :: Y) = len_of line + 1).
  { unfold chomp_cr. destruct (rev line) as [|c r] eqn:Er.
    - apply (f_equal (@rev ascii)) in Er. rewrite rev_involutive in Er. cbn in Er.
      subst line. exists []. subst p' mid. cbn. split; reflexivity.
    - apply (f_equal (@rev ascii)) in Er. rewrite rev_involutive in Er.
      cbn [rev] in Er.
      assert (Hnth : nth (Z.to_nat (len_of line - 1)) mid NUL = c).
      { unfold mid. rewrite Er, <- !app_assoc. cbn [app].
        replace (len_of (rev r ++ [c]) - 1) with (len_of (rev r) + 0)
          by (rewrite len_of_app; unfold len_of; cbn [List.length]; lia).
        rewrite nth_past by lia. reflexivity. }
      assert (Hnz : (len_of line =? 0) = false).
      { apply Z.eqb_neq. rewrite Er, len_of_app. unfold len_of. cbn [List.length]. lia. }
      subst p'. rewrite Hnth, Hnz. cbn [negb andb]. change "013"%char with CR.
      destruct (Ascii.eqb c CR) eqn:Ec.
      + apply Ascii.eqb_eq in Ec. rewrite Ec in Er. clear Hnth. exists [LF]. split.
        * unfold mid. rewrite Er, <- !app_assoc. cbn [app].
          replace (len_of (rev r ++ [CR]) - 1) with (len_of (rev r) + 0)
            by (rewrite len_of_app; unfold len_of; cbn [List.length]; lia).
          rewrite poke_past by lia. reflexivity.
        * rewrite Er, !len_of_app. unfold len_of. cbn [List.length]. lia.
      + exists []. split.
        * unfold mid. rewrite <- !app_assoc.
          replace (len_of line) with (len_of line + 0) at 1 by lia.
          rewrite poke_past by lia. reflexivity.
        * rewrite len_of_app. unfold len_of. cbn [List.length]. lia. }
  destruct Hkey as (Y & Hpoke & HY). rewrite Hpoke.
  unfold unconsumed, read_buffer_ok. cbn [buf offset bytes scanoff set_rd].
  assert (Hc0 : 0 <= len_of (chomp_cr line)) by apply len_of_nonneg.
  repeat split; try lia.
  - rewrite <- Hpre. rewrite <- (Z.add_0_r (len_of pre)).
    rewrite sub_buf_past by lia.
    change (chomp_cr line ++ NUL :: Y) with (chomp_cr line ++ [NUL] ++ Y).
    rewrite <- !app_assoc, (app_assoc (chomp_cr line) [NUL]).
    replace (len_of (chomp_cr line) + 1) with (len_of (chomp_cr line ++ [NUL]))
      by (rewrite len_of_app; reflexivity).
    apply sub_buf_head.
  - rewrite (app_assoc pre).
    replace (offset b + (len_of line + 1))
      with (len_of (pre ++ chomp_cr line ++ NUL :: Y) + 0)
      by (rewrite len_of_app; lia).
    rewrite sub_buf_past by lia.
    replace (bytes b - (len_of line + 1)) with (len_of more) by lia.
    apply sub_buf_head.
  - rewrite <- Hb, Hbuf. unfold mid. revert HY.
    generalize (chomp_cr line ++ NUL :: Y). intros X HX.
    rewrite !len_of_app, Hcons. lia.
Qed.

(** X6. With a terminated line at the start of the unconsumed bytes (and the
    scan position somewhere inside it), [socket_read_line] returns a
    pointer to their start, where the line now stands without its
    carriage return, closed by a NUL; what followed the terminator is what
    remains unconsumed, and scanoff is 0. *)
Theorem socket_read_line_extracts b (line more : list ascii) :
  read_buffer_ok buf_size b -> unconsumed b = line ++ LF :: more ->
  0 <= scanoff b <= len_of line -> ~ In LF line ->
  let '(r, b') := socket_read_line buf_size b in
  r = Some (offset b) /\
  sub_buf (buf b') (offset b) (len_of (chomp_cr line) + 1) = chomp_cr line ++ [NUL] /\
  unconsumed b' = more /\
  offset b' = offset b + len_of line + 1 /\ bytes b' = len_of more /\
  scanoff b' = 0 /\ read_buffer_ok buf_size b'.
Proof. intros; eapply socket_read_line_first_line; eassumption. Qed.

Lemma socket_read_line_frame b :
  ssl (snd (socket_read_line buf_size b)) = ssl b /\
  fd (snd (socket_read_line buf_size b)) = fd b.
Proof.
  unfold socket_read_line.
  destruct (memchr _ _ _); cbn; [split; reflexivity|].
  destruct (offset b + bytes b =? buf_size); split; reflexivity.
Qed.

(** X7. A line that arrives in two pieces: the scan of the first piece finds
    no terminator, a fill brings the rest, and the next scan, which starts
    where the first one stopped, returns the whole line and leaves what
    follows it. *)
Theorem socket_read_line_across_fills conn (w : world) (part1 part2 more : list ascii)
  (rest : list read_result) :
  read_buffer_ok buf_size conn -> ssl conn = None ->
  unconsumed conn = part1 -> 0 <= scanoff conn <= bytes conn ->
  ~ In LF part1 -> ~ In LF part2 ->
  sys_reads w = ReadBytes (part2 ++ LF :: more) :: rest ->
  (offset conn + bytes conn = buf_size \/
   offset conn + bytes conn + len_of (part2 ++ LF :: more) <= buf_size) ->
  bytes conn + len_of (part2 ++ LF :: more) <= buf_size ->
  let '(r1, conn1) := socket_read_line buf_size conn in
  let '(conn2, w2) := socket_fill buf_size conn1 w in
  let '(r3, conn3) := socket_read_line buf_size conn2 in
  r1 = None /\ r3 = Some (offset conn1) /\
  sub_buf (buf conn3) (offset conn1) (len_of (chomp_cr (part1 ++ part2)) + 1)
    = chomp_cr (part1 ++ part2) ++ [NUL] /\
  unconsumed conn3 = more /\ scanoff conn3 = 0 /\
  trace w2 = trace w ++ [Cb_read].
Proof.
  intros Hok Hssl Hu Hs Hno1 Hno2 Hw Hroom Hfit.
  set (data := part2 ++ LF :: more) in Hw, Hroom, Hfit.
  assert (Hdata : 0 < len_of data).
  { unfold data. rewrite len_of_app. unfold len_of. cbn [List.length]. lia. }
  assert (Hbytes : len_of part1 = bytes conn).
  { rewrite <- Hu. destruct Hok as (Hb & Ho & Hn & Hf).
    apply len_of_sub_buf; lia. }
  (* the first scan *)
  assert (Hno : ~ In LF (sub_buf (buf conn) (offset conn + scanoff conn)
                                 (bytes conn - scanoff conn))).
  { intros K. apply Hno1. rewrite <- Hu. unfold unconsumed.
    replace (bytes conn) with (scanoff conn + (bytes conn - scanoff conn)) by lia.
    destruct Hok as (Hb & Ho & Hn & Hf).
    rewrite sub_buf_add by lia. apply in_or_app. right. exact K. }
  pose proof (socket_read_line_no_terminator conn Hok Hs Hno) as H1.
  pose proof (proj1 (socket_read_line_frame conn)) as Hssl1.
  destruct (socket_read_line buf_size conn) as [r1 conn1].
  destruct H1 as (Hr1 & Hu1 & Hb1 & Hs1 & Ho1 & Hok1).
  cbn [snd] in Hssl1. rewrite Hssl in Hssl1.
  (* the fill *)
  assert (Hroom1 : offset conn1 + bytes conn1 + len_of data <= buf_size).
  { rewrite Ho1, Hb1. destruct (offset conn + bytes conn =? buf_size) eqn:E; [lia|].
    apply Z.eqb_neq in E. lia. }
  pose proof (socket_fill_appends_plain conn1 w data rest Hok1 Hssl1 ltac:(lia) Hw
                ltac:(unfold data; intros K; destruct part2; discriminate)) as H2.
  cbn zeta in H2.
  rewrite (firstn_len_of _ data) in H2 by lia.
  destruct (socket_fill buf_size conn1 w) as [conn2 w2].
  destruct H2 as (Hu2 & Ho2 & Hb2 & Hs2 & Hok2 & _ & Ht2).
  (* the second scan *)
  assert (Hline : unconsumed conn2 = (part1 ++ part2) ++ LF :: more).
  { rewrite Hu2, Hu1, Hu. unfold data. rewrite <- app_assoc. reflexivity. }
  assert (Hs3 : 0 <= scanoff conn2 <= len_of (part1 ++ part2)).
  { rewrite Hs2, Hs1, len_of_app. pose proof (len_of_nonneg part2). lia. }
  assert (Hno3 : ~ In LF (part1 ++ part2)).
  { intros K. apply in_app_or in K. destruct K as [K | K]; [exact (Hno1 K) | exact (Hno2 K)]. }
  pose proof (socket_read_line_first_line conn2 (part1 ++ part2) more Hok2 Hline Hs3 Hno3)
    as H3.
  destruct (socket_read_line buf_size conn2) as [r3 conn3].
  destruct H3 as (Hr3 & Hstr & Hu3 & _ & _ & Hs4 & _).
  rewrite Ho2 in Hr3, Hstr.
  repeat split; assumption.
Qed.

(** ** Reading over TLS *)

(** X8. A TLS read that yields no data leaves the connection as it was.  When
    OpenSSL wants to read it leaves no trace at all; when it wants to
    write, writable readiness is requested; every other failure is
    reported once, through the fatal-failure callback on a ready
    connection. *)
Theorem socket_fill_tls_no_data conn (w : world) (s : SSL) (ret : Z) (f : ssl_failure)
  (rest : list ssl_read_result) :
  ssl conn = Some s -> state conn = SCK_READY ->
  offset conn + bytes conn <> buf_size ->
  ssl_reads w = SslReadFail ret f :: rest ->
  let '(conn', w') := socket_fill buf_size conn w in
  conn' = conn /\ ssl_reads w' = rest /\
  trace w' = trace w ++
    match f with
    | Want_read => []
    | Want_write => [Ev_conf_fd (fd conn) POLLIN POLLOUT]
    | _ => [Ev_error "Socket error: secure read from"; Cb_bad]
    end.
Proof.
  intros Hs Hst Hroom Hw. unfold socket_fill.
  destruct (buf_size - (offset conn + bytes conn) =? 0) eqn:E;
    [apply Z.eqb_eq in E; lia|].
  rewrite Hs. unfold SSL_read. rewrite Hw.
  destruct f; cbn; rewrite ?Hst; cbn; rewrite <- ?app_assoc, ?app_nil_r;
    repeat split; reflexivity.
Qed.

(** ** The write-ready callback *)

Lemma write_callbacks_app (t1 t2 : list event) :
  write_callbacks (t1 ++ t2) = (write_callbacks t1 + write_callbacks t2)%nat.
Proof.
  induction t1 as [|e t1 IH]; [reflexivity|].
  destruct e; cbn [app write_callbacks]; rewrite IH; reflexivity.
Qed.

Lemma write_callbacks_emit (e : event) (w : world) :
  write_callbacks (trace (emit e w))
  = (write_callbacks (trace w) + write_callbacks [e])%nat.
Proof. cbn [emit trace]. apply write_callbacks_app. Qed.

Lemma do_write_inner_no_write_callback sock (w : world) (buf : list ascii) :
  write_callbacks (trace (snd (do_write_inner sock w buf))) = write_callbacks (trace w).
Proof.
  unfold do_write_inner, socket_fail. destruct (ssl sock).
  - unfold SSL_write, ssl_return, socket_fail.
    destruct (ssl_writes w) as [|[k | ret f] rs].
    + cbn. rewrite write_callbacks_app. cbn. lia.
    + cbn. rewrite write_callbacks_app. cbn. lia.
    + destruct f; cbn; try destruct (sck_state_eqb (state sock) SCK_STARTTLS); cbn;
        rewrite ?write_callbacks_app; cbn; rewrite ?write_callbacks_app; cbn; lia.
  - unfold sys_write. destruct (sys_writes w) as [|[k | e] rs].
    + cbn. rewrite write_callbacks_app. cbn. lia.
    + destruct (negb (len_of (firstn (Z.to_nat k) buf) =? len_of buf)); cbn;
        rewrite ?write_callbacks_app; cbn; rewrite ?write_callbacks_app; cbn; lia.
    + destruct (negb (would_block e)); cbn;
        rewrite ?write_callbacks_app; cbn; rewrite ?write_callbacks_app; cbn; lia.
Qed.

Lemma do_write_no_write_callback sock (w : world) (buf : list ascii) :
  let '(n, sock', w') := do_write deflate sock w buf in
  write_callbacks (trace w') = write_callbacks (trace w).
Proof.
  assert (Hd : forall sock (w : world) z,
    let '(n, sock', w') := do_write_deflate deflate sock w buf z in
    write_callbacks (trace w') = write_callbacks (trace w)).
  { intros c v z. unfold do_write_deflate, socket_fail.
    destruct (deflate_loop deflate 25 _ [] 32) as [z' outbuf | z' |].
    - pose proof (do_write_inner_no_write_callback (set_z c (in_z c) (Some z')) v outbuf) as H.
      destruct (do_write_inner (set_z c (in_z c) (Some z')) v outbuf) as [result v'].
      cbn [snd] in H.
      destruct ((0 <? result) && (result <? len_of outbuf));
        [|destruct (result <? 0)]; exact H.
    - rewrite !write_callbacks_emit. cbn. lia.
    - rewrite !write_callbacks_emit. cbn. lia. }
  unfold do_write. destruct (out_z sock) as [z|].
  - destruct (negb (in_z_leftover_len sock =? 0)); [|apply Hd].
    pose proof (do_write_inner_no_write_callback sock w (in_z_leftover sock)) as H.
    destruct (do_write_inner sock w (in_z_leftover sock)) as [result w1].
    cbn [snd] in H.
    destruct (result <? 0); [exact H|].
    destruct (result <? in_z_leftover_len sock); [exact H|].
    specialize (Hd sock w1 z).
    destruct (do_write_deflate deflate sock w1 buf z) as [[n sock'] w'].
    congruence.
  - pose proof (do_write_inner_no_write_callback sock w buf) as H.
    destruct (do_write_inner sock w buf) as [n w1]. exact H.
Qed.

Lemma queued_write_loop_no_write_callback (q : list buff_chunk_t) :
  forall conn (w : world),
  let '(r, conn', w') := queued_write_loop deflate q conn w in
  write_callbacks (trace w') = write_callbacks (trace w) /\
  (r = None ->
   write_offset conn' = match q with [] => write_offset conn | _ :: _ => 0 end).
Proof.
  induction q as [|bc rest IH]; intros conn w; cbn [queued_write_loop].
  - split; [reflexivity | intros _; reflexivity].
  - pose proof (do_write_no_write_callback conn w
                  (skipn (Z.to_nat (write_offset conn)) (bc_data bc))) as H.
    destruct (do_write deflate conn w _) as [[n conn1] w1].
    destruct (n <? 0); [split; [exact H | discriminate]|].
    destruct (negb (n =? bc_len bc - write_offset conn));
      [split; [exact H | discriminate]|].
    specialize (IH (dispose_chunk (set_write_offset conn1 0)) w1).
    destruct (queued_write_loop deflate rest _ w1) as [[r conn'] w'].
    destruct IH as [IH1 IH2]. split; [congruence|].
    intros Hr. rewrite (IH2 Hr). destruct rest; reflexivity.
Qed.

(* When a drain calls the write-ready callback; stated apart for the
   results on draining. *)
Lemma do_queued_write_callback_count conn (w : world) :
  let '(r, conn', w') := do_queued_write deflate conn w in
  match write_buf conn, write_buf conn' with
  | _ :: _, [] =>
      write_callbacks (trace w') = S (write_callbacks (trace w)) /\
      (exists t, trace w' = t ++ [Cb_write]) /\
      write_offset conn' = 0 /\ r = write_callback_ret w
  | _, _ => write_callbacks (trace w') = write_callbacks (trace w)
  end.
Proof.
  unfold do_queued_write.
  destruct (write_buf conn) as [|bc rest] eqn:Hq.
  - reflexivity.
  - pose proof (queued_write_loop_frame deflate (bc :: rest) conn w Hq) as Hf.
    pose proof (queued_write_loop_no_write_callback (bc :: rest) conn w) as Hc.
    destruct (queued_write_loop deflate (bc :: rest) conn w) as [[r conn'] w'].
    destruct Hf as (_ & _ & _ & Hret & Hr). destruct Hc as [Hc Hoff].
    destruct r as [r|].
    + destruct (write_buf conn') eqn:E; [|exact Hc].
      assert (K : Some r = None) by (apply Hr; reflexivity). discriminate.
    + rewrite (proj1 Hr eq_refl).
      assert (Hw : forall v : world,
                write_callbacks (trace v) = write_callbacks (trace w') ->
                write_callbacks (trace (emit Cb_write v)) = S (write_callbacks (trace w))).
      { intros v Hv. rewrite write_callbacks_emit, Hv, Hc. cbn. lia. }
      repeat split.
      * apply Hw. destruct (ssl conn'); [|reflexivity].
        destruct (negb (ssl_pending w' =? 0)); [|reflexivity].
        rewrite write_callbacks_emit. cbn. lia.
      * eexists. cbn [emit trace]. reflexivity.
      * apply Hoff. reflexivity.
      * rewrite <- Hret. destruct (ssl conn'); [|reflexivity].
        destruct (negb (ssl_pending w' =? 0)); reflexivity.
Qed.

(** X9. [do_queued_write] calls the write-ready callback exactly when it
    empties a queue that was not empty, and then once, as the last thing
    it does, with the write offset back at 0; its result is then what the
    callback returned. *)
Theorem do_queued_write_callback conn (w : world) :
  let '(r, conn', w') := do_queued_write deflate conn w in
  match write_buf conn, write_buf conn' with
  | _ :: _, [] =>
      write_callbacks (trace w') = S (write_callbacks (trace w)) /\
      (exists t, trace w' = t ++ [Cb_write]) /\
      write_offset conn' = 0 /\ r = write_callback_ret w
  | _, _ => write_callbacks (trace w') = write_callbacks (trace w)
  end.
Proof. intros; eapply do_queued_write_callback_count; eassumption. Qed.

(** ** Draining, queueing and failing *)

Lemma queued_write_loop_drains (k : Z) (rest : list write_result)
  (q : list buff_chunk_t) : forall conn (w : world),
  write_buf conn = q -> out_z conn = None -> ssl conn = None ->
  write_queue_ok conn -> Forall (fun bc => bc_len bc <= k) q ->
  sys_writes w = repeat (WriteCount k) (List.length q) ++ rest ->
  exists conn' w',
    queued_write_loop deflate q conn w = (None, conn', w') /\
    write_buf conn' = [] /\
    sent_bytes (trace w') = sent_bytes (trace w) ++ queued_bytes conn /\
    sys_writes w' = rest.
Proof.
  induction q as [|bc q IH]; intros conn w Hq Hz Hs Hok Hk Hw.
  - exists conn, w. unfold queued_bytes. rewrite Hq. cbn.
    rewrite skipn_nil, app_nil_r. repeat split; assumption.
  - cbn [queued_write_loop]. rewrite (do_write_plain deflate _ _ _ Hz).
    unfold write_queue_ok in Hok. rewrite Hq in Hok.
    inversion Hk as [|? ? Hbc Hk']; subst.
    set (tail := skipn (Z.to_nat (write_offset conn)) (bc_data bc)).
    assert (Htail : len_of tail = bc_len bc - write_offset conn).
    { unfold tail, bc_len, len_of in *. rewrite length_skipn. lia. }
    cbn [List.length repeat app] in Hw.
    destruct (do_write_inner_all conn w tail k _ Hs Hw ltac:(lia)) as (w1 & E & Hw1 & Hs1).
    rewrite E. cbn [fst snd]. rewrite Htail.
    destruct (bc_len bc - write_offset conn <? 0) eqn:En; [apply Z.ltb_lt in En; lia|].
    rewrite Z.eqb_refl. cbn [negb].
    set (conn1 := dispose_chunk (set_write_offset conn 0)).
    assert (Hq1 : write_buf conn1 = q) by (cbn; rewrite Hq; reflexivity).
    assert (Hok1 : write_queue_ok conn1).
    { unfold write_queue_ok. rewrite Hq1. cbn.
      destruct q as [|c ?]; [reflexivity|].
      unfold bc_len. pose proof (len_of_nonneg (bc_data c)). lia. }
    destruct (IH conn1 w1 Hq1 Hz Hs Hok1 Hk' Hw1) as (conn' & w' & E' & Hq' & Hs' & Hw').
    exists conn', w'. rewrite E'. repeat split; try assumption.
    rewrite Hs', Hs1. unfold queued_bytes. rewrite Hq1, Hq.
    cbn [write_offset conn1 dispose_chunk set_write_buf set_write_offset map
         List.concat skipn Z.to_nat].
    rewrite <- app_assoc. f_equal.
    unfold tail. rewrite skipn_app_le by (unfold bc_len, len_of in *; lia).
    reflexivity.
Qed.

(** X10. With a transport that takes every chunk whole, a drain on a plain
    connection without compression sends all that is queued, in order,
    with one write per chunk, leaves the queue empty and the write offset
    at 0, and ends with the write-ready callback. *)
Theorem do_queued_write_drains conn (w : world) (k : Z) (rest : list write_result) :
  out_z conn = None -> ssl conn = None -> write_queue_ok conn ->
  write_buf conn <> [] ->
  Forall (fun bc => bc_len bc <= k) (write_buf conn) ->
  sys_writes w = repeat (WriteCount k) (List.length (write_buf conn)) ++ rest ->
  let '(r, conn', w') := do_queued_write deflate conn w in
  r = write_callback_ret w /\ write_buf conn' = [] /\ write_offset conn' = 0 /\
  sent_bytes (trace w') = sent_bytes (trace w) ++ queued_bytes conn /\
  sys_writes w' = rest /\ exists t, trace w' = t ++ [Cb_write].
Proof.
  intros Hz Hs Hok Hne Hk Hw.
  destruct (queued_write_loop_drains k rest (write_buf conn) conn w eq_refl Hz Hs Hok Hk Hw)
    as (conn1 & w1 & E & Hq1 & Hsent & Hw1).
  pose proof (do_queued_write_callback_count conn w) as Hcb.
  pose proof (queued_write_loop_frame deflate (write_buf conn) conn w eq_refl) as Hf.
  unfold do_queued_write in *.
  destruct (write_buf conn) as [|bc q] eqn:Hq; [contradiction|].
  rewrite E in *. destruct Hf as (Hs1 & _ & _ & _ & _).
  rewrite Hs1, Hs in *. rewrite Hq1 in Hcb.
  destruct Hcb as (_ & Hlast & Hoff & Hr).
  repeat split; try assumption.
  rewrite sent_bytes_emit_other by discriminate. exact Hsent.
Qed.

(* The write side leaves the TLS handle of the connection alone. *)
Lemma run_write_ops_ssl (ops : list write_op) : forall conn (w : world),
  ssl (fst (run_write_ops deflate ops conn w)) = ssl conn.
Proof.
  induction ops as [|op ops IH]; intros conn w; [reflexivity|].
  destruct op as [buf takeOwn|]; cbn [run_write_ops].
  - unfold socket_write. destruct (write_buf conn) as [|bc q].
    + pose proof (do_write_frame deflate conn w buf) as Hf.
      destruct (do_write deflate conn w buf) as [[n conn1] w1].
      destruct Hf as (Hs & _).
      destruct (negb (n =? len_of buf) && (0 <=? n)); rewrite IH; exact Hs.
    + rewrite IH. reflexivity.
  - unfold do_queued_write. destruct (write_buf conn) as [|bc q] eqn:Hq.
    + apply IH.
    + pose proof (queued_write_loop_frame deflate (bc :: q) conn w Hq) as Hf.
      destruct (queued_write_loop deflate (bc :: q) conn w) as [[r conn1] w1].
      destruct Hf as (Hs & _). destruct r; rewrite IH; exact Hs.
Qed.

(** X25. On a connection without compression, for every sequence of
    [socket_write] calls and [do_queued_write] drains and every transport
    that takes any part of what it is offered or would block, what the
    transport has taken followed by what is still queued is what it had
    taken before followed by what was queued and then by the written
    payloads in call order; the write offset stays inside the head chunk,
    so only that chunk is ever partly transmitted; once the queue is empty
    the transport has taken exactly all of it; and on a plain connection
    one further drain empties the queue and completes the stream as soon
    as the transport takes each chunk whole. *)
Theorem write_stream_in_order (ops : list write_op) conn (w : world) :
  out_z conn = None -> write_fatal_free w = true -> write_queue_ok conn ->
  let '(conn', w') := run_write_ops deflate ops conn w in
  let stream := sent_bytes (trace w) ++ queued_bytes conn ++ payloads ops in
  sent_bytes (trace w') ++ queued_bytes conn' = stream /\
  write_queue_ok conn' /\
  (write_buf conn' = [] -> sent_bytes (trace w') = stream) /\
  (forall (k : Z) (rest : list write_result),
     ssl conn = None ->
     Forall (fun bc => bc_len bc <= k) (write_buf conn') ->
     sys_writes w' = repeat (WriteCount k) (List.length (write_buf conn')) ++ rest ->
     let '(r, conn2, w2) := do_queued_write deflate conn' w' in
     write_buf conn2 = [] /\ sent_bytes (trace w2) = stream /\ sys_writes w2 = rest).
Proof.
  intros Hz Hw Hok.
  pose proof (run_write_ops_ssl ops conn w) as Hssl.
  destruct (run_write_ops_inv deflate ops conn w Hz Hw Hok)
    as (conn' & w' & E & Hs & Hok' & Hz').
  rewrite E in *. cbn [fst] in Hssl. cbv zeta.
  assert (Hempty : write_buf conn' = [] ->
            sent_bytes (trace w')
            = sent_bytes (trace w) ++ queued_bytes conn ++ payloads ops).
  { intros Hq. rewrite <- Hs. unfold queued_bytes. rewrite Hq. cbn.
    rewrite skipn_nil, app_nil_r. reflexivity. }
  repeat split; try assumption.
  intros k rest Hplain Hk Hrest. rewrite <- Hssl in Hplain.
  unfold do_queued_write.
  destruct (write_buf conn') as [|bc q] eqn:Hq.
  - repeat split; [exact Hq | apply Hempty; reflexivity | exact Hrest].
  - destruct (queued_write_loop_drains k rest (bc :: q) conn' w' Hq Hz' Hplain Hok' Hk Hrest)
      as (conn2 & w2 & E2 & Hq2 & Hsent & Hw2).
    rewrite E2. pose proof (queued_write_loop_frame deflate (bc :: q) conn' w' Hq) as Hf.
    rewrite E2 in Hf. destruct Hf as (Hs2 & _). rewrite Hs2, Hplain.
    repeat split; [exact Hq2 | | exact Hw2].
    rewrite sent_bytes_emit_other by discriminate. rewrite Hsent, <- Hs. reflexivity.
Qed.

(* A drain that meets a write error other than a would-block. *)
Lemma do_queued_write_fails conn (w : world) (e : errno_t) (ws : list write_result) :
  out_z conn = None -> ssl conn = None ->
  sys_writes w = WriteFail e :: ws -> would_block e = false ->
  write_buf conn <> [] ->
  do_queued_write deflate conn w =
    (-1, conn,
     emit Cb_bad (emit (Ev_error "Socket error: write to") (snd (sys_write w)))).
Proof.
  intros Hz Hs Hw He Hq. unfold do_queued_write.
  destruct (write_buf conn) as [|bc q] eqn:E; [contradiction|].
  cbn [queued_write_loop]. rewrite (do_write_plain deflate _ _ _ Hz).
  unfold do_write_inner, sys_write, socket_fail. rewrite Hs, Hw, He.
  reflexivity.
Qed.

(** X11. A write error that is not a would-block ends a drain at once: the
    result is -1, the queue and the write offset are as before, the
    failure is reported once through the fatal-failure callback and the
    write-ready callback is not called.  A [socket_write] that meets such
    an error with an empty queue returns -1 and queues nothing. *)
Theorem write_error_is_fatal conn (w : world) (e : errno_t) (ws : list write_result)
  (buf : list ascii) (takeOwn : ownership_t) :
  out_z conn = None -> ssl conn = None ->
  sys_writes w = WriteFail e :: ws -> would_block e = false ->
  let failed :=
    trace w ++ [Ev_error "Socket error: write to"; Cb_bad] in
  (write_buf conn <> [] ->
   let '(r, conn', w') := do_queued_write deflate conn w in
   r = -1 /\ conn' = conn /\ trace w' = failed) /\
  (write_buf conn = [] ->
   let '(r, conn', w') := socket_write deflate conn w buf takeOwn in
   r = -1 /\ conn' = conn /\ trace w' = failed).
Proof.
  intros Hz Hs Hw He failed. split; intros Hq.
  - rewrite (do_queued_write_fails conn w e ws Hz Hs Hw He Hq).
    unfold sys_write. rewrite Hw. cbn. unfold failed. rewrite <- app_assoc.
    repeat split.
  - unfold socket_write. rewrite Hq, (do_write_plain deflate _ _ _ Hz).
    unfold do_write_inner, sys_write, socket_fail. rewrite Hs, Hw, He.
    cbn [negb fst snd].
    replace (-1 =? len_of buf) with false
      by (symmetry; apply Z.eqb_neq; pose proof (len_of_nonneg buf); lia).
    cbn. unfold failed. rewrite <- app_assoc. repeat split.
Qed.

(** What a benign answer of write() takes of [buf]. *)
Lemma do_write_inner_plain_benign sock (w : world) (buf : list ascii)
  (r : write_result) (ws : list write_result) :
  ssl sock = None -> sys_writes w = r :: ws -> sys_write_benign r = true ->
  let taken := match r with
               | WriteCount k => firstn (Z.to_nat k) buf
               | WriteFail _ => []
               end in
  len_of taken < len_of buf ->
  exists w', do_write_inner sock w buf = (len_of taken, w') /\
    sys_writes w' = ws /\
    sent_bytes (trace w') = sent_bytes (trace w) ++ taken /\
    trace w' = trace w ++ match r with
                          | WriteCount _ => [Ev_sent taken]
                          | WriteFail _ => []
                          end ++ [Ev_conf_fd (fd sock) POLLIN POLLOUT].
Proof.
  intros Hs Hw Hr taken Hlt. unfold do_write_inner, sys_write. rewrite Hs, Hw.
  destruct r as [k | e]; cbn in Hr.
  - fold taken.
    destruct (len_of taken =? len_of buf) eqn:E; [apply Z.eqb_eq in E; lia|].
    cbn [negb]. eexists. split; [reflexivity|]. cbn.
    rewrite !sent_bytes_app. cbn. rewrite !app_nil_r, <- app_assoc.
    repeat split.
  - rewrite Hr. cbn [negb]. eexists. split; [reflexivity|]. cbn.
    rewrite !sent_bytes_app. cbn. rewrite !app_nil_r. repeat split.
Qed.

(** X12. A write that the transport does not take whole is queued whole, with
    the write offset at what was taken, and writable readiness is
    requested.  From then on [socket_write] only appends: it reports the
    full length and does not go to the transport. *)
Theorem socket_write_backpressure conn (w : world) (r : write_result)
  (ws : list write_result) (buf buf2 : list ascii) (takeOwn takeOwn2 : ownership_t) :
  out_z conn = None -> ssl conn = None -> write_buf conn = [] ->
  sys_writes w = r :: ws -> sys_write_benign r = true ->
  let taken := match r with
               | WriteCount k => firstn (Z.to_nat k) buf
               | WriteFail _ => []
               end in
  len_of taken < len_of buf ->
  let '(n, conn1, w1) := socket_write deflate conn w buf takeOwn in
  n = len_of taken /\
  write_buf conn1 = [{| bc_data := buf; bc_own := takeOwn |}] /\
  write_offset conn1 = len_of taken /\
  sent_bytes (trace w1) = sent_bytes (trace w) ++ taken /\
  (exists t, trace w1 = t ++ [Ev_conf_fd (fd conn) POLLIN POLLOUT]) /\
  let '(n2, conn2, w2) := socket_write deflate conn1 w1 buf2 takeOwn2 in
  n2 = len_of buf2 /\ w2 = w1 /\
  write_buf conn2 = [{| bc_data := buf; bc_own := takeOwn |};
                     {| bc_data := buf2; bc_own := takeOwn2 |}] /\
  write_offset conn2 = len_of taken.
Proof.
  intros Hz Hs Hq Hw Hr taken Hlt.
  destruct (do_write_inner_plain_benign conn w buf r ws Hs Hw Hr Hlt)
    as (w1 & E & Hw1 & Hsent & Ht).
  unfold socket_write at 1. rewrite Hq, (do_write_plain deflate _ _ _ Hz), E.
  cbn [fst snd]. fold taken.
  destruct (len_of taken =? len_of buf) eqn:E1; [apply Z.eqb_eq in E1; lia|].
  pose proof (len_of_nonneg taken) as H0.
  destruct (0 <=? len_of taken) eqn:E2; [|apply Z.leb_gt in E2; lia].
  cbn [negb andb]. unfold socket_write, do_append.
  cbn [write_buf write_offset set_write_buf set_write_offset].
  rewrite Hq. cbn [app].
  repeat split; try assumption.
  eexists. rewrite Ht, app_assoc. reflexivity.
Qed.

(** X13. In compressed mode, while the transport takes only part of the kept
    compressed output, [do_write] sends nothing else: the kept output
    shrinks by what was taken, the codec is not given the new input, and
    the result 0 tells the caller that none of its input was written. *)
Theorem do_write_leftover_progress sock (w : world) (buf : list ascii)
  (r : write_result) (ws : list write_result) :
  out_z sock <> None -> ssl sock = None ->
  sys_writes w = r :: ws -> sys_write_benign r = true ->
  let taken := match r with
               | WriteCount k => firstn (Z.to_nat k) (in_z_leftover sock)
               | WriteFail _ => []
               end in
  len_of taken < len_of (in_z_leftover sock) ->
  let '(n, sock', w') := do_write deflate sock w buf in
  n = 0 /\
  sock' = set_in_z_leftover sock (skipn (Z.to_nat (len_of taken)) (in_z_leftover sock)) /\
  taken ++ in_z_leftover sock' = in_z_leftover sock /\
  sent_bytes (trace w') = sent_bytes (trace w) ++ taken /\
  sys_writes w' = ws.
Proof.
  intros Hz Hs Hw Hr taken Hlt. unfold do_write.
  destruct (out_z sock) as [z|]; [clear Hz | contradiction].
  pose proof (len_of_nonneg taken) as H0.
  unfold in_z_leftover_len.
  destruct (len_of (in_z_leftover sock) =? 0) eqn:E0; [apply Z.eqb_eq in E0; lia|].
  cbn [negb].
  destruct (do_write_inner_plain_benign sock w (in_z_leftover sock) r ws Hs Hw Hr Hlt)
    as (w1 & E & Hw1 & Hsent & _).
  rewrite E. fold taken.
  destruct (len_of taken <? 0) eqn:E1; [apply Z.ltb_lt in E1; lia|].
  destruct (len_of taken <? len_of (in_z_leftover sock)) eqn:E2;
    [|apply Z.ltb_ge in E2; lia].
  repeat split; try assumption.
  cbn [in_z_leftover set_in_z_leftover].
  assert (Ht : taken = firstn (Z.to_nat (len_of taken)) (in_z_leftover sock)).
  { unfold taken. destruct r; [symmetry; apply firstn_accepted | reflexivity]. }
  rewrite Ht at 1. apply firstn_skipn.
Qed.

(** ** Closing, and switching compression on *)

(** X14. [socket_close] leaves no descriptor, no TLS handle and no queued chunk
    behind; it deregisters and closes the descriptor if there was one and
    does nothing else: nothing is sent and the write-ready callback is not
    called.  Closing again changes nothing. *)
Theorem socket_close_discards conn (w : world) :
  let '(conn', w') := socket_close conn w in
  fd conn' < 0 /\ ssl conn' = None /\ write_buf conn' = [] /\
  trace w' = trace w ++ (if 0 <=? fd conn
                         then [Ev_del_fd (fd conn); Ev_close (fd conn)] else []) /\
  socket_close conn' w' = (conn', w').
Proof.
  unfold socket_close, socket_close_internal.
  destruct (0 <=? fd conn) eqn:E.
  - cbn. rewrite <- app_assoc. repeat split.
  - cbn. rewrite E, app_nil_r. apply Z.leb_gt in E.
    repeat split; try assumption.
Qed.

(** X15. [socket_start_deflate] switches both streams on, also when zlib
    reports that a stream could not be set up (there is an error message
    for each such stream, and nothing else happens); once switched on,
    further calls do nothing. *)
Theorem socket_start_deflate_once conn (w w2 : world) :
  in_z conn = None ->
  let '(conn1, w1) := socket_start_deflate inflateInit2 deflateInit2 conn w in
  in_z conn1 = Some (snd inflateInit2) /\ out_z conn1 = Some (snd deflateInit2) /\
  trace w1 = trace w
    ++ (if fst inflateInit2 =? Z_OK then []
        else [Ev_error "IMAP error: Cannot start compression"])
    ++ (if fst deflateInit2 =? Z_OK then []
        else [Ev_error "IMAP error: Cannot start compression"]) /\
  socket_start_deflate inflateInit2 deflateInit2 conn1 w2 = (conn1, w2).
Proof.
  intros Hz. unfold socket_start_deflate. rewrite Hz.
  destruct inflateInit2 as [r1 iz], deflateInit2 as [r2 oz]. cbn [fst snd].
  destruct (r1 =? Z_OK), (r2 =? Z_OK); cbn;
    rewrite <- ?app_assoc, ?app_nil_r; repeat split.
Qed.

(** ** The TLS handshake *)

Lemma starttls_callbacks_app (t1 t2 : list event) :
  starttls_callbacks (t1 ++ t2) = starttls_callbacks t1 ++ starttls_callbacks t2.
Proof.
  induction t1 as [|e t1 IH]; [reflexivity|].
  destruct e; cbn [app starttls_callbacks]; rewrite IH; reflexivity.
Qed.

Lemma bad_callbacks_app (t1 t2 : list event) :
  bad_callbacks (t1 ++ t2) = (bad_callbacks t1 + bad_callbacks t2)%nat.
Proof.
  induction t1 as [|e t1 IH]; [reflexivity|].
  destruct e; cbn [app bad_callbacks]; rewrite IH; reflexivity.
Qed.

(* The cases of a step of the handshake: no callback while OpenSSL waits,
   failure, or success after the peer was accepted. *)
Lemma start_tls_p2_cases conn (w : world) (s : SSL) :
  ssl conn = Some s -> state conn = SCK_STARTTLS ->
  let conf' := store_after_handshake (conf conn) s in
  let '(conn', w') := start_tls_p2 conn w in
  bad_callbacks (trace w') = bad_callbacks (trace w) /\
  exists cbs, starttls_callbacks (trace w') = starttls_callbacks (trace w) ++ cbs /\
    ((cbs = [] /\ conn' = conn /\
      (ssl_connects w = [] \/
       exists ret f rest, ssl_connects w = SslConnectFail ret f :: rest
                          /\ (f = Want_read \/ f = Want_write)))
     \/ (cbs = [0] /\
         (conn' = conn \/
          conn' = set_state (set_conf conn conf') SCK_READY /\
          verify_cert_host conf' s <> 0 /\
          exists rest, ssl_connects w = SslConnected :: rest))
     \/ (cbs = [1] /\ conn' = set_state (set_conf conn conf') SCK_READY /\
         verify_cert_host conf' s = 0 /\
         exists rest, ssl_connects w = SslConnected :: rest)).
Proof.
  intros Hs Hst conf'. unfold start_tls_p2, SSL_connect.
  destruct (ssl_connects w) as [|[|ret f] rest] eqn:E.
  - cbn. split; [reflexivity|]. exists []. rewrite app_nil_r.
    split; [reflexivity|]. left. repeat split. left. reflexivity.
  - cbn. rewrite Hs. unfold start_tls_p3. cbn [conf set_conf]. fold conf'.
    destruct (verify_cert_host conf' s =? 0) eqn:Ev; cbn [negb].
    + apply Z.eqb_eq in Ev. cbn. rewrite bad_callbacks_app, starttls_callbacks_app.
      cbn. split; [lia|]. exists [1]. split; [reflexivity|].
      right. right. repeat split; try assumption. exists rest. reflexivity.
    + apply Z.eqb_neq in Ev. cbn. rewrite bad_callbacks_app, starttls_callbacks_app.
      cbn. split; [lia|]. exists [0]. split; [reflexivity|].
      right. left. split; [reflexivity|]. right. split; [reflexivity|].
      split; [exact Ev|]. exists rest. reflexivity.
  - destruct f; cbn; rewrite ?Hst; cbn;
      rewrite ?bad_callbacks_app, ?starttls_callbacks_app; cbn;
      rewrite ?bad_callbacks_app, ?starttls_callbacks_app; cbn;
      (split; [lia|]).
    + exists []. rewrite app_nil_r. split; [reflexivity|]. left.
      repeat split. right. exists ret, Want_read, rest. split; [reflexivity | left; reflexivity].
    + exists []. rewrite app_nil_r. split; [reflexivity|]. left.
      repeat split. right. exists ret, Want_write, rest. split; [reflexivity | right; reflexivity].
    + exists [0]. split; [rewrite <- app_assoc; reflexivity|]. right. left.
      split; [reflexivity | left; reflexivity].
    + exists [0]. split; [rewrite <- app_assoc; reflexivity|]. right. left.
      split; [reflexivity | left; reflexivity].
    + exists [0]. split; [rewrite <- app_assoc; reflexivity|]. right. left.
      split; [reflexivity | left; reflexivity].
Qed.

Lemma data_events_app (t1 t2 : list event) :
  data_events (t1 ++ t2) = data_events t1 ++ data_events t2.
Proof. apply filter_app. Qed.

Lemma data_path_untouched_refl (w : world) : data_path_untouched w w.
Proof. repeat split. Qed.

Lemma data_path_untouched_trans (w1 w2 w3 : world) :
  data_path_untouched w1 w2 -> data_path_untouched w2 w3 -> data_path_untouched w1 w3.
Proof.
  unfold data_path_untouched.
  intros (a1 & a2 & a3 & a4 & a5) (b1 & b2 & b3 & b4 & b5).
  repeat split; congruence.
Qed.

Lemma data_path_untouched_emit (e : event) (w : world) :
  is_data_event e = false -> data_path_untouched w (emit e w).
Proof.
  intros He. unfold data_path_untouched, emit. cbn.
  rewrite data_events_app. cbn. unfold data_events at 2. cbn. rewrite He.
  rewrite app_nil_r. repeat split.
Qed.

(* What [init_ssl_ctx] leaves alone, and what its result says. *)
Lemma init_ssl_ctx_frame (k : tls_flags) (ld : cert_loaders)
  (conf conf' : server_conf_t) (tc tc' : ssl_conf_t) (w w' : world) (ok : Z) :
  init_ssl_ctx k ld conf tc w = (ok, conf', tc', w') ->
  bad_callbacks (trace w') = bad_callbacks (trace w) /\
  starttls_callbacks (trace w') = starttls_callbacks (trace w) /\
  ssl_connects w' = ssl_connects w /\
  data_path_untouched w w' /\
  (ok <> 0 -> ssl_ctx_valid tc' <> 0) /\
  SSLContext tc' <> None.
Proof.
  unfold init_ssl_ctx, data_path_untouched, data_events.
  destruct (SSLContext tc) eqn:Ec.
  - intros [= <- <- <- <-]. rewrite Ec.
    repeat split; try (intros K; exact K); discriminate.
  - cbn [cert_file set_context system_certs SSLContext].
    match goal with |- context [fst ?l =? 0] => destruct (fst l =? 0) end.
    + intros [= <- <- <- <-]. cbn.
      rewrite bad_callbacks_app, starttls_callbacks_app, filter_app. cbn.
      rewrite !app_nil_r. repeat split; try lia; discriminate.
    + destruct (negb (system_certs tc =? 0)).
      * match goal with |- context [fst ?l =? 0] => destruct (fst l =? 0) end;
          intros [= <- <- <- <-]; cbn;
          rewrite ?bad_callbacks_app, ?starttls_callbacks_app, ?filter_app; cbn;
          rewrite ?app_nil_r; repeat split; try lia; discriminate.
      * intros [= <- <- <- <-]. cbn. repeat split; try lia; discriminate.
Qed.

(** X16. [socket_start_tls] calls the TLS-completed callback at most once and
    never the fatal-failure callback.  It reports success only when the
    context is valid, SSL_connect has completed and [verify_cert_host]
    accepts the peer of the new session; the connection is then ready.
    Without a callback the handshake is pending on the new session. *)
Theorem socket_start_tls_outcome (k : tls_flags) (ld : cert_loaders)
  (session : SSL) conn (tc : ssl_conf_t) (w : world) :
  let '(conn', tc', w') := socket_start_tls k ld session conn tc w in
  bad_callbacks (trace w') = bad_callbacks (trace w) /\
  exists cbs,
    starttls_callbacks (trace w') = starttls_callbacks (trace w) ++ cbs /\
    (cbs = [] /\ state conn' = SCK_STARTTLS /\ ssl conn' = Some session
     \/ cbs = [0]
     \/ cbs = [1] /\ state conn' = SCK_READY /\ ssl conn' = Some session /\
        ssl_ctx_valid tc' <> 0 /\ verify_cert_host (conf conn') session = 0 /\
        exists rest, ssl_connects w = SslConnected :: rest).
Proof.
  unfold socket_start_tls.
  destruct (init_ssl_ctx k ld (conf conn) tc w) as [[[ok conf'] tc'] w1] eqn:Ei.
  destruct (init_ssl_ctx_frame _ _ _ _ _ _ _ _ _ Ei) as (Hb & Hs & Hc & _ & Hv & _).
  destruct (ok =? 0) eqn:Eok.
  - cbn. rewrite bad_callbacks_app, starttls_callbacks_app, Hb, Hs. cbn.
    split; [lia|]. exists [0]. split; [reflexivity|]. right. left. reflexivity.
  - apply Z.eqb_neq in Eok.
    pose proof (start_tls_p2_cases
      (set_state (set_ssl (set_conf conn conf') (Some session)) SCK_STARTTLS)
      w1 session eq_refl eq_refl) as H.
    destruct (start_tls_p2 _ w1) as [conn' w'].
    destruct H as (Hb' & cbs & Hs' & H). rewrite Hb', Hb, Hs', Hs.
    split; [reflexivity|]. exists cbs. split; [reflexivity|].
    destruct H as [(-> & -> & _) | [(-> & _) | (-> & -> & Hok & rest & Hr)]].
    + left. repeat split.
    + right. left. reflexivity.
    + right. right. rewrite <- Hc. repeat split; auto. exists rest. exact Hr.
Qed.

(** ** The TLS context *)

(** X17. The context of a configuration is set up once: a second call of
    [init_ssl_ctx] gives the result of the first and does nothing more.
    This needs [ssl_ctx_valid] to be 0 in a configuration without context,
    as a failed set-up leaves the field as it was. *)
Theorem init_ssl_ctx_memoized (k : tls_flags) (ld : cert_loaders)
  (conf : server_conf_t) (tc : ssl_conf_t) (w w2 : world) :
  (SSLContext tc = None -> ssl_ctx_valid tc = 0) ->
  let '(ok, conf1, tc1, w1) := init_ssl_ctx k ld conf tc w in
  init_ssl_ctx k ld conf1 tc1 w2 = (ok, conf1, tc1, w2).
Proof.
  intros H0. unfold init_ssl_ctx at 1. destruct (SSLContext tc) eqn:Ec.
  - unfold init_ssl_ctx. rewrite Ec. reflexivity.
  - specialize (H0 eq_refl).
    cbn [cert_file set_context system_certs SSLContext].
    match goal with |- context [fst ?l =? 0] => destruct (fst l =? 0) end.
    + unfold init_ssl_ctx. cbn. rewrite H0. reflexivity.
    + destruct (negb (system_certs tc =? 0)); reflexivity.
Qed.


(** X19. Without a certificate file the host name decides: a peer is accepted
    after the set-up only if OpenSSL verified its certificate chain and the
    certificate matches the configured host. *)
Theorem verify_cert_host_without_cert_file (k : tls_flags) (ld : cert_loaders)
  (conf : server_conf_t) (tc : ssl_conf_t) (w : world) (s : SSL) :
  SSLContext tc = None -> cert_file tc = None ->
  let '(ok, conf', tc', w') := init_ssl_ctx k ld conf tc w in
  ok = 1 /\
  (verify_cert_host conf' s = 0 ->
   verify_result s = X509_V_OK /\
   exists cert h, peer_certificate s = Some cert /\ host conf = Some h /\
                  verify_hostname cert h = 0).
Proof.
  intros Ec Ef. unfold init_ssl_ctx. rewrite Ec.
  cbn [cert_file set_context system_certs SSLContext]. rewrite Ef.
  cbn [fst snd set_store cert_store num_trusted]. change (1 =? 0) with false. cbv iota.
  assert (H : forall store,
    verify_cert_host (set_store conf store 0) s = 0 ->
    verify_result s = X509_V_OK /\
    exists cert h, peer_certificate s = Some cert /\ host conf = Some h /\
                   verify_hostname cert h = 0).
  { intros store. unfold verify_cert_host. cbn [set_store cert_store num_trusted host].
    destruct (peer_certificate s) as [cert|]; [|discriminate].
    replace (trusted_match cert store 0) with false by (destruct store; reflexivity).
    destruct (verify_result s =? X509_V_OK) eqn:Ev; cbn [negb]; [|discriminate].
    apply Z.eqb_eq in Ev.
    destruct (host conf) as [h|]; [|discriminate].
    intros Hv. split; [exact Ev|]. exists cert, h. repeat split. exact Hv. }
  destruct (negb (system_certs tc =? 0)); (split; [reflexivity|]); apply H.
Qed.

(** X20. A set-up that fails on the certificate file is remembered: this and
    every later [socket_start_tls] on the configuration report failure,
    leave the connection ready without a TLS session and do not start a
    handshake; only the first one prints the error. *)
Theorem socket_start_tls_context_failure (k : tls_flags) (ld : cert_loaders)
  (session session2 : SSL) conn conn2 (tc : ssl_conf_t) (w w2 : world)
  (file : string) :
  SSLContext tc = None -> ssl_ctx_valid tc = 0 ->
  cert_file tc = Some file -> fst (SSL_CTX_load_verify_locations ld file) = 0 ->
  let '(conn', tc', w') := socket_start_tls k ld session conn tc w in
  state conn' = SCK_READY /\ ssl conn' = ssl conn /\
  ssl_connects w' = ssl_connects w /\
  trace w' = trace w ++ [Ev_error "Error while loading certificate file"; Cb_starttls 0] /\
  let '(conn2', tc2', w2') := socket_start_tls k ld session2 conn2 tc' w2 in
  state conn2' = SCK_READY /\ ssl conn2' = ssl conn2 /\ tc2' = tc' /\
  ssl_connects w2' = ssl_connects w2 /\
  trace w2' = trace w2 ++ [Cb_starttls 0].
Proof.
  intros Ec Hv Ef El. unfold socket_start_tls at 1. unfold init_ssl_ctx. rewrite Ec.
  cbn [cert_file set_context system_certs SSLContext]. rewrite Ef.
  cbn [fst snd]. rewrite El. cbn.
  rewrite <- app_assoc. repeat split.
  unfold socket_start_tls, init_ssl_ctx. cbn. rewrite Hv. cbn. repeat split.
Qed.

(** C2 (where the code departs from it). [verify_cert_host] takes the
    explicitly trusted certificates to be the first [num_trusted] objects
    of the store, and it reads the store after the handshake.  When the
    peer presents a certificate that was among them when [init_ssl_ctx]
    counted them, so that it would be accepted on the store as the set-up
    left it, and the chain lookups of the handshake have left other
    objects in those places, the identity check misses it: unless the
    chain verifies and the names match the host, [socket_start_tls]
    reports failure for a certificate of the certificate file. *)
Theorem pinned_certificate_refused_after_lookup (k : tls_flags) (ld : cert_loaders)
  (session : SSL) conn (tc : ssl_conf_t) (w : world) (cert : X509)
  (rest : list ssl_connect_result) :
  let ok := fst (fst (fst (init_ssl_ctx k ld (conf conn) tc w))) in
  let conf1 := snd (fst (fst (init_ssl_ctx k ld (conf conn) tc w))) in
  ok <> 0 -> ssl_connects w = SslConnected :: rest ->
  peer_certificate session = Some cert ->
  explicitly_trusted conf1 cert ->
  ~ explicitly_trusted (store_after_handshake conf1 session) cert ->
  (verify_result session = X509_V_OK ->
   forall h, host conf1 = Some h -> verify_hostname cert h <> 0) ->
  let '(conn', tc', w') := socket_start_tls k ld session conn tc w in
  verify_cert_host conf1 session = 0 /\
  verify_cert_host (conf conn') session = -1 /\
  starttls_callbacks (trace w') = starttls_callbacks (trace w) ++ [0] /\
  state conn' = SCK_READY.
Proof.
  intros ok conf1. subst ok conf1. unfold socket_start_tls.
  destruct (init_ssl_ctx k ld (conf conn) tc w) as [[[ok conf1] tc1] w1] eqn:Ei.
  cbn [fst snd]. intros Hok Hc Hp Ht Hnt Hn.
  destruct (init_ssl_ctx_frame _ _ _ _ _ _ _ _ _ Ei) as (_ & Hs & Hc1 & _).
  apply Z.eqb_neq in Hok. rewrite Hok.
  assert (Hv : verify_cert_host (store_after_handshake conf1 session) session = -1).
  { apply (verify_cert_host_refuses _ _ cert Hp Hnt). exact Hn. }
  unfold start_tls_p2, SSL_connect. rewrite Hc1, Hc.
  cbn [ssl_return ssl conf set_conf set_ssl set_state]. cbn [Z.ltb Z.compare].
  cbv zeta. cbn [conf set_conf set_ssl set_state]. rewrite Hv.
  cbn [Z.eqb negb start_tls_p3 state set_state conf set_conf emit trace].
  rewrite starttls_callbacks_app, Hs. cbn [starttls_callbacks].
  repeat split.
  - exact (verify_cert_host_trusts conf1 session cert Hp Ht).
  - exact Hv.
Qed.

(** ** Before the connection is ready *)

(** X21. When socket() fails for an address after the attempts on all earlier
    addresses have failed at once, the process exits with status 1: the
    descriptors of the earlier attempts have been closed, and the
    connect-completed callback is not called. *)
Theorem socket_connect_exits_on_socket_failure sock (w : world)
  (socketpair : option Z) (failed : list addrinfo) (bad : addrinfo)
  (rest : list addrinfo) :
  tunnel (conf sock) = None ->
  forallb fails_at_once failed = true -> ai_socket bad < 0 ->
  exists w',
    socket_connect sock w socketpair (Some (failed ++ bad :: rest)) = Exited 1 w' /\
    connect_callbacks (trace w') = connect_callbacks (trace w) /\
    bad_callbacks (trace w') = bad_callbacks (trace w) /\
    closed_fds (trace w') = closed_fds (trace w) ++ map ai_socket failed.
Proof.
  intros Ht Hf Hbad. unfold socket_connect, socket_connect_one. rewrite Ht.
  cbn [curr_addr set_curr_addr].
  generalize (set_curr_addr sock (failed ++ bad :: rest)). clear Ht sock.
  revert w. induction failed as [|ai failed IH]; intros w sock.
  - cbn [app connect_from]. apply Z.ltb_lt in Hbad. rewrite Hbad.
    eexists. split; [reflexivity|].
    rewrite connect_callbacks_emit, closed_fds_emit. cbn [emit trace].
    rewrite bad_callbacks_app. cbn. rewrite !app_nil_r. repeat split. lia.
  - cbn [forallb] in Hf. apply andb_prop in Hf as [Hai Hf].
    unfold fails_at_once in Hai. apply andb_prop in Hai as [Hs Hc].
    cbn [app connect_from]. apply Z.leb_le in Hs.
    destruct (ai_socket ai <? 0) eqn:E; [apply Z.ltb_lt in E; lia|].
    destruct (ai_connect ai) as [|e]; [discriminate|]. rewrite Hc.
    unfold socket_close_internal. cbn [fd set_fd].
    match goal with |- context [connect_from _ ?s ?w0] =>
      destruct (IH Hf w0 s) as (w' & -> & Hcb & Hb & Hcl) end.
    exists w'. split; [reflexivity|].
    rewrite Hcb, Hb, Hcl. cbn [emit trace].
    rewrite !connect_callbacks_app, !bad_callbacks_app, !closed_fds_app. cbn.
    rewrite !app_nil_r, <- app_assoc. repeat split. lia.
Qed.

Ltac data_path_emits :=
  repeat first
    [ apply data_path_untouched_refl
    | apply data_path_untouched_emit; reflexivity
    | eapply data_path_untouched_trans; [|apply data_path_untouched_emit; reflexivity] ].

Lemma start_tls_p2_data_path conn (w : world) :
  data_path_untouched w (snd (start_tls_p2 conn w)).
Proof.
  assert (H0 : data_path_untouched w (snd (SSL_connect w))).
  { unfold SSL_connect. destruct (ssl_connects w); [apply data_path_untouched_refl|].
    repeat split. }
  unfold start_tls_p2. destruct (SSL_connect w) as [r w1]. cbn [snd] in H0.
  apply (data_path_untouched_trans _ _ _ H0). clear H0.
  assert (H1 : forall ret err,
    data_path_untouched w1 (snd (ssl_return "connect to" conn w1 ret err))).
  { intros ret err. unfold ssl_return, socket_fail.
    destruct err; cbn [snd]; try destruct (sck_state_eqb (state conn) SCK_STARTTLS);
      data_path_emits. }
  assert (H2 : forall (n : Z) (w2 : world),
    data_path_untouched w2
      (snd (if 0 <? n
            then match ssl conn with
                 | Some s =>
                     let conn := set_conf conn (store_after_handshake (conf conn) s) in
                     if negb (verify_cert_host (conf conn) s =? 0)
                     then start_tls_p3 conn w2 0
                     else start_tls_p3 conn w2 1
                 | None => (conn, w2)
                 end
            else (conn, w2)))).
  { intros n w2. destruct (0 <? n); [|apply data_path_untouched_refl].
    destruct (ssl conn) as [s|]; [|apply data_path_untouched_refl].
    unfold start_tls_p3. cbv zeta.
    match goal with |- context [negb ?c] => destruct (negb c) end;
      cbn [snd]; data_path_emits. }
  destruct r as [|ret f].
  - specialize (H1 1 SSL_ERROR_NONE).
    destruct (ssl_return "connect to" conn w1 1 SSL_ERROR_NONE) as [n w2].
    cbn [snd] in H1. apply (data_path_untouched_trans _ _ _ H1). apply H2.
  - specialize (H1 ret (SSL_get_error f)).
    destruct (ssl_return "connect to" conn w1 ret (SSL_get_error f)) as [n w2].
    cbn [snd] in H1. apply (data_path_untouched_trans _ _ _ H1). apply H2.
Qed.

Lemma connect_from_data_path (addrs : list addrinfo) : forall sock (w : world),
  data_path_untouched w (outcome_world (connect_from addrs sock w)).
Proof.
  induction addrs as [|ai addrs IH]; intros sock w; cbn [connect_from].
  - unfold socket_connect_bail. cbn [outcome_world]. data_path_emits.
  - destruct (ai_socket ai <? 0).
    + cbn [outcome_world]. data_path_emits.
    + destruct (ai_connect ai) as [|e].
      * unfold socket_connected. cbn [outcome_world]. data_path_emits.
      * destruct (negb (in_progress e)).
        -- unfold socket_close_internal.
           eapply data_path_untouched_trans; [|apply IH]. data_path_emits.
        -- cbn [outcome_world]. data_path_emits.
Qed.

(** X22. Until the connection is ready, a readiness event moves only the
    connect or the handshake along: whatever the event and the answers of
    the kernel and of OpenSSL, no byte is read or sent, no queued chunk is
    written and neither data callback is called. *)
Theorem socket_fd_cb_before_ready (events : Z) (so_error : option Z) conn
  (w : world) :
  state conn <> SCK_READY ->
  data_path_untouched w
    (outcome_world (socket_fd_cb deflate buf_size events so_error conn w)).
Proof.
  intros Hst. unfold socket_fd_cb.
  destruct (state conn) eqn:Es; [| |contradiction]; cbn [sck_state_eqb].
  - rewrite orb_true_r. destruct so_error as [soerr|].
    + destruct (negb (soerr =? 0)).
      * unfold socket_connect_failed, socket_close_internal, socket_connect_one.
        eapply data_path_untouched_trans; [|apply connect_from_data_path].
        data_path_emits.
      * unfold socket_connected. cbn [outcome_world]. data_path_emits.
    + cbn [outcome_world]. data_path_emits.
  - rewrite orb_false_r. destruct (has_event events POLLERR).
    + destruct so_error as [soerr|]; cbn [outcome_world]; unfold socket_fail;
        data_path_emits.
    + match goal with |- context [start_tls_p2 conn ?w0] =>
        pose proof (start_tls_p2_data_path conn w0) as H;
        destruct (start_tls_p2 conn w0) as [conn' w'] end.
      cbn [snd] in H. cbn [outcome_world].
      refine (data_path_untouched_trans _ _ _ _ H).
      destruct (has_event events POLLOUT); data_path_emits.
Qed.

(** ** Readiness events on a ready connection *)

(* [socket_fill] leaves the connection outside the read buffer and the
   write side of the transport as they are. *)
Lemma socket_fill_write_side sock (w : world) :
  let '(sock', w') := socket_fill buf_size sock w in
  write_buf sock' = write_buf sock /\ write_offset sock' = write_offset sock /\
  sys_writes w' = sys_writes w /\ ssl_writes w' = ssl_writes w /\
  sent_bytes (trace w') = sent_bytes (trace w) /\
  write_callbacks (trace w') = write_callbacks (trace w).
Proof.
  assert (Hemit : forall (e : event) (v : world),
    sent_bytes [e] = [] -> write_callbacks [e] = O ->
    sys_writes (emit e v) = sys_writes v /\ ssl_writes (emit e v) = ssl_writes v /\
    sent_bytes (trace (emit e v)) = sent_bytes (trace v) /\
    write_callbacks (trace (emit e v)) = write_callbacks (trace v)).
  { intros e v H1 H2. cbn [emit sys_writes ssl_writes trace].
    rewrite sent_bytes_app, write_callbacks_app, H1, H2, app_nil_r.
    repeat split. lia. }
  unfold socket_fill.
  destruct (buf_size - (offset sock + bytes sock) =? 0).
  - unfold socket_fail. cbn [emit sys_writes ssl_writes trace].
    rewrite !sent_bytes_app, !write_callbacks_app. cbn. rewrite !app_nil_r.
    repeat split. lia.
  - destruct (ssl sock) as [s|].
    + unfold SSL_read.
      destruct (ssl_reads w) as [|[d p|ret f] rs];
        [| |destruct f]; unfold ssl_return, socket_fail; cbn;
        repeat match goal with
        | |- context [if ?c then _ else _] => destruct c; cbn
        end;
        rewrite ?sent_bytes_app, ?write_callbacks_app; cbn;
        rewrite ?sent_bytes_app, ?write_callbacks_app; cbn;
        rewrite ?app_nil_r; repeat split; lia.
    + unfold sys_read.
      destruct (sys_reads w) as [|[d|e] rs]; unfold socket_fail; cbn;
        repeat match goal with
        | |- context [if ?c then _ else _] => destruct c; cbn
        end;
        rewrite ?sent_bytes_app, ?write_callbacks_app; cbn;
        rewrite ?sent_bytes_app, ?write_callbacks_app; cbn;
        rewrite ?app_nil_r; repeat split; lia.
Qed.

(** X23. A readable-only event on a ready connection without TLS does not
    touch the write side: the queue and the write offset stay as they are,
    nothing is written or sent, and the write-ready callback is not called.
    The queue of such a connection is drained only on a writable event. *)
Theorem socket_fd_cb_readable_only (events : Z) (so_error : option Z) conn
  (w : world) :
  state conn = SCK_READY -> ssl conn = None ->
  has_event events POLLERR = false -> has_event events POLLOUT = false ->
  exists conn' w',
    socket_fd_cb deflate buf_size events so_error conn w = Running conn' w' /\
    write_buf conn' = write_buf conn /\ write_offset conn' = write_offset conn /\
    sys_writes w' = sys_writes w /\
    sent_bytes (trace w') = sent_bytes (trace w) /\
    write_callbacks (trace w') = write_callbacks (trace w).
Proof.
  intros Hst Hs He Ho. unfold socket_fd_cb. rewrite Hst, He, Ho, Hs.
  cbn [sck_state_eqb orb andb].
  destruct (has_event events POLLIN).
  - pose proof (socket_fill_write_side conn w) as H.
    destruct (socket_fill buf_size conn w) as [conn' w'].
    destruct H as (H1 & H2 & H3 & _ & H4 & H5).
    exists conn', w'. repeat split; assumption.
  - exists conn, w. repeat split.
Qed.

(** X24. When the drain of a writable event fails with a write error on a
    ready connection without TLS and compression, the event ends there:
    nothing is read although the descriptor is readable too, and the
    connection stays as it is.  The failure is reported once. *)
Theorem socket_fd_cb_failed_drain_skips_read (events : Z) (so_error : option Z)
  conn (w : world) (e : errno_t) (ws : list write_result) :
  state conn = SCK_READY -> ssl conn = None -> out_z conn = None ->
  has_event events POLLERR = false -> has_event events POLLOUT = true ->
  write_buf conn <> [] ->
  sys_writes w = WriteFail e :: ws -> would_block e = false ->
  exists w',
    socket_fd_cb deflate buf_size events so_error conn w = Running conn w' /\
    sys_reads w' = sys_reads w /\
    trace w' = trace w ++ [Ev_conf_fd (fd conn) POLLIN 0;
                           Ev_error "Socket error: write to"; Cb_bad].
Proof.
  intros Hst Hs Hz He Ho Hq Hw Hb. unfold socket_fd_cb.
  rewrite Hst, He, Ho, Hs. cbn [sck_state_eqb orb andb].
  rewrite (do_queued_write_fails conn (emit _ w) e ws Hz Hs Hw Hb Hq).
  change (-1 <? 0) with true. cbv iota.
  eexists. split; [reflexivity|].
  unfold sys_write. cbn [emit sys_writes]. rewrite Hw. cbn.
  rewrite <- !app_assoc. repeat split.
Qed.

End MoreConnectionProperties.

(** * The further results on concrete data *)

Import Samples.

Lemma host_matches_wildcard_one_label_witness :
  is_cstring "mail" = true /\ is_cstring "imap" = true /\
  is_cstring "example.com" = true /\ has_char "." "mail" = false /\
  "example.com"%string <> ""%string /\
  host_matches "mail.example.com" "*.example.com" = 1 /\
  host_matches "example.com" "*.example.com" = 0 /\
  host_matches "mail.imap.example.com" "*.example.com" = 0.
Proof.
  assert (H1 : is_cstring "mail" = true) by reflexivity.
  assert (H2 : is_cstring "imap" = true) by reflexivity.
  assert (H3 : is_cstring "example.com" = true) by reflexivity.
  assert (H4 : has_char "." "mail" = false) by reflexivity.
  assert (H5 : "example.com"%string <> ""%string) by discriminate.
  split; [exact H1|]. split; [exact H2|]. split; [exact H3|].
  split; [exact H4|]. split; [exact H5|].
  exact (host_matches_wildcard_one_label "mail" "imap" "example.com" H1 H2 H3 H4 H5).
Defined.

Lemma host_matches_ignores_case_witness :
  lower "Mail.Example.COM" = lower "mail.example.com" /\
  lower "*.example.com" = lower "*.EXAMPLE.com" /\
  host_matches "Mail.Example.COM" "*.example.com"
    = host_matches "mail.example.com" "*.EXAMPLE.com".
Proof.
  assert (H1 : lower "Mail.Example.COM" = lower "mail.example.com") by reflexivity.
  assert (H2 : lower "*.example.com" = lower "*.EXAMPLE.com") by reflexivity.
  split; [exact H1|]. split; [exact H2|].
  exact (host_matches_ignores_case "Mail.Example.COM" "*.example.com"
           "mail.example.com" "*.EXAMPLE.com" eq_refl eq_refl eq_refl eq_refl H1 H2).
Defined.

Lemma socket_read_split_witness :
  let conn := holding 16 2 (bytes_of "abcdef") 0 in
  read_buffer_ok 16 conn /\
  let '(n1, out1, conn1) := socket_read conn 2 in
  let '(n2, out2, conn2) := socket_read conn1 3 in
  out1 = bytes_of "ab" /\ out2 = bytes_of "cde" /\
  socket_read conn 5 = (5, bytes_of "abcde", conn2).
Proof.
  intros conn.
  assert (H1 : read_buffer_ok 16 conn)
    by (repeat split; vm_compute; discriminate).
  assert (H2 : 0 <= 2) by lia.
  assert (H3 : 0 <= 3) by lia.
  split; [exact H1|].
  split; [reflexivity|]. split; [reflexivity|].
  exact (socket_read_split 16 conn 2 3 H1 H2 H3).
Defined.

Lemma socket_fill_appends_witness :
  let conn := holding 16 2 (bytes_of "ab") 0 in
  let data := bytes_of "cdef" in
  let w := world_of [ReadBytes data] [] [] [] 0 in
  read_buffer_ok 16 conn /\ ssl conn = None /\ offset conn + bytes conn < 16 /\
  let '(conn', w') := socket_fill 16 conn w in
  unconsumed conn' = bytes_of "abcdef" /\
  offset conn' = offset conn /\ bytes conn' = 6 /\
  scanoff conn' = scanoff conn /\ read_buffer_ok 16 conn' /\
  sys_reads w' = [] /\ trace w' = trace w ++ [Cb_read].
Proof.
  intros conn data w.
  assert (H1 : read_buffer_ok 16 conn)
    by (repeat split; vm_compute; discriminate).
  assert (H2 : ssl conn = None) by reflexivity.
  assert (H3 : offset conn + bytes conn < 16) by reflexivity.
  assert (H4 : sys_reads w = [ReadBytes data]) by reflexivity.
  assert (H5 : data <> []) by discriminate.
  split; [exact H1|]. split; [exact H2|]. split; [exact H3|].
  exact (socket_fill_appends 16 conn w data [] H1 H2 H3 H4 H5).
Defined.

Lemma socket_read_line_incomplete_witness :
  let b := holding 16 13 (bytes_of "abc") 1 in
  read_buffer_ok 16 b /\ 0 <= scanoff b <= bytes b /\
  let '(r, b') := socket_read_line 16 b in
  r = None /\ unconsumed b' = bytes_of "abc" /\
  bytes b' = 3 /\ scanoff b' = 3 /\ offset b' = 0 /\ read_buffer_ok 16 b'.
Proof.
  intros b.
  assert (H1 : read_buffer_ok 16 b)
    by (repeat split; vm_compute; discriminate).
  assert (H2 : 0 <= scanoff b <= bytes b) by (split; vm_compute; discriminate).
  assert (H3 : ~ In LF (sub_buf (buf b) (offset b + scanoff b) (bytes b - scanoff b)))
    by (vm_compute; intros [K | [K | []]]; discriminate K).
  split; [exact H1|]. split; [exact H2|].
  exact (socket_read_line_incomplete 16 b H1 H2 H3).
Defined.

Lemma socket_read_line_extracts_witness :
  let line := bytes_of "ok" ++ [CR] in
  let more := bytes_of "x" in
  let b := holding 16 2 (line ++ LF :: more) 0 in
  read_buffer_ok 16 b /\ unconsumed b = line ++ LF :: more /\
  0 <= scanoff b <= len_of line /\
  let '(r, b') := socket_read_line 16 b in
  r = Some 2 /\
  sub_buf (buf b') 2 3 = bytes_of "ok" ++ [NUL] /\
  unconsumed b' = more /\
  offset b' = 6 /\ bytes b' = 1 /\ scanoff b' = 0 /\ read_buffer_ok 16 b'.
Proof.
  intros line more b.
  assert (H1 : read_buffer_ok 16 b)
    by (repeat split; vm_compute; discriminate).
  assert (H2 : unconsumed b = line ++ LF :: more) by reflexivity.
  assert (H3 : 0 <= scanoff b <= len_of line) by (split; vm_compute; discriminate).
  assert (H4 : ~ In LF line)
    by (vm_compute; intros [K | [K | [K | []]]]; discriminate K).
  split; [exact H1|]. split; [exact H2|]. split; [exact H3|].
  exact (socket_read_line_extracts 16 b line more H1 H2 H3 H4).
Defined.

Lemma socket_read_line_across_fills_witness :
  let part1 := bytes_of "he" in
  let part2 := bytes_of "llo" in
  let more := bytes_of "wo" in
  let conn := holding 16 0 part1 0 in
  let w := world_of [ReadBytes (part2 ++ LF :: more)] [] [] [] 0 in
  read_buffer_ok 16 conn /\ ssl conn = None /\ unconsumed conn = part1 /\
  bytes conn + len_of (part2 ++ LF :: more) <= 16 /\
  let '(r1, conn1) := socket_read_line 16 conn in
  let '(conn2, w2) := socket_fill 16 conn1 w in
  let '(r3, conn3) := socket_read_line 16 conn2 in
  r1 = None /\ r3 = Some 0 /\
  sub_buf (buf conn3) 0 6 = bytes_of "hello" ++ [NUL] /\
  unconsumed conn3 = more /\ scanoff conn3 = 0 /\
  trace w2 = trace w ++ [Cb_read].
Proof.
  intros part1 part2 more conn w.
  assert (H1 : read_buffer_ok 16 conn)
    by (repeat split; vm_compute; discriminate).
  assert (H2 : ssl conn = None) by reflexivity.
  assert (H3 : unconsumed conn = part1) by reflexivity.
  assert (H4 : 0 <= scanoff conn <= bytes conn) by (split; vm_compute; discriminate).
  assert (H5 : ~ In LF part1)
    by (vm_compute; intros [K | [K | []]]; discriminate K).
  assert (H6 : ~ In LF part2)
    by (vm_compute; intros [K | [K | [K | []]]]; discriminate K).
  assert (H7 : sys_reads w = [ReadBytes (part2 ++ LF :: more)]) by reflexivity.
  assert (H8 : offset conn + bytes conn = 16 \/
               offset conn + bytes conn + len_of (part2 ++ LF :: more) <= 16)
    by (right; vm_compute; discriminate).
  assert (H9 : bytes conn + len_of (part2 ++ LF :: more) <= 16)
    by (vm_compute; discriminate).
  split; [exact H1|]. split; [exact H2|]. split; [exact H3|]. split; [exact H9|].
  exact (socket_read_line_across_fills 16 conn w part1 part2 more [] H1 H2 H3 H4 H5 H6
           H7 H8 H9).
Defined.

Lemma socket_fill_tls_no_data_witness :
  let conn := set_ssl (ready 16) (Some tls_session) in
  let w := world_of [] [] [SslReadFail 0 Zero_return] [] 0 in
  ssl conn = Some tls_session /\ state conn = SCK_READY /\
  offset conn + bytes conn <> 16 /\
  let '(conn', w') := socket_fill 16 conn w in
  conn' = conn /\ ssl_reads w' = [] /\
  trace w' = trace w ++ [Ev_error "Socket error: secure read from"; Cb_bad].
Proof.
  intros conn w.
  assert (H1 : ssl conn = Some tls_session) by reflexivity.
  assert (H2 : state conn = SCK_READY) by reflexivity.
  assert (H3 : offset conn + bytes conn <> 16) by (vm_compute; discriminate).
  assert (H4 : ssl_reads w = [SslReadFail 0 Zero_return]) by reflexivity.
  split; [exact H1|]. split; [exact H2|]. split; [exact H3|].
  exact (socket_fill_tls_no_data 16 conn w tls_session 0 Zero_return [] H1 H2 H3 H4).
Defined.

Lemma do_queued_write_drains_witness :
  let conn := queueing [chunk "ab"; chunk "cde"] 1 in
  let w := world_of [] [WriteCount 8; WriteCount 8; WriteCount 1] [] [] 0 in
  out_z conn = None /\ ssl conn = None /\ write_queue_ok conn /\
  Forall (fun bc => bc_len bc <= 8) (write_buf conn) /\
  let '(r, conn', w') := do_queued_write deflate conn w in
  r = write_callback_ret w /\ write_buf conn' = [] /\ write_offset conn' = 0 /\
  sent_bytes (trace w') = sent_bytes (trace w) ++ bytes_of "bcde" /\
  sys_writes w' = [WriteCount 1] /\ exists t, trace w' = t ++ [Cb_write].
Proof.
  intros conn w.
  assert (H1 : out_z conn = None) by reflexivity.
  assert (H2 : ssl conn = None) by reflexivity.
  assert (H3 : write_queue_ok conn) by (split; vm_compute; discriminate).
  assert (H4 : write_buf conn <> []) by discriminate.
  assert (H5 : Forall (fun bc => bc_len bc <= 8) (write_buf conn))
    by (repeat constructor; vm_compute; discriminate).
  assert (H6 : sys_writes w
               = repeat (WriteCount 8) (List.length (write_buf conn)) ++ [WriteCount 1])
    by reflexivity.
  split; [exact H1|]. split; [exact H2|]. split; [exact H3|]. split; [exact H5|].
  exact (do_queued_write_drains deflate conn w 8 [WriteCount 1] H1 H2 H3 H4 H5 H6).
Defined.

Lemma write_error_is_fatal_witness :
  let conn := ready 16 in
  let w := world_of [] [WriteFail (EOTHER 32)] [] [] 0 in
  out_z conn = None /\ ssl conn = None /\ would_block (EOTHER 32) = false /\
  let '(r, conn', w') := socket_write deflate conn w (bytes_of "abc") KeepOwn in
  r = -1 /\ conn' = conn /\
  trace w' = trace w ++ [Ev_error "Socket error: write to"; Cb_bad].
Proof.
  intros conn w.
  assert (H1 : out_z conn = None) by reflexivity.
  assert (H2 : ssl conn = None) by reflexivity.
  assert (H3 : sys_writes w = [WriteFail (EOTHER 32)]) by reflexivity.
  assert (H4 : would_block (EOTHER 32) = false) by reflexivity.
  split; [exact H1|]. split; [exact H2|]. split; [exact H4|].
  exact (proj2 (write_error_is_fatal deflate conn w (EOTHER 32) [] (bytes_of "abc")
                  KeepOwn H1 H2 H3 H4) eq_refl).
Defined.

Lemma socket_write_backpressure_witness :
  let conn := ready 16 in
  let w := world_of [] [WriteCount 2] [] [] 0 in
  let buf := bytes_of "abcde" in
  let buf2 := bytes_of "fg" in
  out_z conn = None /\ ssl conn = None /\ write_buf conn = [] /\
  sys_write_benign (WriteCount 2) = true /\
  let '(n, conn1, w1) := socket_write deflate conn w buf KeepOwn in
  n = 2 /\
  write_buf conn1 = [{| bc_data := buf; bc_own := KeepOwn |}] /\
  write_offset conn1 = 2 /\
  sent_bytes (trace w1) = sent_bytes (trace w) ++ bytes_of "ab" /\
  (exists t, trace w1 = t ++ [Ev_conf_fd (fd conn) POLLIN POLLOUT]) /\
  let '(n2, conn2, w2) := socket_write deflate conn1 w1 buf2 GiveOwn in
  n2 = 2 /\ w2 = w1 /\
  write_buf conn2 = [{| bc_data := buf; bc_own := KeepOwn |};
                     {| bc_data := buf2; bc_own := GiveOwn |}] /\
  write_offset conn2 = 2.
Proof.
  intros conn w buf buf2.
  assert (H1 : out_z conn = None) by reflexivity.
  assert (H2 : ssl conn = None) by reflexivity.
  assert (H3 : write_buf conn = []) by reflexivity.
  assert (H4 : sys_writes w = [WriteCount 2]) by reflexivity.
  assert (H5 : sys_write_benign (WriteCount 2) = true) by reflexivity.
  assert (H6 : len_of (firstn (Z.to_nat 2) buf) < len_of buf) by reflexivity.
  split; [exact H1|]. split; [exact H2|]. split; [exact H3|]. split; [exact H5|].
  exact (socket_write_backpressure deflate conn w (WriteCount 2) [] buf buf2
           KeepOwn GiveOwn H1 H2 H3 H4 H5 H6).
Defined.

Lemma do_write_leftover_progress_witness :
  let sock := with_leftover "xyz" in
  let w := world_of [] [WriteCount 1] [] [] 0 in
  out_z sock <> None /\ ssl sock = None /\ sys_write_benign (WriteCount 1) = true /\
  let '(n, sock', w') := do_write deflate sock w (bytes_of "abc") in
  n = 0 /\
  in_z_leftover sock' = bytes_of "yz" /\
  sent_bytes (trace w') = sent_bytes (trace w) ++ bytes_of "x" /\
  sys_writes w' = [].
Proof.
  intros sock w.
  assert (H1 : out_z sock <> None) by (vm_compute; discriminate).
  assert (H2 : ssl sock = None) by reflexivity.
  assert (H3 : sys_writes w = [WriteCount 1]) by reflexivity.
  assert (H4 : sys_write_benign (WriteCount 1) = true) by reflexivity.
  assert (H5 : len_of (firstn (Z.to_nat 1) (in_z_leftover sock))
               < len_of (in_z_leftover sock)) by reflexivity.
  split; [exact H1|]. split; [exact H2|]. split; [exact H4|].
  pose proof (do_write_leftover_progress deflate sock w (bytes_of "abc")
                (WriteCount 1) [] H1 H2 H3 H4 H5) as K.
  cbn zeta in K.
  destruct (do_write deflate sock w (bytes_of "abc")) as [[n sock'] w'].
  destruct K as (K1 & K2 & K3 & K4 & K5).
  split; [exact K1|]. split; [rewrite K2; reflexivity|].
  split; [exact K4 | exact K5].
Defined.

Lemma socket_start_deflate_once_witness :
  let conn := fresh 16 in
  let refused := (-4, snd init) in
  in_z conn = None /\
  let '(conn1, w1) := socket_start_deflate init refused conn no_world in
  in_z conn1 = Some (snd init) /\ out_z conn1 = Some (snd init) /\
  trace w1 = [Ev_error "IMAP error: Cannot start compression"] /\
  socket_start_deflate init refused conn1 no_world = (conn1, no_world).
Proof.
  intros conn refused.
  assert (H1 : in_z conn = None) by reflexivity.
  split; [exact H1|].
  exact (socket_start_deflate_once init refused conn no_world no_world H1).
Defined.

Lemma init_ssl_ctx_memoized_witness :
  let tc := tls_conf (Some "certs.pem"%string) in
  (SSLContext tc = None -> ssl_ctx_valid tc = 0) /\
  let '(ok, conf1, tc1, w1) := init_ssl_ctx flags broken_file no_conf tc no_world in
  ok = 0 /\ init_ssl_ctx flags broken_file conf1 tc1 no_world = (0, conf1, tc1, no_world).
Proof.
  intros tc.
  assert (H1 : SSLContext tc = None -> ssl_ctx_valid tc = 0) by reflexivity.
  split; [exact H1|]. split; [reflexivity|].
  exact (init_ssl_ctx_memoized flags broken_file no_conf tc no_world no_world H1).
Defined.


Lemma verify_cert_host_without_cert_file_witness :
  let tc := tls_conf None in
  SSLContext tc = None /\ cert_file tc = None /\
  let '(ok, conf', tc', w') := init_ssl_ctx flags one_cert_file no_conf tc no_world in
  ok = 1 /\ verify_cert_host conf' verified_session = 0 /\
  verify_result verified_session = X509_V_OK /\
  exists cert h, peer_certificate verified_session = Some cert /\
                 host no_conf = Some h /\ verify_hostname cert h = 0.
Proof.
  intros tc.
  assert (H1 : SSLContext tc = None) by reflexivity.
  assert (H2 : cert_file tc = None) by reflexivity.
  split; [exact H1|]. split; [exact H2|].
  pose proof (verify_cert_host_without_cert_file flags one_cert_file no_conf tc no_world
                verified_session H1 H2) as K.
  destruct (init_ssl_ctx flags one_cert_file no_conf tc no_world)
    as [[[ok conf'] tc'] w'] eqn:E.
  destruct K as (K1 & K2).
  assert (H3 : verify_cert_host conf' verified_session = 0)
    by (injection E as _ <- _ _; reflexivity).
  split; [exact K1|]. split; [exact H3|]. exact (K2 H3).
Defined.

Lemma socket_start_tls_context_failure_witness :
  let tc := tls_conf (Some "certs.pem"%string) in
  let conn := ready 16 in
  let conn2 := ready 8 in
  SSLContext tc = None /\ ssl_ctx_valid tc = 0 /\
  fst (SSL_CTX_load_verify_locations broken_file "certs.pem") = 0 /\
  let '(conn', tc', w') :=
    socket_start_tls flags broken_file tls_session conn tc no_world in
  state conn' = SCK_READY /\ ssl conn' = ssl conn /\
  ssl_connects w' = ssl_connects no_world /\
  trace w' = trace no_world
               ++ [Ev_error "Error while loading certificate file"; Cb_starttls 0] /\
  let '(conn2', tc2', w2') :=
    socket_start_tls flags broken_file tls_session conn2 tc' no_world in
  state conn2' = SCK_READY /\ ssl conn2' = ssl conn2 /\ tc2' = tc' /\
  ssl_connects w2' = ssl_connects no_world /\
  trace w2' = trace no_world ++ [Cb_starttls 0].
Proof.
  intros tc conn conn2.
  assert (H1 : SSLContext tc = None) by reflexivity.
  assert (H2 : ssl_ctx_valid tc = 0) by reflexivity.
  assert (H3 : cert_file tc = Some "certs.pem"%string) by reflexivity.
  assert (H4 : fst (SSL_CTX_load_verify_locations broken_file "certs.pem") = 0)
    by reflexivity.
  split; [exact H1|]. split; [exact H2|]. split; [exact H4|].
  exact (socket_start_tls_context_failure flags broken_file tls_session tls_session
           conn conn2 tc no_world no_world "certs.pem" H1 H2 H3 H4).
Defined.

Lemma socket_connect_exits_on_socket_failure_witness :
  let sock := fresh 16 in
  tunnel (conf sock) = None /\ forallb fails_at_once [refused_now] = true /\
  ai_socket no_descriptor < 0 /\
  exists w',
    socket_connect sock no_world None
      (Some ([refused_now] ++ no_descriptor :: [accepted_later])) = Exited 1 w' /\
    connect_callbacks (trace w') = connect_callbacks (trace no_world) /\
    bad_callbacks (trace w') = bad_callbacks (trace no_world) /\
    closed_fds (trace w') = closed_fds (trace no_world) ++ map ai_socket [refused_now].
Proof.
  intros sock.
  assert (H1 : tunnel (conf sock) = None) by reflexivity.
  assert (H2 : forallb fails_at_once [refused_now] = true) by reflexivity.
  assert (H3 : ai_socket no_descriptor < 0) by reflexivity.
  split; [exact H1|]. split; [exact H2|]. split; [exact H3|].
  exact (socket_connect_exits_on_socket_failure sock no_world None [refused_now]
           no_descriptor [accepted_later] H1 H2 H3).
Defined.

Lemma socket_fd_cb_before_ready_witness :
  let conn := set_fd (set_curr_addr (fresh 16) [refused_later; accepted_later]) 5 in
  let w := world_of [ReadBytes (bytes_of "x")] [WriteCount 1] [] [] 0 in
  state conn <> SCK_READY /\
  data_path_untouched w
    (outcome_world (socket_fd_cb deflate 16 POLLOUT (Some 111) conn w)).
Proof.
  intros conn w.
  assert (H1 : state conn <> SCK_READY) by discriminate.
  split; [exact H1|].
  exact (socket_fd_cb_before_ready deflate 16 POLLOUT (Some 111) conn w H1).
Defined.

Lemma socket_fd_cb_readable_only_witness :
  let conn := queueing [chunk "ab"] 0 in
  let w := world_of [ReadBytes (bytes_of "hi")] [WriteCount 8] [] [] 0 in
  state conn = SCK_READY /\ ssl conn = None /\
  has_event POLLIN POLLERR = false /\ has_event POLLIN POLLOUT = false /\
  exists conn' w',
    socket_fd_cb deflate 16 POLLIN None conn w = Running conn' w' /\
    write_buf conn' = write_buf conn /\ write_offset conn' = write_offset conn /\
    sys_writes w' = sys_writes w /\
    sent_bytes (trace w') = sent_bytes (trace w) /\
    write_callbacks (trace w') = write_callbacks (trace w).
Proof.
  intros conn w.
  assert (H1 : state conn = SCK_READY) by reflexivity.
  assert (H2 : ssl conn = None) by reflexivity.
  assert (H3 : has_event POLLIN POLLERR = false) by reflexivity.
  assert (H4 : has_event POLLIN POLLOUT = false) by reflexivity.
  split; [exact H1|]. split; [exact H2|]. split; [exact H3|]. split; [exact H4|].
  exact (socket_fd_cb_readable_only deflate 16 POLLIN None conn w H1 H2 H3 H4).
Defined.

Lemma socket_fd_cb_failed_drain_skips_read_witness :
  let conn := queueing [chunk "ab"] 0 in
  let w := world_of [ReadBytes (bytes_of "hi")] [WriteFail (EOTHER 32)] [] [] 0 in
  let events := Z.lor POLLIN POLLOUT in
  state conn = SCK_READY /\ ssl conn = None /\ out_z conn = None /\
  has_event events POLLERR = false /\ has_event events POLLOUT = true /\
  write_buf conn <> [] /\ would_block (EOTHER 32) = false /\
  exists w',
    socket_fd_cb deflate 16 events None conn w = Running conn w' /\
    sys_reads w' = sys_reads w /\
    trace w' = trace w ++ [Ev_conf_fd (fd conn) POLLIN 0;
                           Ev_error "Socket error: write to"; Cb_bad].
Proof.
  intros conn w events.
  assert (H1 : state conn = SCK_READY) by reflexivity.
  assert (H2 : ssl conn = None) by reflexivity.
  assert (H3 : out_z conn = None) by reflexivity.
  assert (H4 : has_event events POLLERR = false) by reflexivity.
  assert (H5 : has_event events POLLOUT = true) by reflexivity.
  assert (H6 : write_buf conn <> []) by discriminate.
  assert (H7 : sys_writes w = [WriteFail (EOTHER 32)]) by reflexivity.
  assert (H8 : would_block (EOTHER 32) = false) by reflexivity.
  split; [exact H1|]. split; [exact H2|]. split; [exact H3|]. split; [exact H4|].
  split; [exact H5|]. split; [exact H6|]. split; [exact H8|].
  exact (socket_fd_cb_failed_drain_skips_read deflate 16 events None conn w
           (EOTHER 32) [] H1 H2 H3 H4 H5 H6 H7 H8).
Defined.

Lemma pinned_certificate_refused_after_lookup_witness :
  let conn := ready 16 in
  let tc := tls_conf (Some "certs.pem"%string) in
  let w := handshake_done in
  let conf1 := snd (fst (fst (init_ssl_ctx flags pinned_file (conf conn) tc w))) in
  cert_store conf1 = [pinned_cert; some_cert 1; some_cert 2] /\
  num_trusted conf1 = 1%nat /\
  cert_store (store_after_handshake conf1 pinned_session)
    = [some_cert 1; some_cert 2; pinned_cert] /\
  explicitly_trusted conf1 pinned_cert /\
  ~ explicitly_trusted (store_after_handshake conf1 pinned_session) pinned_cert /\
  let '(conn', tc', w') := socket_start_tls flags pinned_file pinned_session conn tc w in
  verify_cert_host conf1 pinned_session = 0 /\
  verify_cert_host (conf conn') pinned_session = -1 /\
  starttls_callbacks (trace w') = starttls_callbacks (trace w) ++ [0] /\
  state conn' = SCK_READY.
Proof.
  intros conn tc w conf1.
  assert (H1 : fst (fst (fst (init_ssl_ctx flags pinned_file (conf conn) tc w))) <> 0)
    by (vm_compute; discriminate).
  assert (H2 : ssl_connects w = [SslConnected]) by reflexivity.
  assert (H3 : peer_certificate pinned_session = Some pinned_cert) by reflexivity.
  assert (H4 : explicitly_trusted conf1 pinned_cert)
    by (exists pinned_cert; split; [left; reflexivity | reflexivity]).
  assert (H5 : ~ explicitly_trusted (store_after_handshake conf1 pinned_session)
                   pinned_cert)
    by (intros (t & Hin & Hc); vm_compute in Hin; destruct Hin as [<- | []];
        vm_compute in Hc; discriminate Hc).
  assert (H6 : verify_result pinned_session = X509_V_OK ->
               forall h, host conf1 = Some h -> verify_hostname pinned_cert h <> 0)
    by (intros _ h Hh; vm_compute in Hh; injection Hh as <-; vm_compute; discriminate).
  split; [reflexivity|]. split; [reflexivity|]. split; [reflexivity|].
  split; [exact H4|]. split; [exact H5|].
  exact (pinned_certificate_refused_after_lookup flags pinned_file pinned_session conn tc
           w pinned_cert [] H1 H2 H3 H4 H5 H6).
Defined.

Lemma write_stream_in_order_witness :
  let conn := ready 8 in
  let w := world_of [] [WriteCount 1; WriteFail EAGAIN; WriteCount 10; WriteCount 10] [] [] 0 in
  let ops := [Op_write (bytes_of "abc") KeepOwn; Op_write (bytes_of "de") GiveOwn;
              Op_drain] in
  out_z conn = None /\ write_fatal_free w = true /\ write_queue_ok conn /\
  let '(conn', w') := run_write_ops deflate ops conn w in
  sent_bytes (trace w') = bytes_of "a" /\ queued_bytes conn' = bytes_of "bcde" /\
  write_queue_ok conn' /\
  let '(r, conn2, w2) := do_queued_write deflate conn' w' in
  write_buf conn2 = [] /\ sent_bytes (trace w2) = bytes_of "abcde" /\ sys_writes w2 = [].
Proof.
  intros conn w ops.
  assert (H1 : out_z conn = None) by reflexivity.
  assert (H2 : write_fatal_free w = true) by reflexivity.
  assert (H3 : write_queue_ok conn) by reflexivity.
  split; [exact H1|]. split; [exact H2|]. split; [exact H3|].
  pose proof (write_stream_in_order deflate ops conn w H1 H2 H3) as K.
  destruct (run_write_ops deflate ops conn w) as [conn' w'] eqn:E.
  cbv zeta in K. destruct K as (_ & Kok & _ & Klive).
  assert (Hc : conn' = fst (run_write_ops deflate ops conn w)) by (rewrite E; reflexivity).
  assert (Hw : w' = snd (run_write_ops deflate ops conn w)) by (rewrite E; reflexivity).
  split; [rewrite Hw; reflexivity|]. split; [rewrite Hc; reflexivity|].
  split; [exact Kok|].
  apply (Klive 10 [] eq_refl).
  - rewrite Hc. repeat constructor; vm_compute; discriminate.
  - rewrite Hc, Hw. reflexivity.
Defined.
